(** * MapscrollerEditor: the timeline editor's view model and edit bridge

    A shallow embedding of [src/editor/Editor.ts].  The editor keeps a list
    of references to externally owned content objects, rebuilds a list of
    timeline rows from them on every dirty tick, mirrors the rows into an
    outline, and writes the user's drags and JSON edits back into the
    contents' data.

    Conventions of the embedding:
    - JavaScript numbers that carry times and positions are integers ([Z]):
      the embedding covers whole-number times, and a statement that needs
      the arithmetic of doubles to be exact says on which numbers; array
      indices are [nat];
    - a JavaScript object used as a record of named entries is an ordered
      property list (insertion order is what [for ... in], [Object.values]
      and the spread operator follow);
    - content objects live in a store and the editor holds references to
      them, as [Array.prototype.includes] compares identities;
    - a JavaScript exception is the [Throw] outcome, which keeps the state
      reached when it was raised. *)

From Stdlib Require Import ZArith Lia.
From stdpp Require Import base option list functions strings pretty.

Open Scope string_scope.
Open Scope Z_scope.
Open Scope list_scope.

(** ** JavaScript preliminaries *)

(** Outcome of running a piece of code on a state: normal completion with a
    value, or an exception with its message.  Both carry the state, since a
    JavaScript exception does not roll back earlier writes. *)
Inductive Outcome (S A : Type) : Type :=
  | Normal (a : A) (s : S)
  | Throw (msg : string) (s : S).
Arguments Normal {S A} a s.
Arguments Throw {S A} msg s.

Definition outcome_state {S A} (o : Outcome S A) : S :=
  match o with Normal _ s => s | Throw _ s => s end.

Definition is_normal {S A} (o : Outcome S A) : bool :=
  match o with Normal _ _ => true | Throw _ _ => false end.

(** [Number.prototype.toString] on an integer: its decimal digits, with a
    leading minus sign when negative. *)
Definition Number_toString (n : Z) : string := pretty n.

(** Ordered property lists: the entries of a JavaScript object in the order
    [for ... in], [Object.values] and the spread operator visit them.  (The
    engine's rule that integer-like keys come first is not modelled; property
    names here are names of animated properties and of data fields.) *)
Abbreviation Obj V := (list (string * V)).

(** [o[k]] *)
Fixpoint obj_get {V} (k : string) (o : Obj V) : option V :=
  match o with
  | [] => None
  | (k', v) :: o' => if decide (k' = k) then Some v else obj_get k o'
  end.

(** [o[k] = v]: an existing key keeps its place, a new key goes last. *)
Fixpoint obj_set {V} (k : string) (v : V) (o : Obj V) : Obj V :=
  match o with
  | [] => [(k, v)]
  | (k', v') :: o' =>
      if decide (k' = k) then (k', v) :: o' else (k', v') :: obj_set k v o'
  end.

(** [{ ...a, ...b }] *)
Definition obj_spread {V} (a b : Obj V) : Obj V :=
  fold_left (fun o kv => obj_set kv.1 kv.2 o) b a.

(** [Object.values(o)] *)
Definition obj_values {V} (o : Obj V) : list V := snd <$> o.

(** [a ?? b] on an optional value. *)
Definition nullish {A} (a b : option A) : option A :=
  match a with Some x => Some x | None => b end.

(** A JavaScript array of optional booleans: [None] is a hole or an
    [undefined] entry. *)
Definition array_get {A} (l : list (option A)) (i : nat) : option A :=
  mjoin (l !! i).

(** [l[i] = x]: a write past the end extends the array with holes. *)
Definition array_set {A} (i : nat) (x : A) (l : list (option A))
  : list (option A) :=
  if decide (i < length l)%nat then <[i := Some x]> l
  else l ++ replicate (i - length l) None ++ [Some x].

(** [!!v] for [v : boolean | undefined]. *)
Definition truthy (v : option bool) : bool := default false v.

(** [Array.prototype.forEach]: the callback receives the element and its
    index and updates the state. *)
Fixpoint forEach_from {A S} (f : A -> nat -> S -> S) (i : nat) (l : list A)
    (s : S) : S :=
  match l with
  | [] => s
  | x :: l' => forEach_from f (Datatypes.S i) l' (f x i s)
  end.
Definition forEach {A S} (f : A -> nat -> S -> S) (l : list A) (s : S) : S :=
  forEach_from f 0%nat l s.

(** [forEach] with a callback that may throw: the loop stops there. *)
Fixpoint forEachM_from {A S} (f : A -> nat -> S -> Outcome S unit) (i : nat)
    (l : list A) (s : S) : Outcome S unit :=
  match l with
  | [] => Normal tt s
  | x :: l' =>
      match f x i s with
      | Normal _ s' => forEachM_from f (Datatypes.S i) l' s'
      | Throw msg s' => Throw msg s'
      end
  end.
Definition forEachM {A S} (f : A -> nat -> S -> Outcome S unit) (l : list A)
    (s : S) : Outcome S unit :=
  forEachM_from f 0%nat l s.

(** [Array.prototype.map] with the index. *)
Fixpoint map_from {A B} (f : A -> nat -> B) (i : nat) (l : list A) : list B :=
  match l with
  | [] => []
  | x :: l' => f x i :: map_from f (Datatypes.S i) l'
  end.
Definition Array_map {A B} (f : A -> nat -> B) (l : list A) : list B :=
  map_from f 0%nat l.

(** ** Data model *)

(** JSON-shaped values the editor carries around without looking inside. *)
#[warnings="-register-all"]
Inductive JsonValue : Type :=
  | JNull
  | JBool (b : bool)
  | JNumber (n : Z)
  | JString (s : string)
  | JArray (xs : list JsonValue)
  | JObject (fields : list (string * JsonValue)).

(** [InterpolationStop['position']]: [number | string]. *)
Inductive Position : Type :=
  | PNumber (n : Z)
  | PString (s : string).

(** Modelled from the spec: [InterpolationStop] of package map-scroller,
    whose declaration is not part of this repository: "an ordered list of
    stops, each with a position (absolute or relative-to-interval-edge) and a
    value"; [rest] holds any further keys of the stop. *)
Module InterpolationStop.
Record t : Type := mk {
  position : Position;
  value : JsonValue;
  rest : Obj JsonValue;
}.
(** [Partial<InterpolationStop>] *)
Record partial : Type := mkPartial {
  p_position : option Position;
  p_value : option JsonValue;
  p_rest : Obj JsonValue;
}.
(** [{ ...s, ...p }] *)
Definition spread (s : t) (p : partial) : t :=
  {| position := default (position s) (p_position p);
     value := default (value s) (p_value p);
     rest := obj_spread (rest s) (p_rest p) |}.
Definition set_position (x : Position) (s : t) : t :=
  {| position := x; value := value s; rest := rest s |}.
End InterpolationStop.

(** Modelled from the spec: [ParsedInterpolationStop] of package
    map-scroller: a stop together with its resolved absolute position and the
    tag telling how the position was given.  The tag is a string at run time;
    the source narrows it to ['start' | 'end' | 'absolute']. *)
Module ParsedInterpolationStop.
Record t : Type := mk {
  stop : InterpolationStop.t;
  absolutePosition : Z;
  type : string;
}.
End ParsedInterpolationStop.

(** Modelled from the spec: [IContentData] of package map-scroller, "a
    mutable JSON-like data blob": the interval bounds, the optional record of
    interpolator stops by property name, and any further keys in [rest]. *)
Module IContentData.
Record t : Type := mk {
  low : Z;
  high : Z;
  interpolators : option (Obj (list InterpolationStop.t));
  rest : Obj JsonValue;
}.
(** [Partial<IContentData>] *)
Record partial : Type := mkPartial {
  p_low : option Z;
  p_high : option Z;
  p_interpolators : option (Obj (list InterpolationStop.t));
  p_rest : Obj JsonValue;
}.
(** [{ ...d, ...p }] *)
Definition spread (d : t) (p : partial) : t :=
  {| low := default (low d) (p_low p);
     high := default (high d) (p_high p);
     interpolators := nullish (p_interpolators p) (interpolators d);
     rest := obj_spread (rest d) (p_rest p) |}.
Definition set_low (x : Z) (d : t) : t :=
  {| low := x; high := high d; interpolators := interpolators d;
     rest := rest d |}.
Definition set_high (x : Z) (d : t) : t :=
  {| low := low d; high := x; interpolators := interpolators d;
     rest := rest d |}.
Definition set_interpolators (x : option (Obj (list InterpolationStop.t)))
    (d : t) : t :=
  {| low := low d; high := high d; interpolators := x; rest := rest d |}.
End IContentData.

(** [IInterpolator<T>] *)
Module IInterpolator.
Record t : Type := mk { getStops : list ParsedInterpolationStop.t }.
End IInterpolator.

(** Handlers attached to a content's [intervalChanged] event. *)
Inductive Handler : Type := OnContentsChanged.

#[global] Instance Handler_eq_dec : EqDecision Handler.
Proof. solve_decision. Defined.

(** Modelled from the spec: a content object, "externally owned; exposes a
    time interval [low, high], a type/label, a mutable JSON-like data blob,
    and a map of named interpolators".  [getLabel] is an optional method
    ([None] when the object has none).  [setData] is modelled as storing the
    blob; the calls are logged so that a skipped call can be told apart. *)
Module IEditorContent.
Record t : Type := mk {
  low : Z;
  high : Z;
  getLabel : option (option string);
  getType : option string;
  getData : option IContentData.t;
  getInterpolators : Obj IInterpolator.t;
  intervalChanged : list Handler;
  setDataLog : list IContentData.t;
}.
Definition setData (d : IContentData.t) (c : t) : t :=
  {| low := low c; high := high c; getLabel := getLabel c;
     getType := getType c; getData := Some d;
     getInterpolators := getInterpolators c;
     intervalChanged := intervalChanged c;
     setDataLog := setDataLog c ++ [d] |}.
Definition attach (h : Handler) (c : t) : t :=
  {| low := low c; high := high c; getLabel := getLabel c;
     getType := getType c; getData := getData c;
     getInterpolators := getInterpolators c;
     intervalChanged := intervalChanged c ++ [h];
     setDataLog := setDataLog c |}.
Definition detach (h : Handler) (c : t) : t :=
  {| low := low c; high := high c; getLabel := getLabel c;
     getType := getType c; getData := getData c;
     getInterpolators := getInterpolators c;
     intervalChanged := filter (fun h' => h' <> h) (intervalChanged c);
     setDataLog := setDataLog c |}.
End IEditorContent.

(** [TKey]: a keyframe of the timeline model. *)
Module TKey.
Record t : Type := mk {
  val : Z;
  keyIdx : nat;
  type : string;
  group : option string;
}.
End TKey.

(** [TRowModule] and [TRowProperty]; styling fields are left out. *)
Module TRowModule.
Record t : Type := mk {
  contentType : option string;
  label : option string;
  hidden : bool;
  moduleIdx : nat;
  keyframes : list TKey.t;
}.
End TRowModule.

Module TRowProperty.
Record t : Type := mk {
  propertyName : string;
  label : option string;
  min : Z;
  max : Z;
  hidden : bool;
  moduleIdx : nat;
  keyframes : list TKey.t;
}.
Definition set_hidden (h : bool) (r : t) : t :=
  {| propertyName := propertyName r; label := label r; min := min r;
     max := max r; hidden := h; moduleIdx := moduleIdx r;
     keyframes := keyframes r |}.
End TRowProperty.

(** [type TRow = TRowModule | TRowProperty], discriminated by [type]. *)
Inductive TRow : Type :=
  | RowModule (r : TRowModule.t)
  | RowProperty (r : TRowProperty.t).

Module Row.
Definition type (r : TRow) : string :=
  match r with RowModule _ => "module" | RowProperty _ => "property" end.
Definition moduleIdx (r : TRow) : nat :=
  match r with
  | RowModule m => TRowModule.moduleIdx m
  | RowProperty p => TRowProperty.moduleIdx p
  end.
Definition hidden (r : TRow) : bool :=
  match r with
  | RowModule m => TRowModule.hidden m
  | RowProperty p => TRowProperty.hidden p
  end.
Definition label (r : TRow) : option string :=
  match r with
  | RowModule m => TRowModule.label m
  | RowProperty p => TRowProperty.label p
  end.
Definition keyframes (r : TRow) : list TKey.t :=
  match r with
  | RowModule m => TRowModule.keyframes m
  | RowProperty p => TRowProperty.keyframes p
  end.
End Row.

(** A node of the outline list ([div.outline-node]); [onclick] is the module
    index its click handler passes to [_toggleGroup]. *)
Module OutlineNode.
Record t : Type := mk {
  classList : list string;
  display : string;
  innerText : string;
  title : string;
  onclick : nat;
}.
Definition set_display (d : string) (n : t) : t :=
  {| classList := classList n; display := d; innerText := innerText n;
     title := title n; onclick := onclick n |}.
End OutlineNode.

(** [TimelineElementDragState], seen through the source's casts
    [e.row as TRow | undefined] and [e.keyframe as TKey | undefined]. *)
Module TimelineElementDragState.
Record t : Type := mk {
  row : option TRow;
  keyframe : option TKey.t;
}.
End TimelineElementDragState.

(** ** The editor and its world

    [store] maps a reference to the current state of the content object it
    denotes; the remaining fields are the editor's own.  [rows] is
    [_timelineModel.rows], [outline] the children of [_outlineItemsEl],
    [textarea] and [errorMsg] the text of the two DOM elements,
    [_updateButtonHandler] the row and keyframe captured by the installed
    keyup closure, and [time] what [_timeline.getTime()] returns. *)
Record Editor : Type := mkEditor {
  store : nat -> IEditorContent.t;
  _contents : list nat;
  _expandedRows : list (option bool);
  rows : list TRow;
  _dirty : bool;
  outline : list OutlineNode.t;
  textarea : string;
  errorMsg : string;
  _updateButtonHandler : option (TRow * option TKey.t);
  time : Z;
}.

Definition set_store f (st : Editor) : Editor :=
  mkEditor (f (store st)) (_contents st) (_expandedRows st) (rows st)
    (_dirty st) (outline st) (textarea st) (errorMsg st)
    (_updateButtonHandler st) (time st).
Definition set_contents f (st : Editor) : Editor :=
  mkEditor (store st) (f (_contents st)) (_expandedRows st) (rows st)
    (_dirty st) (outline st) (textarea st) (errorMsg st)
    (_updateButtonHandler st) (time st).
Definition set_expandedRows f (st : Editor) : Editor :=
  mkEditor (store st) (_contents st) (f (_expandedRows st)) (rows st)
    (_dirty st) (outline st) (textarea st) (errorMsg st)
    (_updateButtonHandler st) (time st).
Definition set_rows f (st : Editor) : Editor :=
  mkEditor (store st) (_contents st) (_expandedRows st) (f (rows st))
    (_dirty st) (outline st) (textarea st) (errorMsg st)
    (_updateButtonHandler st) (time st).
Definition set_dirty b (st : Editor) : Editor :=
  mkEditor (store st) (_contents st) (_expandedRows st) (rows st)
    b (outline st) (textarea st) (errorMsg st)
    (_updateButtonHandler st) (time st).
Definition set_outline f (st : Editor) : Editor :=
  mkEditor (store st) (_contents st) (_expandedRows st) (rows st)
    (_dirty st) (f (outline st)) (textarea st) (errorMsg st)
    (_updateButtonHandler st) (time st).
Definition set_textarea s (st : Editor) : Editor :=
  mkEditor (store st) (_contents st) (_expandedRows st) (rows st)
    (_dirty st) (outline st) s (errorMsg st)
    (_updateButtonHandler st) (time st).
Definition set_errorMsg s (st : Editor) : Editor :=
  mkEditor (store st) (_contents st) (_expandedRows st) (rows st)
    (_dirty st) (outline st) (textarea st) s
    (_updateButtonHandler st) (time st).
Definition set_updateButtonHandler h (st : Editor) : Editor :=
  mkEditor (store st) (_contents st) (_expandedRows st) (rows st)
    (_dirty st) (outline st) (textarea st) (errorMsg st) h (time st).
Definition set_time t (st : Editor) : Editor :=
  mkEditor (store st) (_contents st) (_expandedRows st) (rows st)
    (_dirty st) (outline st) (textarea st) (errorMsg st)
    (_updateButtonHandler st) t.

(** A method call on the content object behind reference [r]. *)
Definition on_content (r : nat) (f : IEditorContent.t -> IEditorContent.t)
    (st : Editor) : Editor :=
  set_store (fun h => <[r := f (h r)]> h) st.

(** Code that reads and writes the editor and may throw. *)
Definition M (A : Type) : Type := Editor -> Outcome Editor A.

#[global] Instance M_ret : MRet M := fun A a st => Normal a st.
#[global] Instance M_bind : MBind M := fun A B f m st =>
  match m st with
  | Normal a st' => f a st'
  | Throw msg st' => Throw msg st'
  end.

Definition throw {A} (msg : string) : M A := fun st => Throw msg st.
Definition modify (f : Editor -> Editor) : M unit := fun st => Normal tt (f st).
Definition gets {A} (f : Editor -> A) : M A := fun st => Normal (f st) st.

(** A call of an [async] function that the caller does not await: the body
    runs at once up to its end (the only [await] of the two updaters is on
    the result of [setData]), and a rejection is not seen by the caller. *)
Definition unawaited (m : M unit) : M unit :=
  fun st => Normal tt (outcome_state (m st)).

(** ** The view-model synchroniser *)

Definition _onContentsChanged (st : Editor) : Editor := set_dirty true st.

(** [addContent]: the array built from [_expandedRows] is a local that is
    dropped, so the flags are not touched. *)
Definition addContent (content : nat) (st : Editor) : Editor :=
  if decide (content ∈ _contents st) then st
  else
    let st := on_content content (IEditorContent.attach OnContentsChanged) st in
    let st := set_contents (fun l => l ++ [content]) st in
    _onContentsChanged st.

(** [Array.prototype.indexOf] *)
Fixpoint indexOf (x : nat) (l : list nat) : option nat :=
  match l with
  | [] => None
  | y :: l' => if decide (y = x) then Some 0%nat else S <$> indexOf x l'
  end.

Definition removeContent (content : nat) (st : Editor) : Editor :=
  match indexOf content (_contents st) with
  | None => st
  | Some idx =>
      let st := on_content content (IEditorContent.detach OnContentsChanged) st in
      let st := set_contents (delete idx) st in
      let st := set_expandedRows (delete idx) st in
      _onContentsChanged st
  end.

(** Modelled from the spec: [setTime] hands the time to the timeline engine,
    an external library whose code is not part of this repository.  The
    engine's [setTime] is taken to store the time rounded to an integer (the
    times of this embedding are integers already) and not below the [min]
    option, which [timelineOpts] sets to 0; the engine is taken to be idle,
    with no drag of the playhead going on. *)
Definition setTime (currentTime : Z) (st : Editor) : Editor :=
  set_time (Z.max 0 currentTime) st.

Definition reset (st : Editor) : Editor :=
  set_time 0 (set_expandedRows (fun _ => []) (set_contents (fun _ => []) st)).

Definition _rowFromContent (content : IEditorContent.t) (moduleIdx : nat)
    : TRowModule.t :=
  {| TRowModule.contentType := IEditorContent.getType content;
     TRowModule.label :=
       nullish (IEditorContent.getLabel content ≫= id)
               (IEditorContent.getType content);
     TRowModule.hidden := false;
     TRowModule.moduleIdx := moduleIdx;
     TRowModule.keyframes :=
       [ {| TKey.val := IEditorContent.low content; TKey.keyIdx := 0;
            TKey.type := "absolute"; TKey.group := None |};
         {| TKey.val := IEditorContent.high content; TKey.keyIdx := 1;
            TKey.type := "absolute"; TKey.group := None |} ] |}.

Definition _rowFromProperty (st : Editor) (content : IEditorContent.t)
    (moduleIdx : nat) (propertyName : string)
    (interpolator : IInterpolator.t) : TRowProperty.t :=
  {| TRowProperty.propertyName := propertyName;
     TRowProperty.label := Some propertyName;
     TRowProperty.min := IEditorContent.low content;
     TRowProperty.max := IEditorContent.high content;
     TRowProperty.hidden := negb (truthy (array_get (_expandedRows st) moduleIdx));
     TRowProperty.moduleIdx := moduleIdx;
     TRowProperty.keyframes :=
       Array_map
         (fun s keyIdx =>
            {| TKey.val := ParsedInterpolationStop.absolutePosition s;
               TKey.keyIdx := keyIdx;
               TKey.type := ParsedInterpolationStop.type s;
               TKey.group :=
                 Some (propertyName +:+ Number_toString (Z.of_nat keyIdx)) |})
         (IInterpolator.getStops interpolator) |}.

Definition push_row (r : TRow) (st : Editor) : Editor :=
  set_rows (fun rs => rs ++ [r]) st.

(** [_redrawTimeline]; the calls into the rendering engine and the DOM class
    change do not touch the view model. *)
Definition _redrawTimeline (st : Editor) : Editor :=
  let st := set_rows (fun _ => []) st in
  forEach
    (fun content moduleIdx st =>
       let c := store st content in
       let st := push_row (RowModule (_rowFromContent c moduleIdx)) st in
       let interpolators := IEditorContent.getInterpolators c in
       fold_left
         (fun st entry =>
            let propertyName := entry.1 in
            let interpolator := entry.2 in
            push_row
              (RowProperty
                 (_rowFromProperty st c moduleIdx propertyName interpolator))
              st)
         interpolators st)
    (_contents st) st.

(** [a || b] on an optional string: the empty string is falsy. *)
Definition or_string (a : option string) (b : string) : string :=
  match a with
  | Some s => if decide (s = EmptyString) then b else s
  | None => b
  end.

(** The [div] that [_redrawOutline] creates for the row at index [idx]. *)
Definition outline_node (row : TRow) (idx : nat) : OutlineNode.t :=
  {| OutlineNode.classList := ["outline-node"; Row.type row];
     OutlineNode.display := if Row.hidden row then "none" else "block";
     OutlineNode.innerText :=
       or_string (Row.label row) (Number_toString (Z.of_nat idx));
     OutlineNode.title :=
       or_string (Row.label row) (Number_toString (Z.of_nat idx));
     OutlineNode.onclick := Row.moduleIdx row |}.

Definition _redrawOutline (st : Editor) : Editor :=
  let st := set_outline (fun _ => []) st in
  forEach
    (fun row idx st =>
       let div := outline_node row idx in
       set_outline (fun ns => ns ++ [div]) st)
    (rows st) st.

(** One animation frame of [_redrawLoop]. *)
Definition _redrawLoop (st : Editor) : Editor :=
  if _dirty st then set_dirty false (_redrawOutline (_redrawTimeline st))
  else st.

(** The callback of the loop in [_toggleGroup].  The loop-carried local
    [expanded] travels with the state; [nodes], the array of outline nodes
    taken before the loop, holds the very nodes of the outline, so the write
    to [nodes[idx].style.display] lands in the outline, and reading [style]
    of a missing node is a [TypeError]. *)
Definition toggle_row (r : TRow) (idx : nat) (s : bool * Editor)
    : Outcome (bool * Editor) unit :=
  let '(expanded, st) := s in
  match r with
  | RowModule m =>
      Normal tt
        (truthy (array_get (_expandedRows st) (TRowModule.moduleIdx m)), st)
  | RowProperty _ =>
      let st :=
        set_rows
          (alter
             (fun r' =>
                match r' with
                | RowProperty p =>
                    RowProperty (TRowProperty.set_hidden (negb expanded) p)
                | RowModule m => RowModule m
                end) idx) st in
      match outline st !! idx with
      | None =>
          Throw "Cannot read properties of undefined (reading 'style')"
            (expanded, st)
      | Some _ =>
          Normal tt
            (expanded,
             set_outline
               (alter
                  (OutlineNode.set_display
                     (if expanded then "block" else "none")) idx) st)
      end
  end.

Definition _toggleGroup (moduleIdx : nat) (st : Editor) : Outcome Editor unit :=
  let st :=
    set_expandedRows
      (array_set moduleIdx
         (negb (truthy (array_get (_expandedRows st) moduleIdx)))) st in
  match forEachM toggle_row (rows st) (false, st) with
  | Normal _ (_, st) => Normal tt st
  | Throw msg (_, st) => Throw msg st
  end.

(** ** The edit bridge *)

(** [this._contents[moduleIdx]], or the error of [_getContent]. *)
Definition _getContent (moduleIdx : nat) : M nat := fun st =>
  match _contents st !! moduleIdx with
  | Some content => Normal content st
  | None => Throw "Content not found" st
  end.

Definition _absoluteToRelative (content : IEditorContent.t) (key : TKey.t)
    : M Position :=
  if decide (TKey.type key = "absolute") then mret (PNumber (TKey.val key))
  else if decide (TKey.type key = "start") then
    mret (PString
            ("+" +:+ Number_toString (TKey.val key - IEditorContent.low content)))
  else if decide (TKey.type key = "end") then
    mret (PString
            ("-" +:+ Number_toString (IEditorContent.high content - TKey.val key)))
  else throw "Unexpected type".

Definition _getInterpolationStop (content : IEditorContent.t)
    (propertyName : string) (keyIdx : nat)
    : option ParsedInterpolationStop.t :=
  interpolator ← obj_get propertyName (IEditorContent.getInterpolators content);
  IInterpolator.getStops interpolator !! keyIdx.

(** [{ ...stop }] with [absolutePosition] and [type] deleted; spreading
    [undefined] gives the empty object. *)
Definition stop_fields (s : option ParsedInterpolationStop.t)
    : InterpolationStop.partial :=
  match s with
  | Some s =>
      let s := ParsedInterpolationStop.stop s in
      {| InterpolationStop.p_position := Some (InterpolationStop.position s);
         InterpolationStop.p_value := Some (InterpolationStop.value s);
         InterpolationStop.p_rest := InterpolationStop.rest s |}
  | None =>
      {| InterpolationStop.p_position := None;
         InterpolationStop.p_value := None;
         InterpolationStop.p_rest := [] |}
  end.

(** [_expandTimeline] on one stop. *)
Definition expand_stop (value currentTime : Z) (s : InterpolationStop.t)
    : InterpolationStop.t :=
  match InterpolationStop.position s with
  | PString _ => s
  | PNumber position =>
      if decide (position > currentTime) then
        InterpolationStop.set_position
          (PNumber (Z.max (position + value) currentTime)) s
      else s
  end.

(** The writes [_expandTimeline] makes to one content's data blob. *)
Definition expand_data (value currentTime : Z) (data : IContentData.t)
    : IContentData.t :=
  let data :=
    if decide (IContentData.low data > currentTime) then
      IContentData.set_low
        (Z.max (IContentData.low data + value) currentTime) data
    else data in
  let data :=
    if decide (IContentData.high data > currentTime) then
      IContentData.set_high
        (Z.max (IContentData.high data + value) currentTime) data
    else data in
  match IContentData.interpolators data with
  | Some interpolators =>
      IContentData.set_interpolators
        (Some
           ((fun entry : string * list InterpolationStop.t =>
               (entry.1, expand_stop value currentTime <$> entry.2))
            <$> interpolators)) data
  | None => data
  end.

Definition _expandTimeline (value : Z) (st : Editor) : Editor :=
  let currentTime := time st in
  forEach
    (fun c _ st =>
       match IEditorContent.getData (store st c) with
       | None => st
       | Some data =>
           let data := expand_data value currentTime data in
           on_content c (IEditorContent.setData data) st
       end)
    (_contents st) st.

Definition _onKeyPress (targetIsTextarea : bool) (key : string) (st : Editor)
    : Editor :=
  if targetIsTextarea then st
  else if decide (key = "ArrowRight") then _expandTimeline 100 st
  else if decide (key = "ArrowLeft") then _expandTimeline (-100) st
  else st.

Section Bridge.

(** The platform's JSON functions, at the types the source uses them:
    [JSON.parse] returns the parsed value or the message of its
    [SyntaxError]; the two [as] casts of the parsed value are unchecked
    views; [JSON.stringify] is taken separately for each argument shape. *)
Variable JSON_parse : string -> string + JsonValue.
Variable asContentData : JsonValue -> IContentData.partial.
Variable asInterpolationStop : JsonValue -> InterpolationStop.partial.
Variable JSON_stringify : IContentData.t -> string.
Variable JSON_stringify_data : option IContentData.t -> string.
Variable JSON_stringify_stop : InterpolationStop.partial -> string.

Definition _editContentData (content : IEditorContent.t) (st : Editor)
    : Editor :=
  set_textarea (JSON_stringify_data (IEditorContent.getData content)) st.

Definition _editKeyframeData (content : IEditorContent.t)
    (propertyName : string) (key : TKey.t) (st : Editor) : Editor :=
  let data :=
    stop_fields (_getInterpolationStop content propertyName (TKey.keyIdx key)) in
  set_textarea (JSON_stringify_stop data) st.

(** The handler is the closure [() => this._onJsonChanged(row, key)],
    kept as the pair it captures. *)
Definition _updateHandler (handler : TRow * option TKey.t) (st : Editor)
    : Editor :=
  set_updateButtonHandler (Some handler) st.

Definition _onModuleClicked (row : TRow) : M unit :=
  content ← _getContent (Row.moduleIdx row);
  modify (fun st => _editContentData (store st content) st);;
  modify (_updateHandler (row, None)).

Definition _onPropertyKeyframeClicked (row : TRowProperty.t) (key : TKey.t)
    : M unit :=
  content ← _getContent (TRowProperty.moduleIdx row);
  modify (fun st =>
            _editKeyframeData (store st content)
              (TRowProperty.propertyName row) key st);;
  modify (_updateHandler (RowProperty row, Some key)).

Definition _updateModuleKeyframePosition (row : TRow) (key : TKey.t)
    : M unit :=
  content ← _getContent (Row.moduleIdx row);
  data ← gets (fun st => IEditorContent.getData (store st content));
  match data with
  | None => throw "Module data not yet present"
  | Some data =>
      let data :=
        if decide (TKey.keyIdx key = 0%nat)
        then IContentData.set_low (TKey.val key) data
        else IContentData.set_high (TKey.val key) data in
      modify (on_content content (IEditorContent.setData data));;
      _onModuleClicked row
  end.

(** In [property[key.keyIdx].position = ...] the right-hand side is
    computed before the write to a missing stop raises its [TypeError]. *)
Definition _updatePropertyKeyframePosition (row : TRowProperty.t)
    (key : TKey.t) : M unit :=
  content ← _getContent (TRowProperty.moduleIdx row);
  c ← gets (fun st => store st content);
  match IEditorContent.getData c with
  | None => throw "Module data not yet present"
  | Some data =>
      let property :=
        interpolators ← IContentData.interpolators data;
        obj_get (TRowProperty.propertyName row) interpolators in
      match property with
      | None | Some [] =>
          throw ("Property not found: " +:+ TRowProperty.propertyName row)
      | Some property =>
          position ← _absoluteToRelative c key;
          match property !! TKey.keyIdx key with
          | None =>
              throw "Cannot set properties of undefined (setting 'position')"
          | Some s =>
              let property :=
                <[TKey.keyIdx key := InterpolationStop.set_position position s]>
                  property in
              let data :=
                IContentData.set_interpolators
                  (obj_set (TRowProperty.propertyName row) property
                     <$> IContentData.interpolators data) data in
              modify (on_content content (IEditorContent.setData data));;
              _onPropertyKeyframeClicked row key
          end
      end
  end.

Definition _processDragElement (e : TimelineElementDragState.t) : M unit :=
  match TimelineElementDragState.row e,
        TimelineElementDragState.keyframe e with
  | Some row, Some key =>
      match row with
      | RowModule _ => _updateModuleKeyframePosition row key
      | RowProperty p => _updatePropertyKeyframePosition p key
      end
  | _, _ => throw "Unexpected"
  end.

Definition _onDrag (elements : list TimelineElementDragState.t) : M unit :=
  forEachM (fun e _ st => _processDragElement e st) elements.

(** [_updateModuleData]; the second [content.getData()] returns the blob
    read at the start, nothing having been written in between. *)
Definition _updateModuleData (content : nat) (data : IContentData.partial)
    : M unit :=
  contentData ← gets (fun st => IEditorContent.getData (store st content));
  match contentData with
  | None => throw "Module data not yet present"
  | Some contentData =>
      let merged := IContentData.spread contentData data in
      if decide (JSON_stringify merged = JSON_stringify contentData)
      then mret tt
      else modify (on_content content (IEditorContent.setData merged))
  end.

Definition _updateKeyframeData (content : nat) (propertyName : string)
    (keyIdx : nat) (newData : InterpolationStop.partial) : M unit :=
  contentData ← gets (fun st => IEditorContent.getData (store st content));
  match contentData with
  | None => throw "Module data not yet present"
  | Some contentData =>
      let property :=
        interpolators ← IContentData.interpolators contentData;
        obj_get propertyName interpolators in
      match property with
      | None => throw "Property not found"
      | Some property =>
          match property !! keyIdx with
          | None => throw "Keyframe not found"
          | Some keyframe =>
              let property :=
                <[keyIdx := InterpolationStop.spread keyframe newData]>
                  property in
              let contentData :=
                IContentData.set_interpolators
                  (obj_set propertyName property
                     <$> IContentData.interpolators contentData)
                  contentData in
              modify (on_content content (IEditorContent.setData contentData))
          end
      end
  end.

(** [_onJsonChanged]: the [try] block catches what [JSON.parse] throws; the
    two updaters are [async] and are not awaited.  The guard on an undefined
    [row.moduleIdx] cannot fire on a [TRow], whose module index is a number. *)
Definition _onJsonChanged (row : TRow) (key : option TKey.t) : M unit :=
  content ← _getContent (Row.moduleIdx row);
  modify (set_errorMsg EmptyString);;
  text ← gets textarea;
  match JSON_parse text with
  | inl message => modify (set_errorMsg message)
  | inr newData =>
      match row, key with
      | RowModule _, _ =>
          unawaited (_updateModuleData content (asContentData newData))
      | RowProperty p, Some key =>
          unawaited
            (_updateKeyframeData content (TRowProperty.propertyName p)
               (TKey.keyIdx key) (asInterpolationStop newData))
      | RowProperty _, None => mret tt
      end
  end.

End Bridge.

(** ** Vocabulary of the statements *)

(** The rows one content contributes to the timeline, in the words of the
    specification: its module row, then one property row per interpolator. *)
Definition rows_of_content (st : Editor) (moduleIdx : nat)
    (c : IEditorContent.t) : list TRow :=
  RowModule (_rowFromContent c moduleIdx)
  :: ((fun entry =>
          RowProperty (_rowFromProperty st c moduleIdx entry.1 entry.2))
        <$> IEditorContent.getInterpolators c).

(** The blocks of rows of all contents, in content-list order. *)
Definition row_blocks (st : Editor) : list (list TRow) :=
  imap (fun moduleIdx content => rows_of_content st moduleIdx (store st content))
    (_contents st).

(** The shape of rows that a rebuild produces: module rows are shown, and
    every property row comes after a module row with the same module index,
    with no other module row in between; [cur] is the module index of the
    latest module row seen so far. *)
Fixpoint blocks_ok (cur : option nat) (rs : list TRow) : Prop :=
  match rs with
  | [] => True
  | RowModule m :: rs' =>
      TRowModule.hidden m = false
      /\ blocks_ok (Some (TRowModule.moduleIdx m)) rs'
  | RowProperty p :: rs' =>
      cur = Some (TRowProperty.moduleIdx p) /\ blocks_ok cur rs'
  end.

(** Visibility agrees with the flags: module rows are shown, and a property
    row is hidden exactly when the flag of its module is not truthy. *)
Definition row_visible_ok (flags : list (option bool)) (r : TRow) : Prop :=
  match r with
  | RowModule m => TRowModule.hidden m = false
  | RowProperty p =>
      TRowProperty.hidden p
      = negb (truthy (array_get flags (TRowProperty.moduleIdx p)))
  end.

Definition visible_ok (st : Editor) : Prop :=
  Forall (row_visible_ok (_expandedRows st)) (rows st).

(** What [_toggleGroup] relies on: rows in blocks and an outline with one
    node per row. *)
Definition mirrored (st : Editor) : Prop :=
  blocks_ok None (rows st) /\ length (outline st) = length (rows st).

(** The two operations of the expand/collapse protocol: a click on an
    outline node, and an animation frame with the dirty flag set. *)
Inductive Op : Type :=
  | Toggle (moduleIdx : nat)
  | Redraw.

Definition step (op : Op) : M unit :=
  match op with
  | Toggle moduleIdx => _toggleGroup moduleIdx
  | Redraw => modify (fun st => _redrawLoop (_onContentsChanged st))
  end.

Fixpoint run (ops : list Op) : M unit :=
  match ops with
  | [] => mret tt
  | op :: ops' => step op;; run ops'
  end.

(** How [_expandTimeline value] moves a time marker [p] when the playhead is
    at [t]: markers at or before the playhead stay, later ones are shifted
    and clamped to the playhead. *)
Definition moved (value t p p' : Z) : Prop :=
  (p <= t -> p' = p) /\ (t < p -> p' = Z.max (p + value) t).

Definition stop_moved (value t : Z) (s s' : InterpolationStop.t) : Prop :=
  InterpolationStop.value s' = InterpolationStop.value s
  /\ InterpolationStop.rest s' = InterpolationStop.rest s
  /\ match InterpolationStop.position s with
     | PString x => InterpolationStop.position s' = PString x
     | PNumber p =>
         exists p', InterpolationStop.position s' = PNumber p'
                    /\ moved value t p p'
     end.

(** The text an outline node shows for a row. *)
Definition outline_text (label : option string) (idx : nat) (text : string)
    : Prop :=
  (forall l, label = Some l -> l <> EmptyString -> text = l)
  /\ (label = None \/ label = Some EmptyString ->
      text = Number_toString (Z.of_nat idx)).

(** The outline mirrors the rows: one node per row, in row order, showing the
    row's label or else its index, displayed exactly when the row is not
    hidden. *)
Definition outline_mirrors (st : Editor) : Prop :=
  length (outline st) = length (rows st)
  /\ forall idx row,
       rows st !! idx = Some row ->
       exists node,
         outline st !! idx = Some node
         /\ outline_text (Row.label row) idx (OutlineNode.innerText node)
         /\ OutlineNode.title node = OutlineNode.innerText node
         /\ (OutlineNode.display node = "block"
             \/ OutlineNode.display node = "none")
         /\ (OutlineNode.display node = "block" <-> Row.hidden row = false).

(** ** A small editor to run the definitions on *)
Module Demo.

Definition stop0 : InterpolationStop.t :=
  {| InterpolationStop.position := PNumber 120;
     InterpolationStop.value := JNumber 0;
     InterpolationStop.rest := [] |}.
Definition stop1 : InterpolationStop.t :=
  {| InterpolationStop.position := PString "-50";
     InterpolationStop.value := JNumber 1;
     InterpolationStop.rest := [("easing", JString "linear")] |}.

Definition data : IContentData.t :=
  {| IContentData.low := 100; IContentData.high := 400;
     IContentData.interpolators := Some [("opacity", [stop0; stop1])];
     IContentData.rest := [("type", JString "image")] |}.

Definition opacity : IInterpolator.t :=
  {| IInterpolator.getStops :=
       [ {| ParsedInterpolationStop.stop := stop0;
            ParsedInterpolationStop.absolutePosition := 120;
            ParsedInterpolationStop.type := "absolute" |};
         {| ParsedInterpolationStop.stop := stop1;
            ParsedInterpolationStop.absolutePosition := 350;
            ParsedInterpolationStop.type := "end" |} ] |}.

Definition image : IEditorContent.t :=
  {| IEditorContent.low := 100; IEditorContent.high := 400;
     IEditorContent.getLabel := None;
     IEditorContent.getType := Some "image";
     IEditorContent.getData := Some data;
     IEditorContent.getInterpolators := [("opacity", opacity)];
     IEditorContent.intervalChanged := [OnContentsChanged];
     IEditorContent.setDataLog := [] |}.

Definition text : IEditorContent.t :=
  {| IEditorContent.low := 0; IEditorContent.high := 50;
     IEditorContent.getLabel := Some (Some EmptyString);
     IEditorContent.getType := None;
     IEditorContent.getData := None;
     IEditorContent.getInterpolators := [];
     IEditorContent.intervalChanged := [OnContentsChanged];
     IEditorContent.setDataLog := [] |}.

(** Reference 0 is the image, every other reference the text. *)
Definition contents (r : nat) : IEditorContent.t :=
  match r with O => image | _ => text end.

Definition editor : Editor :=
  {| store := contents; _contents := [0%nat; 1%nat];
     _expandedRows := [Some true]; rows := []; _dirty := true;
     outline := []; textarea := "{"; errorMsg := EmptyString;
     _updateButtonHandler := None; time := 110 |}.

(** The editor after its first frame. *)
Definition drawn : Editor := _redrawLoop editor.

Definition key (val : Z) (keyIdx : nat) (type : string) : TKey.t :=
  {| TKey.val := val; TKey.keyIdx := keyIdx; TKey.type := type;
     TKey.group := None |}.

Definition moduleRow : TRow := RowModule (_rowFromContent image 0).
Definition propertyRow : TRowProperty.t :=
  _rowFromProperty editor image 0 "opacity" opacity.

(** A toy stand-in for the platform's JSON functions: only the texts the
    examples use are recognised. *)
Definition quote : string := String (Ascii.ascii_of_nat 34) EmptyString.
Definition low90 : string := "{" +:+ quote +:+ "low" +:+ quote +:+ ":90}".
Definition value7 : string := "{" +:+ quote +:+ "value" +:+ quote +:+ ":7}".

Definition parse (s : string) : string + JsonValue :=
  if decide (s = "{}") then inr (JObject [])
  else if decide (s = low90) then inr (JObject [("low", JNumber 90)])
  else if decide (s = value7) then inr (JObject [("value", JNumber 7)])
  else inl "Unexpected end of JSON input".

Definition asContentData (v : JsonValue) : IContentData.partial :=
  {| IContentData.p_low :=
       match v with JObject [("low", JNumber n)] => Some n | _ => None end;
     IContentData.p_high := None;
     IContentData.p_interpolators := None;
     IContentData.p_rest := [] |}.

Definition asInterpolationStop (v : JsonValue) : InterpolationStop.partial :=
  {| InterpolationStop.p_position := None;
     InterpolationStop.p_value :=
       match v with JObject [("value", x)] => Some x | _ => None end;
     InterpolationStop.p_rest := [] |}.

(** Serialisers that show the interval bounds only. *)
Definition stringify (d : IContentData.t) : string :=
  Number_toString (IContentData.low d) +:+ ","
  +:+ Number_toString (IContentData.high d).
Definition stringify_data (d : option IContentData.t) : string :=
  match d with Some d => stringify d | None => "undefined" end.
Definition stringify_stop (s : InterpolationStop.partial) : string :=
  match InterpolationStop.p_position s with
  | Some (PNumber n) => Number_toString n
  | Some (PString x) => x
  | None => "{}"
  end.
End Demo.

(** ** Reading data by key *)

(** The statements about JSON edits speak of the keys of objects.  The typed
    records of the embedding are read by key as the JavaScript objects they
    stand for: the named fields first, every other key in [rest]. *)
Definition Position_toJson (p : Position) : JsonValue :=
  match p with PNumber n => JNumber n | PString s => JString s end.

Definition Position_ofJson (v : JsonValue) : option Position :=
  match v with
  | JNumber n => Some (PNumber n)
  | JString s => Some (PString s)
  | _ => None
  end.

(** [s[k]] on a stop, and on a partial stop. *)
Definition stop_get (k : string) (s : InterpolationStop.t)
    : option JsonValue :=
  if decide (k = "position") then
    Some (Position_toJson (InterpolationStop.position s))
  else if decide (k = "value") then Some (InterpolationStop.value s)
  else obj_get k (InterpolationStop.rest s).

Definition stop_partial_get (k : string) (p : InterpolationStop.partial)
    : option JsonValue :=
  if decide (k = "position") then
    Position_toJson <$> InterpolationStop.p_position p
  else if decide (k = "value") then InterpolationStop.p_value p
  else obj_get k (InterpolationStop.p_rest p).

Definition stop_toJson (s : InterpolationStop.t) : JsonValue :=
  JObject (("position", Position_toJson (InterpolationStop.position s))
           :: ("value", InterpolationStop.value s)
           :: InterpolationStop.rest s).

Definition interpolators_toJson (o : Obj (list InterpolationStop.t))
    : JsonValue :=
  JObject ((fun entry : string * list InterpolationStop.t =>
              (entry.1, JArray (stop_toJson <$> entry.2))) <$> o).

(** [d[k]] on a data blob, and on a partial one. *)
Definition data_get (k : string) (d : IContentData.t) : option JsonValue :=
  if decide (k = "low") then Some (JNumber (IContentData.low d))
  else if decide (k = "high") then Some (JNumber (IContentData.high d))
  else if decide (k = "interpolators") then
    interpolators_toJson <$> IContentData.interpolators d
  else obj_get k (IContentData.rest d).

Definition data_partial_get (k : string) (p : IContentData.partial)
    : option JsonValue :=
  if decide (k = "low") then JNumber <$> IContentData.p_low p
  else if decide (k = "high") then JNumber <$> IContentData.p_high p
  else if decide (k = "interpolators") then
    interpolators_toJson <$> IContentData.p_interpolators p
  else obj_get k (IContentData.p_rest p).

(** An [as] cast does not change the object: the typed view [p] of a parsed
    object with entries [fields] has the keys of [fields], with their values
    (and, as every JavaScript object, no key twice). *)
Definition views_data (p : IContentData.partial) (fields : Obj JsonValue)
    : Prop :=
  NoDup (IContentData.p_rest p).*1
  /\ forall k, data_partial_get k p = obj_get k fields.

Definition views_stop (p : InterpolationStop.partial)
    (fields : Obj JsonValue) : Prop :=
  NoDup (InterpolationStop.p_rest p).*1
  /\ forall k, stop_partial_get k p = obj_get k fields.

(** A stop whose further keys do not repeat its two named ones, and a record
    of interpolators made of such stops. *)
Definition plain_stop (s : InterpolationStop.t) : Prop :=
  ("position" ∉ (InterpolationStop.rest s).*1)
  /\ ("value" ∉ (InterpolationStop.rest s).*1).

Definition plain_interpolators (o : Obj (list InterpolationStop.t)) : Prop :=
  Forall (fun entry : string * list InterpolationStop.t =>
            Forall plain_stop entry.2) o.

(** A shallow merge, in the words of the specification: [new] has, under
    every key, the value the object [fields] gives it, and the value of [old]
    for the keys [fields] does not have. *)
Definition merged_over {A} (get : string -> A -> option JsonValue)
    (fields : Obj JsonValue) (old new : A) : Prop :=
  forall k,
    get k new
    = match obj_get k fields with Some v => Some v | None => get k old end.

(** ** Typed views of parsed objects to run the edits on *)
Module Json.

(** The entries of [o] whose keys are not in [keys]. *)
Definition without (keys : list string) (o : Obj JsonValue) : Obj JsonValue :=
  filter (fun entry => entry.1 ∉ keys) o.

Definition asNumber (v : JsonValue) : option Z :=
  match v with JNumber n => Some n | _ => None end.

Definition asStop (v : JsonValue) : option InterpolationStop.t :=
  match v with
  | JObject fields =>
      position ← obj_get "position" fields ≫= Position_ofJson;
      value ← obj_get "value" fields;
      Some {| InterpolationStop.position := position;
              InterpolationStop.value := value;
              InterpolationStop.rest := without ["position"; "value"] fields |}
  | _ => None
  end.

Definition asStops (v : JsonValue) : option (list InterpolationStop.t) :=
  match v with JArray xs => mapM asStop xs | _ => None end.

Definition asInterpolators (v : JsonValue)
    : option (Obj (list InterpolationStop.t)) :=
  match v with
  | JObject o =>
      mapM (fun entry : string * JsonValue =>
              stops ← asStops entry.2; Some (entry.1, stops)) o
  | _ => None
  end.

(** [v as Partial<IContentData>] for a parsed object [v] whose [low] and
    [high], if present, are numbers and whose [interpolators], if present,
    are lists of stops by name. *)
Definition asContentData (v : JsonValue) : IContentData.partial :=
  match v with
  | JObject fields =>
      {| IContentData.p_low := obj_get "low" fields ≫= asNumber;
         IContentData.p_high := obj_get "high" fields ≫= asNumber;
         IContentData.p_interpolators :=
           obj_get "interpolators" fields ≫= asInterpolators;
         IContentData.p_rest :=
           without ["low"; "high"; "interpolators"] fields |}
  | _ =>
      {| IContentData.p_low := None; IContentData.p_high := None;
         IContentData.p_interpolators := None; IContentData.p_rest := [] |}
  end.

(** [v as InterpolationStop] for a parsed object [v] whose [position], if
    present, is a number or a string. *)
Definition asInterpolationStop (v : JsonValue) : InterpolationStop.partial :=
  match v with
  | JObject fields =>
      {| InterpolationStop.p_position :=
           obj_get "position" fields ≫= Position_ofJson;
         InterpolationStop.p_value := obj_get "value" fields;
         InterpolationStop.p_rest := without ["position"; "value"] fields |}
  | _ =>
      {| InterpolationStop.p_position := None;
         InterpolationStop.p_value := None;
         InterpolationStop.p_rest := [] |}
  end.

(** Two texts and the objects [JSON.parse] gives for them. *)
Definition moduleText : string :=
  "{" +:+ Demo.quote +:+ "low" +:+ Demo.quote +:+ ":90,"
  +:+ Demo.quote +:+ "note" +:+ Demo.quote +:+ ":true}".
Definition moduleFields : Obj JsonValue :=
  [("low", JNumber 90); ("note", JBool true)].

Definition stopText : string :=
  "{" +:+ Demo.quote +:+ "value" +:+ Demo.quote +:+ ":7,"
  +:+ Demo.quote +:+ "easing" +:+ Demo.quote +:+ ":null}".
Definition stopFields : Obj JsonValue :=
  [("value", JNumber 7); ("easing", JNull)].

Definition parse (s : string) : string + JsonValue :=
  if decide (s = moduleText) then inr (JObject moduleFields)
  else if decide (s = stopText) then inr (JObject stopFields)
  else inl "Unexpected end of JSON input".

End Json.


(** ** Further handlers of the editor *)

(** [_addKeyframe]: a missing [interpolators] record and a missing property
    are created on the way; the key goes last. *)
Definition _addKeyframe (moduleIdx : nat) (propertyName : string)
    (key : InterpolationStop.t) : M unit :=
  content ← _getContent moduleIdx;
  data ← gets (fun st => IEditorContent.getData (store st content));
  match data with
  | None => throw "Module data not yet present"
  | Some data =>
      let interpolators :=
        match IContentData.interpolators data with
        | Some interpolators => interpolators
        | None => []
        end in
      let interpolators :=
        match obj_get propertyName interpolators with
        | Some _ => interpolators
        | None => obj_set propertyName [] interpolators
        end in
      let property := default [] (obj_get propertyName interpolators) in
      let interpolators :=
        obj_set propertyName (property ++ [key]) interpolators in
      let data := IContentData.set_interpolators (Some interpolators) data in
      modify (on_content content (IEditorContent.setData data))
  end.

(** [_removeKeyframe]: [property.splice(keyIdx, 1)] removes nothing when
    [keyIdx] is past the end. *)
Definition _removeKeyframe (moduleIdx : nat) (propertyName : string)
    (keyIdx : nat) : M unit :=
  content ← _getContent moduleIdx;
  data ← gets (fun st => IEditorContent.getData (store st content));
  match data with
  | None => throw "Module data not yet present"
  | Some data =>
      let property :=
        interpolators ← IContentData.interpolators data;
        obj_get propertyName interpolators in
      match property with
      | None | Some [] => throw ("Property not found: " +:+ propertyName)
      | Some property =>
          let property := delete keyIdx property in
          let data :=
            IContentData.set_interpolators
              (obj_set propertyName property
                 <$> IContentData.interpolators data) data in
          modify (on_content content (IEditorContent.setData data))
      end
  end.

Definition _onEmptyClick (st : Editor) : Editor := set_textarea EmptyString st.

Definition _isModuleRow (row : option TRow) : bool :=
  match row with Some (RowModule _) => true | _ => false end.

Definition _isPropertyRow (row : option TRow) : bool :=
  match row with Some (RowProperty _) => true | _ => false end.

(** [TimelineEventSource]; only [User] is told apart. *)
Inductive TimelineEventSource : Type :=
  | User
  | Programmatically
  | SetTimeMethod.

(** [_onTimeChanged]: the value posted on [seek], if any. *)
Definition _onTimeChanged (source : TimelineEventSource) (val : Z)
    : option Z :=
  match source with
  | User => Some val
  | _ => None
  end.

(** [TimelineElement], as far as [_onMouseDown] reads it.  [group] is only
    tested for truthiness; the groups this editor creates are strings. *)
Module TimelineElement.
Record t : Type := mk {
  row : option TRow;
  keyframe : option TKey.t;
  group : option string;
}.
End TimelineElement.

(** [TimelineClickEvent]: [altKey] is [d.args.altKey]. *)
Module TimelineClickEvent.
Record t : Type := mk {
  target : option TimelineElement.t;
  elements : list TimelineElement.t;
  altKey : bool;
  val : Z;
}.
End TimelineClickEvent.

(** Truthiness of an optional string. *)
Definition truthy_string (s : option string) : bool :=
  match s with
  | Some s => if decide (s = EmptyString) then false else true
  | None => false
  end.

Section Handlers.

Variable JSON_parse : string -> string + JsonValue.
Variable asContentData : JsonValue -> IContentData.partial.
Variable asInterpolationStop : JsonValue -> InterpolationStop.partial.
Variable JSON_stringify : IContentData.t -> string.
Variable JSON_stringify_data : option IContentData.t -> string.
Variable JSON_stringify_stop : InterpolationStop.partial -> string.

(** [_onMouseDown].  Without a target, [d.elements[0].row] is read first, a
    [TypeError] when there is no element. *)
Definition _onMouseDown (d : TimelineClickEvent.t) : M unit :=
  match TimelineClickEvent.target d with
  | None =>
      match TimelineClickEvent.elements d with
      | [] => throw "Cannot read properties of undefined (reading 'row')"
      | e :: _ =>
          match TimelineClickEvent.altKey d, TimelineElement.row e with
          | true, Some (RowProperty r) =>
              _addKeyframe (TRowProperty.moduleIdx r)
                (TRowProperty.propertyName r)
                {| InterpolationStop.position :=
                     PNumber (TimelineClickEvent.val d);
                   InterpolationStop.value := JNumber 0;
                   InterpolationStop.rest := [] |}
          | _, _ => modify _onEmptyClick
          end
      end
  | Some target =>
      let r := TimelineElement.row target in
      let k := TimelineElement.keyframe target in
      let g := TimelineElement.group target in
      match r with
      | Some (RowModule m) =>
          if bool_decide (is_Some k) || truthy_string g
          then _onModuleClicked JSON_stringify_data (RowModule m)
          else modify _onEmptyClick
      | _ => mret tt
      end;;
      match r, k with
      | Some (RowProperty p), Some k =>
          if TimelineClickEvent.altKey d
          then _removeKeyframe (TRowProperty.moduleIdx p)
                 (TRowProperty.propertyName p) (TKey.keyIdx k)
          else _onPropertyKeyframeClicked JSON_stringify_stop p k
      | _, _ => mret tt
      end
  end.

Definition _onDragFinished (elements : list TimelineElementDragState.t)
    : M unit :=
  forEachM
    (fun e _ st =>
       _processDragElement JSON_stringify_data JSON_stringify_stop e st)
    elements.

(** ** The editor as a reactive system *)

(** What can happen to a constructed editor: calls of its public methods, a
    content's [intervalChanged] notification, an animation frame, a click on
    the outline node at an index, a key press on the window, the engine's
    drag and mouse-down callbacks, a key release in the text box after its
    text became [text], and the host changing a content object. *)
Inductive Event : Type :=
  | AddContent (content : nat)
  | RemoveContent (content : nat)
  | SetTime (currentTime : Z)
  | Reset
  | IntervalChanged
  | Frame
  | OutlineClick (idx : nat)
  | KeyPress (targetIsTextarea : bool) (key : string)
  | Drag (elements : list TimelineElementDragState.t)
  | DragFinished (elements : list TimelineElementDragState.t)
  | MouseDown (d : TimelineClickEvent.t)
  | KeyUp (text : string)
  | HostWrite (content : nat) (f : IEditorContent.t -> IEditorContent.t).

Definition handle (ev : Event) : M unit :=
  match ev with
  | AddContent content => modify (addContent content)
  | RemoveContent content => modify (removeContent content)
  | SetTime currentTime => modify (setTime currentTime)
  | Reset => modify reset
  | IntervalChanged => modify _onContentsChanged
  | Frame => modify _redrawLoop
  | OutlineClick idx =>
      node ← gets (fun st => outline st !! idx);
      match node with
      | Some node => _toggleGroup (OutlineNode.onclick node)
      | None => mret tt
      end
  | KeyPress targetIsTextarea key => modify (_onKeyPress targetIsTextarea key)
  | Drag elements => _onDrag JSON_stringify_data JSON_stringify_stop elements
  | DragFinished elements => _onDragFinished elements
  | MouseDown d => _onMouseDown d
  | KeyUp text =>
      modify (set_textarea text);;
      handler ← gets _updateButtonHandler;
      match handler with
      | Some (row, key) =>
          _onJsonChanged JSON_parse asContentData asInterpolationStop
            JSON_stringify row key
      | None => mret tt
      end
  | HostWrite content f => modify (on_content content f)
  end.

(** A handler that throws leaves the state it reached; the next event finds
    the editor in that state. *)
Fixpoint dispatch (evs : list Event) (st : Editor) : Editor :=
  match evs with
  | [] => st
  | ev :: evs' => dispatch evs' (outcome_state (handle ev st))
  end.

End Handlers.

(** The constructor: empty lists, the dirty flag set, and the first run of
    [_redrawLoop].  The contents of the host, the initial texts of the two
    DOM elements and the engine's initial time are given. *)
Definition new_Editor (contents : nat -> IEditorContent.t)
    (textarea0 errorMsg0 : string) (time0 : Z) : Editor :=
  _redrawLoop
    {| store := contents; _contents := []; _expandedRows := []; rows := [];
       _dirty := true; outline := []; textarea := textarea0;
       errorMsg := errorMsg0; _updateButtonHandler := None; time := time0 |}.

(** The part of the editor that only the synchroniser writes: the content
    list, the flags, the rows, the outline, the dirty flag and the time. *)
Definition same_view (st st' : Editor) : Prop :=
  _contents st' = _contents st
  /\ _expandedRows st' = _expandedRows st
  /\ rows st' = rows st
  /\ outline st' = outline st
  /\ _dirty st' = _dirty st
  /\ time st' = time st.

(** Code that leaves that part alone, whether it returns or throws. *)
Definition preserves_view {A} (m : M A) : Prop :=
  forall st, same_view st (outcome_state (m st)).

(** Code that writes to no content object. *)
Definition preserves_store {A} (m : M A) : Prop :=
  forall st, store (outcome_state (m st)) = store st.

(** What every reachable state of the editor satisfies. *)
Definition consistent (st : Editor) : Prop :=
  NoDup (_contents st) /\ mirrored st /\ outline_mirrors st.


(** The outline node at index [idx] mirrors the row at that index. *)
Definition node_mirrors (idx : nat) (row : TRow) (node : OutlineNode.t)
    : Prop :=
  outline_text (Row.label row) idx (OutlineNode.innerText node)
  /\ OutlineNode.title node = OutlineNode.innerText node
  /\ (OutlineNode.display node = "block" \/ OutlineNode.display node = "none")
  /\ (OutlineNode.display node = "block" <-> Row.hidden row = false).

(** Where [_expandTimeline value] puts a marker at [p] when the playhead is
    at [t]. *)
Definition shifted (value t p : Z) : Z :=
  if decide (p > t) then Z.max (p + value) t else p.

(** The time markers of a data blob: its bounds and the numeric positions
    of its stops. *)
Definition markers (data : IContentData.t) : list Z :=
  IContentData.low data :: IContentData.high data
  :: (stops ← obj_values (default [] (IContentData.interpolators data));
      s ← stops;
      match InterpolationStop.position s with
      | PNumber p => [p]
      | PString _ => []
      end).

(** The whole numbers that JavaScript's numbers add 100 to and subtract 100
    from without rounding. *)
Definition exact_marker (p : Z) : Prop :=
  - 2 ^ 53 + 100 <= p <= 2 ^ 53 - 100.

#[global] Instance exact_marker_dec (p : Z) : Decision (exact_marker p).
Proof. unfold exact_marker. apply _. Defined.

(** ** The bridge to the editor window ([EditorBridge])

    The bridge lives in the host page.  [positionChanged] tells whether the
    handler the constructor attached to the scroll control's
    [positionChanged] event is still attached; [_editorWindow] is the window
    opened last, with its [closed] flag and the number of [focus] calls;
    [_editor] is the editor of that window; [setPositionLog] records the
    calls of [scrollControl.setPosition].  The handler on [contentsChanged]
    is never detached. *)
Module EditorWindow.
Record t : Type := mk {
  closed : bool;
  focusCalls : nat;
}.
End EditorWindow.

Module EditorBridge.
Record t : Type := mk {
  positionChanged : bool;
  _editorWindow : option EditorWindow.t;
  _editor : option Editor;
  _contents : option (list nat);
  setPositionLog : list Z;
}.

Definition new : t :=
  {| positionChanged := true; _editorWindow := None; _editor := None;
     _contents := None; setPositionLog := [] |}.

Definition set_editor (e : option Editor) (b : t) : t :=
  mk (positionChanged b) (_editorWindow b) e (_contents b) (setPositionLog b).
Definition set_editorWindow (w : option EditorWindow.t) (b : t) : t :=
  mk (positionChanged b) w (_editor b) (_contents b) (setPositionLog b).
Definition set_contents (c : option (list nat)) (b : t) : t :=
  mk (positionChanged b) (_editorWindow b) (_editor b) c (setPositionLog b).

(** [_loadContents] *)
Definition _loadContents (contents : list nat) (b : t) : Outcome t unit :=
  match _editor b with
  | None => Throw "Editor did not open" b
  | Some editor =>
      Normal tt
        (set_editor
           (Some (forEach (fun c _ editor => addContent c editor) contents editor))
           b)
  end.

(** [_setContents], the handler of the content manager's [contentsChanged]. *)
Definition _setContents (contents : list nat) (b : t) : Outcome t unit :=
  let b := set_contents (Some contents) b in
  match _editor b with
  | Some _ => _loadContents contents b
  | None => Normal tt b
  end.

(** [openEditor].  [loaded] is what awaiting [_openEditorWindow] gives: the
    editor of the window that loaded, or the error that rejected the promise;
    [position] is what [scrollControl.getPosition()] returns.  The wait for
    the window is taken as one step. *)
Definition openEditor (loaded : string + Editor) (position : Z) (b : t)
    : Outcome t unit :=
  let reopen :=
    match loaded with
    | inl msg => Throw msg b
    | inr editor =>
        let b :=
          set_editorWindow
            (Some {| EditorWindow.closed := false;
                     EditorWindow.focusCalls := 0 |}) b in
        let b := set_editor (Some (setTime position editor)) b in
        match _contents b with
        | Some contents => _loadContents contents b
        | None => Normal tt b
        end
    end in
  match _editorWindow b with
  | Some w =>
      if negb (EditorWindow.closed w) then
        Normal tt
          (set_editorWindow
             (Some {| EditorWindow.closed := EditorWindow.closed w;
                      EditorWindow.focusCalls := S (EditorWindow.focusCalls w) |})
             b)
      else reopen
  | None => reopen
  end.

(** [closeEditor]: [positionChanged.detach(this)] takes off every handler
    bound to the bridge. *)
Definition closeEditor (b : t) : t :=
  mk false
    ((fun w => {| EditorWindow.closed := true;
                  EditorWindow.focusCalls := EditorWindow.focusCalls w |})
     <$> _editorWindow b)
    (_editor b) (_contents b) (setPositionLog b).

Definition reset (b : t) : t :=
  set_editor (reset <$> _editor b) (set_contents None b).

(** [_onSeeked] *)
Definition _onSeeked (time : Z) (b : t) : t :=
  mk (positionChanged b) (_editorWindow b) (_editor b) (_contents b)
    (setPositionLog b ++ [time]).

(** The handler [(t) => this._editor?.setTime(t)]. *)
Definition _onPositionChanged (t : Z) (b : EditorBridge.t) : EditorBridge.t :=
  set_editor (setTime t <$> _editor b) b.

(** What can happen to a bridge: calls of its public methods, the host's
    [contentsChanged] and [positionChanged] events, the editor's
    [timeChanged] callback (whose [seek] event the bridge listens to), and
    the user closing the window. *)
Inductive Call : Type :=
  | OpenEditor (loaded : string + Editor) (position : Z)
  | CloseEditor
  | Reset
  | ContentsChanged (contents : list nat)
  | PositionChanged (t : Z)
  | TimeChanged (source : TimelineEventSource) (val : Z)
  | WindowClosed.

Definition call (c : Call) (b : t) : Outcome t unit :=
  match c with
  | OpenEditor loaded position => openEditor loaded position b
  | CloseEditor => Normal tt (closeEditor b)
  | Reset => Normal tt (reset b)
  | ContentsChanged contents => _setContents contents b
  | PositionChanged t =>
      Normal tt (if positionChanged b then _onPositionChanged t b else b)
  | TimeChanged source val =>
      Normal tt
        match _editor b, _onTimeChanged source val with
        | Some _, Some time => _onSeeked time b
        | _, _ => b
        end
  | WindowClosed =>
      Normal tt
        (set_editorWindow
           ((fun w => {| EditorWindow.closed := true;
                         EditorWindow.focusCalls := EditorWindow.focusCalls w |})
            <$> _editorWindow b) b)
  end.

Fixpoint calls (cs : list Call) (b : t) : t :=
  match cs with
  | [] => b
  | c :: cs' => calls cs' (outcome_state (call c b))
  end.
End EditorBridge.

(** * Properties *)

(** ** Property lists and arrays *)

Lemma obj_get_set_eq {V} (k : string) (v : V) (o : Obj V) :
  obj_get k (obj_set k v o) = Some v.
Proof.
  induction o as [|[k' v'] o IH]; simpl.
  - by rewrite decide_True.
  - destruct (decide (k' = k)) as [->|Hne]; simpl.
    + by rewrite decide_True.
    + by rewrite decide_False.
Qed.

Lemma obj_get_set_ne {V} (k k0 : string) (v : V) (o : Obj V) :
  k0 <> k -> obj_get k0 (obj_set k v o) = obj_get k0 o.
Proof.
  intros Hne. induction o as [|[k' v'] o IH]; simpl.
  - by rewrite decide_False.
  - destruct (decide (k' = k)) as [->|Hk]; simpl.
    + by rewrite !decide_False.
    + destruct (decide (k' = k0)); [done | apply IH].
Qed.

(** Reading a key of [{ ...a, ...b }]: the entry of [b] wins.  (When [b]
    lists a key twice, its last entry is the one that is kept.) *)
Lemma obj_get_spread {V} (k : string) (a b : Obj V) :
  obj_get k (obj_spread a b)
  = match obj_get k (rev b) with Some v => Some v | None => obj_get k a end.
Proof.
  unfold obj_spread. revert a.
  induction b as [|[k' v'] b IH] using rev_ind; intros a; [done|].
  rewrite fold_left_app, rev_app_distr. simpl.
  destruct (decide (k' = k)) as [->|Hne].
  - apply obj_get_set_eq.
  - rewrite obj_get_set_ne by done. apply IH.
Qed.

Lemma obj_get_app {V} (k : string) (a b : Obj V) :
  obj_get k (a ++ b)
  = match obj_get k a with Some v => Some v | None => obj_get k b end.
Proof.
  induction a as [|[k' v'] a IH]; simpl; [done|].
  by destruct (decide (k' = k)).
Qed.

Lemma obj_get_None {V} (k : string) (o : Obj V) :
  k ∉ o.*1 -> obj_get k o = None.
Proof.
  induction o as [|[k' v'] o IH]; simpl; [done|].
  rewrite not_elem_of_cons. intros [Hne Hk].
  rewrite decide_False by done. by apply IH.
Qed.

(** In an object without a repeated key the order of the entries does not
    matter for reading. *)
Lemma obj_get_rev {V} (k : string) (o : Obj V) :
  NoDup o.*1 -> obj_get k (rev o) = obj_get k o.
Proof.
  induction o as [|[k' v'] o IH]; simpl; [done|].
  rewrite NoDup_cons. intros [Hk Hnd].
  rewrite obj_get_app, IH by done. simpl.
  destruct (decide (k' = k)) as [->|Hne].
  - by rewrite obj_get_None.
  - by destruct (obj_get k o).
Qed.

Lemma obj_get_spread_NoDup {V} (k : string) (a b : Obj V) :
  NoDup b.*1 ->
  obj_get k (obj_spread a b)
  = match obj_get k b with Some v => Some v | None => obj_get k a end.
Proof. intros Hnd. by rewrite obj_get_spread, obj_get_rev. Qed.

(** The spreads of the typed records are shallow merges by key. *)
Lemma data_spread_merged (d : IContentData.t) (p : IContentData.partial)
    (fields : Obj JsonValue) :
  views_data p fields ->
  merged_over data_get fields d (IContentData.spread d p).
Proof.
  intros [Hnd Hview] k. rewrite <- Hview.
  unfold data_get, data_partial_get, IContentData.spread. simpl.
  repeat case_decide.
  - by destruct (IContentData.p_low p).
  - by destruct (IContentData.p_high p).
  - by destruct (IContentData.p_interpolators p).
  - by apply obj_get_spread_NoDup.
Qed.

Lemma stop_spread_merged (s : InterpolationStop.t)
    (p : InterpolationStop.partial) (fields : Obj JsonValue) :
  views_stop p fields ->
  merged_over stop_get fields s (InterpolationStop.spread s p).
Proof.
  intros [Hnd Hview] k. rewrite <- Hview.
  unfold stop_get, stop_partial_get, InterpolationStop.spread. simpl.
  repeat case_decide.
  - by destruct (InterpolationStop.p_position p).
  - by destruct (InterpolationStop.p_value p).
  - by apply obj_get_spread_NoDup.
Qed.

(** The typed views of module [Json] are views of the objects they read. *)
Lemma obj_get_without (keys : list string) (k : string)
    (o : Obj JsonValue) :
  obj_get k (Json.without keys o)
  = if decide (k ∈ keys) then None else obj_get k o.
Proof.
  unfold Json.without.
  induction o as [|[k' v'] o IH]; simpl; [by case_decide|].
  rewrite filter_cons. simpl.
  destruct (decide (k' ∉ keys)) as [Hout|Hin]; simpl.
  - destruct (decide (k' = k)) as [->|Hne]; [|exact IH].
    by rewrite decide_False.
  - rewrite IH. destruct (decide (k' = k)) as [->|Hne]; [|done].
    by rewrite !decide_True by (by apply dec_stable).
Qed.

Lemma NoDup_without (keys : list string) (o : Obj JsonValue) :
  NoDup o.*1 -> NoDup (Json.without keys o).*1.
Proof.
  unfold Json.without. intros Hnd.
  eapply sublist_NoDup; [exact Hnd|].
  apply fmap_sublist, sublist_filter.
Qed.

Lemma Position_ofJson_toJson (p : Position) :
  Position_ofJson (Position_toJson p) = Some p.
Proof. by destruct p. Qed.

Lemma without_id (keys : list string) (o : Obj JsonValue) :
  (forall k, k ∈ keys -> k ∉ o.*1) -> Json.without keys o = o.
Proof.
  unfold Json.without. induction o as [|[k v] o IH]; intros H; [done|].
  rewrite filter_cons. simpl. rewrite decide_True.
  - f_equal. apply IH. intros k' Hk' Hin. apply (H k' Hk').
    simpl. apply elem_of_cons. by right.
  - intros Hk. apply (H k Hk). simpl. apply elem_of_cons. by left.
Qed.

Lemma asStop_toJson (s : InterpolationStop.t) :
  plain_stop s -> Json.asStop (stop_toJson s) = Some s.
Proof.
  destruct s as [p v r]. intros [Hp Hv]. simpl in Hp, Hv.
  unfold Json.asStop, stop_toJson. simpl.
  rewrite Position_ofJson_toJson. simpl. do 2 f_equal.
  change (Json.without ["position"; "value"]
            (("position", Position_toJson p) :: ("value", v) :: r))
    with (filter (fun entry : string * JsonValue =>
                    entry.1 ∉ ["position"; "value"])
            (("position", Position_toJson p) :: ("value", v) :: r)).
  rewrite filter_cons, decide_False
    by (intros H; apply H; simpl; apply elem_of_cons; by left).
  rewrite filter_cons, decide_False
    by (intros H; apply H; simpl; apply elem_of_cons; right;
        apply elem_of_cons; by left).
  apply without_id. intros k.
  rewrite !elem_of_cons, elem_of_nil. intros [->|[->|[]]]; done.
Qed.

Lemma asInterpolators_toJson (o : Obj (list InterpolationStop.t)) :
  plain_interpolators o ->
  Json.asInterpolators (interpolators_toJson o) = Some o.
Proof.
  intros Ho. unfold Json.asInterpolators, interpolators_toJson.
  apply mapM_fmap_Forall_Some. eapply Forall_impl; [exact Ho|].
  intros [name stops] Hstops. simpl in *.
  rewrite (mapM_fmap_Forall_Some Json.asStop stop_toJson stops); [done|].
  eapply Forall_impl; [exact Hstops|]. intros s. apply asStop_toJson.
Qed.

Lemma asContentData_views (fields : Obj JsonValue) :
  NoDup fields.*1 ->
  match obj_get "low" fields with
  | Some (JNumber _) | None => True
  | Some _ => False
  end ->
  match obj_get "high" fields with
  | Some (JNumber _) | None => True
  | Some _ => False
  end ->
  match obj_get "interpolators" fields with
  | Some v => exists o, plain_interpolators o /\ v = interpolators_toJson o
  | None => True
  end ->
  views_data (Json.asContentData (JObject fields)) fields.
Proof.
  intros Hnd Hlow Hhigh Hi. split; simpl; [by apply NoDup_without|].
  intros k. unfold data_partial_get. simpl.
  destruct (decide (k = "low")) as [->|Hk1].
  { by destruct (obj_get "low" fields) as [[]|]. }
  destruct (decide (k = "high")) as [->|Hk2].
  { by destruct (obj_get "high" fields) as [[]|]. }
  destruct (decide (k = "interpolators")) as [->|Hk3].
  { destruct (obj_get "interpolators" fields) as [v|]; [|done].
    destruct Hi as (o & Ho & ->).
    change (Some (interpolators_toJson o) ≫= Json.asInterpolators)
      with (Json.asInterpolators (interpolators_toJson o)).
    by rewrite asInterpolators_toJson. }
  rewrite obj_get_without. rewrite decide_False; [done|].
  rewrite !elem_of_cons, elem_of_nil. tauto.
Qed.

Lemma asInterpolationStop_views (fields : Obj JsonValue) :
  NoDup fields.*1 ->
  match obj_get "position" fields with
  | Some (JNumber _) | Some (JString _) | None => True
  | Some _ => False
  end ->
  views_stop (Json.asInterpolationStop (JObject fields)) fields.
Proof.
  intros Hnd Hpos. split; simpl; [by apply NoDup_without|].
  intros k. unfold stop_partial_get. simpl.
  destruct (decide (k = "position")) as [->|Hk1].
  { by destruct (obj_get "position" fields) as [[]|]. }
  destruct (decide (k = "value")) as [->|Hk2]; [done|].
  rewrite obj_get_without. rewrite decide_False; [done|].
  rewrite !elem_of_cons, elem_of_nil. tauto.
Qed.

Lemma array_get_set_eq {A} (i : nat) (x : A) (l : list (option A)) :
  array_get (array_set i x l) i = Some x.
Proof.
  unfold array_get, array_set. case_decide as Hi.
  - by rewrite list_lookup_insert_eq.
  - rewrite lookup_app_r by lia.
    rewrite lookup_app_r by (rewrite length_replicate; lia).
    rewrite length_replicate, Nat.sub_diag. done.
Qed.

Lemma array_get_set_ne {A} (i j : nat) (x : A) (l : list (option A)) :
  i <> j -> array_get (array_set i x l) j = array_get l j.
Proof.
  intros Hne. unfold array_get, array_set. case_decide as Hi.
  - by rewrite list_lookup_insert_ne.
  - destruct (decide (j < length l)%nat) as [Hj|Hj].
    + by rewrite lookup_app_l.
    + rewrite lookup_app_r by lia.
      rewrite (lookup_ge_None_2 l j) by lia.
      destruct (decide (j - length l < i - length l)%nat) as [Hlt|Hge].
      * rewrite lookup_app_l by (rewrite length_replicate; lia).
        by rewrite lookup_replicate_2.
      * rewrite lookup_app_r by (rewrite length_replicate; lia).
        rewrite length_replicate.
        destruct (j - length l - (i - length l))%nat as [|n] eqn:E; [lia|].
        done.
Qed.

(** ** Indexed loops *)

Lemma map_from_length {A B} (f : A -> nat -> B) (i : nat) (l : list A) :
  length (map_from f i l) = length l.
Proof. revert i. induction l; intros i; simpl; [done | by rewrite IHl]. Qed.

Lemma map_from_lookup {A B} (f : A -> nat -> B) (i k : nat) (l : list A) :
  map_from f i l !! k = (fun x => f x (i + k)%nat) <$> l !! k.
Proof.
  revert i k. induction l as [|x l IH]; intros i [|k]; simpl; try done.
  - by rewrite Nat.add_0_r.
  - rewrite IH. by replace (S i + k)%nat with (i + S k)%nat by lia.
Qed.

(** The decimal rendering tells numbers apart. *)
Lemma Number_toString_inj (m n : Z) :
  Number_toString m = Number_toString n -> m = n.
Proof. unfold Number_toString. apply (inj pretty). Qed.

Example Number_toString_demo :
  Number_toString 0 = "0" /\ Number_toString 1250 = "1250"
  /\ Number_toString (-37) = "-37".
Proof. split_and!; reflexivity. Qed.

(** ** Position mapping (C4) *)

(** C4. The absolute-to-relative mapping is decided by the keyframe's tag:
    on ['absolute'] it returns the keyframe's value as a number, on ['start']
    the string ["+"] followed by the decimal rendering of the value minus the
    content's low bound, on ['end'] the string ["-"] followed by the decimal
    rendering of the content's high bound minus the value; on each of these
    three tags it returns normally, and on any other tag it throws, in every
    case without changing the state. *)
Theorem absoluteToRelative_by_tag (content : IEditorContent.t) (key : TKey.t)
    (st : Editor) :
  (TKey.type key = "absolute" ->
     _absoluteToRelative content key st = Normal (PNumber (TKey.val key)) st)
  /\ (TKey.type key = "start" ->
        _absoluteToRelative content key st
        = Normal
            (PString
               ("+" +:+ Number_toString
                          (TKey.val key - IEditorContent.low content))) st)
  /\ (TKey.type key = "end" ->
        _absoluteToRelative content key st
        = Normal
            (PString
               ("-" +:+ Number_toString
                          (IEditorContent.high content - TKey.val key))) st)
  /\ (TKey.type key <> "absolute" -> TKey.type key <> "start" ->
      TKey.type key <> "end" ->
        _absoluteToRelative content key st = Throw "Unexpected type" st).
Proof.
  unfold _absoluteToRelative.
  repeat split; intros; repeat case_decide; try done; congruence.
Qed.

Lemma absoluteToRelative_by_tag_witness :
  _absoluteToRelative Demo.image (Demo.key 350 1 "end") Demo.drawn
  = Normal (PString "-50") Demo.drawn
  /\ _absoluteToRelative Demo.image (Demo.key 130 0 "start") Demo.drawn
     = Normal (PString "+30") Demo.drawn
  /\ _absoluteToRelative Demo.image (Demo.key 90 0 "start") Demo.drawn
     = Normal (PString "+-10") Demo.drawn
  /\ _absoluteToRelative Demo.image (Demo.key 130 0 "absolute") Demo.drawn
     = Normal (PNumber 130) Demo.drawn
  /\ _absoluteToRelative Demo.image (Demo.key 130 0 "relative") Demo.drawn
     = Throw "Unexpected type" Demo.drawn.
Proof.
  split_and!.
  - apply (absoluteToRelative_by_tag Demo.image (Demo.key 350 1 "end")).
    reflexivity.
  - apply (absoluteToRelative_by_tag Demo.image (Demo.key 130 0 "start")).
    reflexivity.
  - apply (absoluteToRelative_by_tag Demo.image (Demo.key 90 0 "start")).
    reflexivity.
  - apply (absoluteToRelative_by_tag Demo.image (Demo.key 130 0 "absolute")).
    reflexivity.
  - apply (absoluteToRelative_by_tag Demo.image (Demo.key 130 0 "relative"));
      vm_compute; discriminate.
Defined.

(** ** Rebuilding the rows (C1, C2) *)

Lemma set_rows_id (st : Editor) : set_rows (fun rs => rs ++ []) st = st.
Proof. destruct st. unfold set_rows. simpl. by rewrite app_nil_r. Qed.

Lemma rowFromProperty_flags (st st0 : Editor) :
  _expandedRows st = _expandedRows st0 ->
  _rowFromProperty st = _rowFromProperty st0.
Proof. intros H. unfold _rowFromProperty. by rewrite H. Qed.

Lemma set_rows_app (l1 l2 : list TRow) (st : Editor) :
  set_rows (fun rs => rs ++ l2) (set_rows (fun rs => rs ++ l1) st)
  = set_rows (fun rs => rs ++ l1 ++ l2) st.
Proof. unfold set_rows. simpl. by rewrite <- app_assoc. Qed.

Lemma redraw_properties (c : IEditorContent.t) (moduleIdx : nat)
    (l : Obj IInterpolator.t) (st st0 : Editor) :
  _expandedRows st = _expandedRows st0 ->
  fold_left
    (fun st entry =>
       push_row (RowProperty (_rowFromProperty st c moduleIdx entry.1 entry.2)) st)
    l st
  = set_rows
      (fun rs =>
         rs ++ ((fun entry =>
                   RowProperty (_rowFromProperty st0 c moduleIdx entry.1 entry.2))
                <$> l)) st.
Proof.
  revert st. induction l as [|e l IH]; intros st Hst; simpl.
  - by rewrite set_rows_id.
  - rewrite IH by done. unfold push_row. rewrite set_rows_app.
    by rewrite (rowFromProperty_flags st st0).
Qed.

Lemma redraw_contents (i : nat) (l : list nat) (st st0 : Editor) :
  store st = store st0 -> _expandedRows st = _expandedRows st0 ->
  forEach_from
    (fun content moduleIdx st =>
       let c := store st content in
       let st := push_row (RowModule (_rowFromContent c moduleIdx)) st in
       fold_left
         (fun st entry =>
            push_row
              (RowProperty (_rowFromProperty st c moduleIdx entry.1 entry.2)) st)
         (IEditorContent.getInterpolators c) st)
    i l st
  = set_rows
      (fun rs =>
         rs ++ mjoin (imap (fun j content =>
                              rows_of_content st0 (i + j) (store st0 content)) l))
      st.
Proof.
  revert i st. induction l as [|x l IH]; intros i st Hstore Hflags.
  - simpl. by rewrite set_rows_id.
  - cbn [forEach_from]. cbv zeta.
    rewrite (redraw_properties _ _ _ _ st0) by done.
    rewrite IH by done. unfold push_row. rewrite !set_rows_app.
    rewrite imap_cons, Nat.add_0_r, Hstore.
    rewrite (imap_ext
               (fun j content => rows_of_content st0 (S i + j) (store st0 content))
               ((fun j content => rows_of_content st0 (i + j) (store st0 content))
                ∘ S) l); [done|].
    intros j y _. simpl. f_equal. lia.
Qed.

(** The rows after a rebuild are the blocks of the contents, whatever the
    rows were before. *)
Lemma redrawTimeline_eq (st : Editor) :
  _redrawTimeline st = set_rows (fun _ => mjoin (row_blocks st)) st.
Proof.
  unfold _redrawTimeline, forEach. cbv zeta.
  rewrite (redraw_contents 0 (_contents st) _ st) by done. reflexivity.
Qed.

Lemma row_blocks_lookup (st : Editor) (i content : nat) :
  _contents st !! i = Some content ->
  row_blocks st !! i = Some (rows_of_content st i (store st content)).
Proof. intros H. unfold row_blocks. by rewrite list_lookup_imap, H. Qed.

Lemma elem_of_row_blocks (st : Editor) (row : TRow) :
  row ∈ mjoin (row_blocks st) ->
  exists i content,
    _contents st !! i = Some content
    /\ row ∈ rows_of_content st i (store st content).
Proof.
  rewrite list_elem_of_join. intros (block & Hrow & Hblock).
  apply elem_of_lookup_imap in Hblock as (i & content & -> & Hi). eauto.
Qed.

Lemma rows_of_content_moduleIdx (st : Editor) (i : nat) (c : IEditorContent.t) :
  Forall (fun row => Row.moduleIdx row = i) (rows_of_content st i c).
Proof.
  unfold rows_of_content. constructor; [done|].
  apply Forall_fmap, Forall_true. done.
Qed.

Lemma blocks_length {A B} (f : nat -> A -> list B) (g : A -> nat) (l : list A) :
  (forall i x, length (f i x) = S (g x)) ->
  length (mjoin (imap f l)) = (length l + sum_list_with g l)%nat.
Proof.
  revert f. induction l as [|x l IH]; intros f Hf; [done|].
  rewrite imap_cons. simpl. rewrite length_app, Hf, IH; [lia|].
  intros i y. apply Hf.
Qed.

(** C1. A redraw of the timeline rebuilds the rows from scratch from the
    content list: the new rows do not depend on the old ones and are the
    concatenation, in content-list order, of one block per content, made of
    one module row followed by one property row per entry of the content's
    interpolator map, in the map's order.  Hence the number of rows is the
    number of contents plus the total number of interpolators, and every row
    of the block of the content at index [i] has [moduleIdx = i]. *)
Theorem redrawTimeline_rows (st : Editor) :
  rows (_redrawTimeline st) = mjoin (row_blocks st)
  /\ (forall old, _redrawTimeline (set_rows (fun _ => old) st) = _redrawTimeline st)
  /\ length (row_blocks st) = length (_contents st)
  /\ (forall i content, _contents st !! i = Some content ->
        exists block,
          row_blocks st !! i = Some block
          /\ block
             = RowModule (_rowFromContent (store st content) i)
               :: ((fun entry =>
                      RowProperty
                        (_rowFromProperty st (store st content) i entry.1 entry.2))
                   <$> IEditorContent.getInterpolators (store st content))
          /\ length block
             = S (length (IEditorContent.getInterpolators (store st content)))
          /\ Forall (fun row => Row.moduleIdx row = i) block)
  /\ length (rows (_redrawTimeline st))
     = (length (_contents st)
        + sum_list_with
            (fun content =>
               length (IEditorContent.getInterpolators (store st content)))
            (_contents st))%nat.
Proof.
  split_and!.
  - by rewrite redrawTimeline_eq.
  - intros old. by rewrite !redrawTimeline_eq.
  - unfold row_blocks. by rewrite length_imap.
  - intros i content Hi. eexists. split; [by apply row_blocks_lookup|].
    split_and!.
    + done.
    + unfold rows_of_content. simpl. by rewrite length_fmap.
    + apply rows_of_content_moduleIdx.
  - rewrite redrawTimeline_eq. simpl. unfold row_blocks.
    apply blocks_length. intros i x. unfold rows_of_content. simpl.
    by rewrite length_fmap.
Qed.

Lemma redrawTimeline_rows_witness :
  length (rows (_redrawTimeline Demo.editor)) = 3%nat
  /\ Row.moduleIdx <$> rows (_redrawTimeline Demo.editor) = [0; 0; 1]%nat
  /\ Row.type <$> rows (_redrawTimeline Demo.editor)
     = ["module"; "property"; "module"]
  /\ exists block,
       row_blocks Demo.editor !! 0%nat = Some block
       /\ Forall (fun row => Row.moduleIdx row = 0%nat) block.
Proof.
  split_and!; try reflexivity.
  destruct (proj1 (proj2 (proj2 (proj2 (redrawTimeline_rows Demo.editor))))
              0%nat 0%nat eq_refl) as (block & Hblock & _ & _ & Hidx).
  exists block. split; assumption.
Defined.

Lemma rowFromContent_keyframes (content : IEditorContent.t) (moduleIdx : nat) :
  TRowModule.keyframes (_rowFromContent content moduleIdx)
  = [ {| TKey.val := IEditorContent.low content; TKey.keyIdx := 0;
         TKey.type := "absolute"; TKey.group := None |};
      {| TKey.val := IEditorContent.high content; TKey.keyIdx := 1;
         TKey.type := "absolute"; TKey.group := None |} ].
Proof. reflexivity. Qed.

Lemma rowFromProperty_keyframes (st : Editor) (content : IEditorContent.t)
    (moduleIdx : nat) (propertyName : string) (interpolator : IInterpolator.t) :
  let keyframes :=
    TRowProperty.keyframes
      (_rowFromProperty st content moduleIdx propertyName interpolator) in
  length keyframes = length (IInterpolator.getStops interpolator)
  /\ forall k s,
       IInterpolator.getStops interpolator !! k = Some s ->
       exists key,
         keyframes !! k = Some key
         /\ TKey.val key = ParsedInterpolationStop.absolutePosition s
         /\ TKey.keyIdx key = k
         /\ TKey.type key = ParsedInterpolationStop.type s.
Proof.
  simpl. unfold Array_map. split; [apply map_from_length|].
  intros k s Hs. rewrite map_from_lookup, Hs. simpl. eauto.
Qed.

(** C2. Every module row of a rebuilt timeline belongs to the content at its
    module index and carries exactly two keyframes: the first has the
    content's low bound as value and key index 0, the second the content's
    high bound and key index 1, both tagged ['absolute'].  Every property row
    belongs to an entry of the interpolator map of the content at its module
    index and carries exactly one keyframe per stop of that interpolator, in
    stop order: the keyframe at position [k] has the stop's absolute position
    as value, key index [k], and the stop's type as tag. *)
Theorem row_keyframes (st : Editor) (row : TRow) :
  row ∈ rows (_redrawTimeline st) ->
  match row with
  | RowModule m =>
      exists content k0 k1,
        _contents st !! TRowModule.moduleIdx m = Some content
        /\ TRowModule.keyframes m = [k0; k1]
        /\ TKey.val k0 = IEditorContent.low (store st content)
        /\ TKey.keyIdx k0 = 0%nat /\ TKey.type k0 = "absolute"
        /\ TKey.val k1 = IEditorContent.high (store st content)
        /\ TKey.keyIdx k1 = 1%nat /\ TKey.type k1 = "absolute"
  | RowProperty p =>
      exists content interpolator,
        _contents st !! TRowProperty.moduleIdx p = Some content
        /\ (TRowProperty.propertyName p, interpolator)
           ∈ IEditorContent.getInterpolators (store st content)
        /\ length (TRowProperty.keyframes p)
           = length (IInterpolator.getStops interpolator)
        /\ forall k s,
             IInterpolator.getStops interpolator !! k = Some s ->
             exists key,
               TRowProperty.keyframes p !! k = Some key
               /\ TKey.val key = ParsedInterpolationStop.absolutePosition s
               /\ TKey.keyIdx key = k
               /\ TKey.type key = ParsedInterpolationStop.type s
  end.
Proof.
  rewrite redrawTimeline_eq. simpl. intros Hrow.
  apply elem_of_row_blocks in Hrow as (i & content & Hi & Hrow).
  unfold rows_of_content in Hrow. apply elem_of_cons in Hrow as [->|Hrow].
  - exists content. do 2 eexists. rewrite rowFromContent_keyframes.
    split_and!; done.
  - apply list_elem_of_fmap in Hrow as ([name interpolator] & -> & Hentry).
    exists content, interpolator. simpl. split_and!; try done.
    all: apply (rowFromProperty_keyframes st (store st content) i name
                  interpolator).
Qed.

Lemma row_keyframes_witness :
  exists p,
    rows (_redrawTimeline Demo.editor) !! 1%nat = Some (RowProperty p)
    /\ exists content interpolator,
         _contents Demo.editor !! TRowProperty.moduleIdx p = Some content
         /\ (TRowProperty.propertyName p, interpolator)
            ∈ IEditorContent.getInterpolators (store Demo.editor content)
         /\ length (TRowProperty.keyframes p)
            = length (IInterpolator.getStops interpolator)
         /\ (TKey.val <$> TRowProperty.keyframes p) = [120; 350]
         /\ (TKey.type <$> TRowProperty.keyframes p) = ["absolute"; "end"].
Proof.
  eexists. split; [reflexivity|].
  pose proof (row_keyframes Demo.editor _
                (list_elem_of_lookup_2 (rows (_redrawTimeline Demo.editor))
                   1%nat _ eq_refl)) as H.
  destruct H as (content & interpolator & Hc & Hin & Hlen & _).
  exists content, interpolator. split_and!; [assumption..| |]; reflexivity.
Defined.

(** ** The outline (C7) *)

Lemma set_outline_id (st : Editor) : set_outline (fun ns => ns ++ []) st = st.
Proof. destruct st. unfold set_outline. simpl. by rewrite app_nil_r. Qed.

Lemma redraw_outline_loop (i : nat) (l : list TRow) (st : Editor) :
  forEach_from
    (fun row idx st =>
       let div := outline_node row idx in
       set_outline (fun ns => ns ++ [div]) st)
    i l st
  = set_outline
      (fun ns => ns ++ imap (fun j row => outline_node row (i + j)) l) st.
Proof.
  revert i st. induction l as [|x l IH]; intros i st.
  - simpl. by rewrite set_outline_id.
  - cbn [forEach_from]. cbv zeta. rewrite IH, imap_cons, Nat.add_0_r.
    rewrite (imap_ext (fun j row => outline_node row (S i + j))
               ((fun j row => outline_node row (i + j)) ∘ S) l).
    + unfold set_outline. simpl. by rewrite <- app_assoc.
    + intros j y _. simpl. f_equal. lia.
Qed.

Lemma redrawOutline_eq (st : Editor) :
  _redrawOutline st
  = set_outline (fun _ => imap (fun idx row => outline_node row idx) (rows st)) st.
Proof.
  unfold _redrawOutline, forEach. cbv zeta. rewrite redraw_outline_loop.
  reflexivity.
Qed.

Lemma or_string_text (label : option string) (idx : nat) :
  outline_text label idx (or_string label (Number_toString (Z.of_nat idx))).
Proof.
  unfold outline_text, or_string. split.
  - intros l -> Hl. by rewrite decide_False.
  - intros [->| ->]; [done|]. by rewrite decide_True.
Qed.

Lemma outline_node_mirrors (st : Editor) :
  outline st = imap (fun idx row => outline_node row idx) (rows st) ->
  outline_mirrors st.
Proof.
  intros Ho. unfold outline_mirrors. rewrite Ho, length_imap. split; [done|].
  intros idx row Hrow. exists (outline_node row idx).
  rewrite list_lookup_imap, Hrow. simpl. split_and!; try done.
  - apply or_string_text.
  - destruct (Row.hidden row); auto.
  - destruct (Row.hidden row); split; intros; try done.
Qed.

(** C7. After a redraw the outline holds exactly one node per timeline row,
    in row order; the text and the tooltip of the node at index [idx] are the
    row's label, or the decimal rendering of [idx] when the label is absent
    or empty; and the node is displayed (['block'] rather than ['none'])
    exactly when its row is not hidden.  This holds for the outline pass on
    any rows and for every animation frame on which the rebuild runs. *)
Theorem redrawOutline_mirrors_rows (st : Editor) :
  outline_mirrors (_redrawOutline st)
  /\ rows (_redrawOutline st) = rows st
  /\ (_dirty st = true -> outline_mirrors (_redrawLoop st)).
Proof.
  split_and!.
  - apply outline_node_mirrors. by rewrite redrawOutline_eq.
  - by rewrite redrawOutline_eq.
  - intros Hd. unfold _redrawLoop. rewrite Hd.
    apply outline_node_mirrors. by rewrite redrawOutline_eq.
Qed.

Lemma redrawOutline_mirrors_rows_witness :
  _dirty Demo.editor = true
  /\ outline_mirrors (_redrawLoop Demo.editor)
  /\ OutlineNode.innerText <$> outline (_redrawLoop Demo.editor)
     = ["image"; "opacity"; "2"]
  /\ OutlineNode.display <$> outline (_redrawLoop Demo.editor)
     = ["block"; "block"; "block"].
Proof.
  split_and!; try reflexivity.
  apply (redrawOutline_mirrors_rows Demo.editor). reflexivity.
Defined.

(** ** Expand and collapse (C5) *)

Lemma blocks_ok_any (cur : option nat) (st : Editor) (k : nat)
    (l : list nat) :
  blocks_ok cur
    (mjoin (imap (fun j content =>
                    rows_of_content st (k + j) (store st content)) l)).
Proof.
  revert k cur. induction l as [|x l IH]; intros k cur; [done|].
  rewrite imap_cons. simpl. split; [done|].
  rewrite Nat.add_0_r.
  induction (IEditorContent.getInterpolators (store st x)) as [|e es IHes].
  - simpl.
    rewrite (imap_ext _
               (fun j content => rows_of_content st (S k + j) (store st content))
               l); [apply IH|].
    intros j y _. simpl. f_equal. lia.
  - simpl. split; [done | apply IHes].
Qed.

Lemma redraw_mirrored (st : Editor) :
  let st' := _redrawLoop (_onContentsChanged st) in
  mirrored st' /\ visible_ok st'
  /\ _expandedRows st' = _expandedRows st.
Proof.
  unfold _redrawLoop, _onContentsChanged. simpl.
  rewrite redrawOutline_eq, redrawTimeline_eq. simpl.
  split; [split|split].
  - apply (blocks_ok_any None (set_dirty true st) 0).
  - simpl. by rewrite length_imap.
  - unfold visible_ok. simpl. apply Forall_forall. intros row Hrow.
    apply elem_of_row_blocks in Hrow as (i & content & _ & Hrow).
    unfold rows_of_content in Hrow. apply elem_of_cons in Hrow as [->|Hrow].
    + done.
    + apply list_elem_of_fmap in Hrow as (e & -> & _). done.
  - done.
Qed.

(** The loop of [_toggleGroup] on the rows from index [length pre] on: it
    completes, leaves the rows before it alone, and makes the visibility of
    the rows it visits agree with the flags. *)
Lemma toggle_loop (flags : list (option bool)) (l : list TRow) :
  forall (pre : list TRow) (expanded : bool) (cur : option nat) (st : Editor),
    rows st = pre ++ l ->
    length (outline st) = length (rows st) ->
    _expandedRows st = flags ->
    blocks_ok cur l ->
    (forall m, cur = Some m -> expanded = truthy (array_get flags m)) ->
    exists expanded' st' l',
      forEachM_from toggle_row (length pre) l (expanded, st)
      = Normal tt (expanded', st')
      /\ rows st' = pre ++ l'
      /\ length (outline st') = length (rows st')
      /\ _expandedRows st' = flags
      /\ store st' = store st /\ _contents st' = _contents st
      /\ Forall (row_visible_ok flags) l'
      /\ blocks_ok cur l'.
Proof.
  induction l as [|r l IH]; intros pre expanded cur st Hrows Hlen Hflags Hok Hexp.
  - exists expanded, st, []. simpl. split_and!; done.
  - destruct r as [m|p]; simpl in Hok; destruct Hok as [Hhead Hok].
    + cbn [forEachM_from toggle_row].
      destruct (IH (pre ++ [RowModule m])
                  (truthy (array_get (_expandedRows st) (TRowModule.moduleIdx m)))
                  (Some (TRowModule.moduleIdx m)) st)
        as (e' & st' & l' & Hrun & Hrows' & Hlen' & Hflags' & Hs & Hc & Hvis & Hok');
        try done.
      { by rewrite Hrows, <- app_assoc. }
      { intros m0 [= <-]. by rewrite Hflags. }
      rewrite length_app, Nat.add_1_r in Hrun.
      exists e', st', (RowModule m :: l'). rewrite Hrun.
      split_and!; try done.
      * by rewrite Hrows', <- app_assoc.
      * by constructor.
    + cbn [forEachM_from toggle_row].
      set (p' := TRowProperty.set_hidden (negb expanded) p).
      set (st1 := set_rows _ st).
      assert (Hrows1 : rows st1 = pre ++ RowProperty p' :: l).
      { subst st1. simpl. rewrite Hrows.
        rewrite alter_app_r_alt, Nat.sub_diag by lia. done. }
      assert (Hlen1 : length (outline st1) = length (rows st1)).
      { rewrite Hrows1. subst st1. simpl. rewrite Hlen, Hrows.
        by rewrite !length_app. }
      destruct (lookup_lt_is_Some_2 (outline st1) (length pre)) as [node Hnode].
      { rewrite Hlen1, Hrows1, length_app. simpl. lia. }
      rewrite Hnode.
      set (st2 := set_outline _ st1).
      destruct (IH (pre ++ [RowProperty p']) expanded cur st2)
        as (e' & st' & l' & Hrun & Hrows' & Hlen' & Hflags' & Hs & Hc & Hvis & Hok');
        try done.
      { subst st2. simpl. change (rows st1 = (pre ++ [RowProperty p']) ++ l).
        by rewrite Hrows1, <- app_assoc. }
      { subst st2. simpl. rewrite length_alter.
        change (length (outline st1) = length (rows st1)). done. }
      rewrite length_app, Nat.add_1_r in Hrun.
      exists e', st', (RowProperty p' :: l'). rewrite Hrun.
      split_and!; try done.
      * by rewrite Hrows', <- app_assoc.
      * constructor; [|done]. simpl. by rewrite (Hexp _ Hhead).
Qed.

Lemma toggleGroup_mirrored (moduleIdx : nat) (st : Editor) :
  mirrored st ->
  exists st',
    _toggleGroup moduleIdx st = Normal tt st'
    /\ mirrored st' /\ visible_ok st'
    /\ _expandedRows st'
       = array_set moduleIdx
           (negb (truthy (array_get (_expandedRows st) moduleIdx)))
           (_expandedRows st)
    /\ store st' = store st /\ _contents st' = _contents st.
Proof.
  intros [Hok Hlen]. unfold _toggleGroup, forEachM. cbv zeta.
  set (st1 := set_expandedRows _ st).
  destruct (toggle_loop (_expandedRows st1) (rows st1) [] false None st1)
    as (e' & st' & l' & Hrun & Hrows' & Hlen' & Hflags' & Hs & Hc & Hvis & Hok');
    try done.
  cbn [length] in Hrun. rewrite Hrun. exists st'.
  split_and!; try done.
  - split; [|done]. by rewrite Hrows'.
  - unfold visible_ok. by rewrite Hrows', Hflags'.
Qed.

Lemma run_mirrored (ops : list Op) (st : Editor) :
  mirrored st -> visible_ok st ->
  exists st', run ops st = Normal tt st' /\ mirrored st' /\ visible_ok st'.
Proof.
  revert st. induction ops as [|op ops IH]; intros st Hm Hv.
  - exists st. done.
  - cbn [run]. unfold mbind, M_bind. destruct op as [i|]; cbn [step].
    + destruct (toggleGroup_mirrored i st Hm) as (st' & -> & Hm' & Hv' & _).
      by apply IH.
    + unfold modify.
      destruct (redraw_mirrored st) as (Hm' & Hv' & _). by apply IH.
Qed.

(** C5. Take any editor, rebuild its rows, and then apply any sequence of
    toggles and rebuilds.  Every step completes, and in the state reached
    module rows are not hidden and every property row is hidden exactly when
    the flag of its owning module is not truthy.  A further toggle of module
    [i] completes as well, flips the flag of module [i], leaves the other
    flags alone, and again leaves the rows' visibility in agreement with the
    flags. *)
Theorem visibility_follows_flags (st0 : Editor) (ops : list Op) :
  exists st,
    run (Redraw :: ops) st0 = Normal tt st
    /\ visible_ok st
    /\ forall i,
         exists st',
           _toggleGroup i st = Normal tt st'
           /\ array_get (_expandedRows st') i
              = Some (negb (truthy (array_get (_expandedRows st) i)))
           /\ (forall j, i <> j ->
                 array_get (_expandedRows st') j = array_get (_expandedRows st) j)
           /\ visible_ok st'.
Proof.
  destruct (redraw_mirrored st0) as (Hm0 & Hv0 & _).
  destruct (run_mirrored ops _ Hm0 Hv0) as (st & Hrun & Hm & Hv).
  exists st. split_and!; [exact Hrun | exact Hv |].
  intros i.
  destruct (toggleGroup_mirrored i st Hm) as (st' & Hrun' & _ & Hv' & Hflags & _).
  exists st'. rewrite Hflags. split_and!; [done| | |done].
  - apply array_get_set_eq.
  - intros j Hj. by apply array_get_set_ne.
Qed.

Example toggle_collapses_demo :
  (outcome_state (_toggleGroup 0 Demo.drawn)).(_expandedRows) = [Some false]
  /\ Row.hidden <$> rows (outcome_state (_toggleGroup 0 Demo.drawn))
     = [false; true; false]
  /\ OutlineNode.display <$> outline (outcome_state (_toggleGroup 0 Demo.drawn))
     = ["block"; "none"; "block"]
  /\ is_normal (_toggleGroup 3 Demo.drawn) = true
  /\ (outcome_state (_toggleGroup 3 Demo.drawn)).(_expandedRows)
     = [Some true; None; None; Some true].
Proof. split_and!; reflexivity. Qed.

(** ** The content list (C8) *)

Lemma addContent_present (content : nat) (st : Editor) :
  content ∈ _contents st -> addContent content st = st.
Proof. intros H. unfold addContent. by rewrite decide_True. Qed.

Lemma addContent_adds (content : nat) (st : Editor) :
  content ∈ _contents (addContent content st).
Proof.
  unfold addContent. case_decide; [done|].
  simpl. apply elem_of_app. right. by apply list_elem_of_singleton.
Qed.

(** The content list never holds a reference twice. *)
Lemma addContent_NoDup (content : nat) (st : Editor) :
  NoDup (_contents st) -> NoDup (_contents (addContent content st)).
Proof.
  intros H. unfold addContent. case_decide as Hin; [done|]. simpl.
  apply NoDup_app. split_and!; [done | | apply NoDup_singleton].
  intros x Hx ->%list_elem_of_singleton. done.
Qed.

Lemma removeContent_NoDup (content : nat) (st : Editor) :
  NoDup (_contents st) -> NoDup (_contents (removeContent content st)).
Proof.
  intros H. unfold removeContent. destruct (indexOf _ _); [|done]. simpl.
  eapply sublist_NoDup; [done | apply sublist_delete].
Qed.

Lemma reset_NoDup (st : Editor) : NoDup (_contents (reset st)).
Proof. simpl. apply NoDup_nil_2. Qed.

(** C8. [addContent] on a content object that is already in the editor's
    content list changes nothing: the content list, the expanded flags, the
    dirty flag and the subscriptions of the content's [intervalChanged] event
    (indeed the whole state) stay as they are.  Consequently adding the same
    object twice has the effect of adding it once. *)
Theorem addContent_idempotent (content : nat) (st : Editor) :
  (content ∈ _contents st ->
     addContent content st = st
     /\ _contents (addContent content st) = _contents st
     /\ _expandedRows (addContent content st) = _expandedRows st
     /\ _dirty (addContent content st) = _dirty st
     /\ IEditorContent.intervalChanged (store (addContent content st) content)
        = IEditorContent.intervalChanged (store st content))
  /\ addContent content (addContent content st) = addContent content st.
Proof.
  split.
  - intros H. by rewrite addContent_present.
  - apply addContent_present, addContent_adds.
Qed.

Lemma addContent_idempotent_witness :
  addContent 1 Demo.drawn = Demo.drawn
  /\ _contents (addContent 7 (addContent 7 Demo.drawn)) = [0; 1; 7]%nat
  /\ IEditorContent.intervalChanged
       (store (addContent 7 (addContent 7 Demo.drawn)) 7%nat)
     = [OnContentsChanged; OnContentsChanged]
  /\ _dirty (addContent 7 Demo.drawn) = true.
Proof.
  split_and!.
  - refine (proj1 (proj1 (addContent_idempotent 1 Demo.drawn) _)).
    apply (bool_decide_unpack _). vm_compute. exact I.
  - rewrite (proj2 (addContent_idempotent 7 Demo.drawn)). reflexivity.
  - rewrite (proj2 (addContent_idempotent 7 Demo.drawn)). reflexivity.
  - reflexivity.
Defined.

(** ** Shifting the timeline (C10) *)

Lemma moved_keeps_side (value t p p' : Z) :
  moved value t p p' -> (p <= t -> p' <= t) /\ (t < p -> t <= p').
Proof. intros [H1 H2]. split; intros H; [rewrite H1 | rewrite H2]; lia. Qed.

Lemma expand_stop_moved (value t : Z) (s : InterpolationStop.t) :
  stop_moved value t s (expand_stop value t s).
Proof.
  unfold stop_moved, expand_stop.
  destruct s as [[p|x] v r]; simpl; [|done].
  case_decide; simpl; split_and!; try done;
    eexists; (split; [done|]); split; intros; try done; lia.
Qed.

Lemma expand_data_moved (value t : Z) (data : IContentData.t) :
  let data' := expand_data value t data in
  moved value t (IContentData.low data) (IContentData.low data')
  /\ moved value t (IContentData.high data) (IContentData.high data')
  /\ IContentData.rest data' = IContentData.rest data
  /\ IContentData.interpolators data'
     = (fun interpolators : Obj (list InterpolationStop.t) =>
          (fun entry : string * list InterpolationStop.t =>
             (entry.1, expand_stop value t <$> entry.2)) <$> interpolators)
       <$> IContentData.interpolators data.
Proof.
  destruct data as [low high interpolators rest]. unfold expand_data. simpl.
  repeat case_decide; destruct interpolators; simpl in *;
    split_and!; try done; unfold moved; lia.
Qed.

Lemma expand_loop (value t : Z) (l : list nat) :
  forall (i : nat) (st : Editor),
    NoDup l ->
    let st' :=
      forEach_from
        (fun c (_ : nat) st =>
           match IEditorContent.getData (store st c) with
           | None => st
           | Some data =>
               on_content c
                 (IEditorContent.setData (expand_data value t data)) st
           end) i l st in
    forall c,
      store st' c
      = if decide (c ∈ l) then
          match IEditorContent.getData (store st c) with
          | None => store st c
          | Some data =>
              IEditorContent.setData (expand_data value t data) (store st c)
          end
        else store st c.
Proof.
  induction l as [|x l IH]; intros i st Hnd; cbn [forEach_from]; intros c.
  - by rewrite decide_False by apply not_elem_of_nil.
  - apply NoDup_cons in Hnd as [Hx Hnd]. rewrite (IH _ _ Hnd).
    destruct (decide (c = x)) as [->|Hne].
    + rewrite (decide_False (P := x ∈ l)) by done.
      rewrite (decide_True (P := x ∈ x :: l)) by (apply elem_of_cons; by left).
      destruct (IEditorContent.getData (store st x)); [|done].
      unfold on_content. simpl. by rewrite fn_lookup_insert.
    + assert (Hst : forall d,
                store (on_content x (IEditorContent.setData d) st) c = store st c).
      { intros d. unfold on_content. simpl. by rewrite fn_lookup_insert_ne. }
      destruct (decide (c ∈ l)) as [Hin|Hnin].
      * rewrite (decide_True (P := c ∈ x :: l)) by (apply elem_of_cons; by right).
        destruct (IEditorContent.getData (store st x)); by rewrite ?Hst.
      * rewrite (decide_False (P := c ∈ x :: l)).
        -- destruct (IEditorContent.getData (store st x)); by rewrite ?Hst.
        -- intros [?|?]%elem_of_cons; done.
Qed.

(** C10. In an editor whose content list holds no reference twice, take a
    content of the list whose data is present.  After [_expandTimeline value]
    its data is present and, with [t] the timeline's current time: the low
    bound, the high bound and every numeric stop position [p] with [t < p]
    have become [max (p + value) t]; those with [p <= t] are unchanged; string
    (relative) stop positions are unchanged; nothing else in the data has
    changed, and the interpolators keep their names, their order and the
    number and order of their stops. *)
Theorem expandTimeline_markers (value : Z) (st : Editor) (content : nat)
    (data : IContentData.t) :
  NoDup (_contents st) ->
  content ∈ _contents st ->
  IEditorContent.getData (store st content) = Some data ->
  exists data',
    IEditorContent.getData (store (_expandTimeline value st) content) = Some data'
    /\ moved value (time st) (IContentData.low data) (IContentData.low data')
    /\ moved value (time st) (IContentData.high data) (IContentData.high data')
    /\ IContentData.rest data' = IContentData.rest data
    /\ match IContentData.interpolators data with
       | None => IContentData.interpolators data' = None
       | Some interpolators =>
           exists interpolators',
             IContentData.interpolators data' = Some interpolators'
             /\ length interpolators' = length interpolators
             /\ forall n name stops,
                  interpolators !! n = Some (name, stops) ->
                  exists stops',
                    interpolators' !! n = Some (name, stops')
                    /\ length stops' = length stops
                    /\ forall k s,
                         stops !! k = Some s ->
                         exists s',
                           stops' !! k = Some s'
                           /\ stop_moved value (time st) s s'
       end.
Proof.
  intros Hnd Hin Hdata. unfold _expandTimeline, forEach. cbv zeta.
  rewrite (expand_loop value (time st) (_contents st) 0 st Hnd content).
  rewrite decide_True, Hdata by done. simpl.
  exists (expand_data value (time st) data).
  destruct (expand_data_moved value (time st) data) as (Hlow & Hhigh & Hrest & Hi).
  split_and!; try done.
  rewrite Hi. destruct (IContentData.interpolators data) as [ints|]; [|done].
  simpl. eexists. split; [done|]. split; [by rewrite length_fmap|].
  intros n name stops Hn. exists (expand_stop value (time st) <$> stops).
  rewrite list_lookup_fmap, Hn. simpl. split; [done|].
  split; [by rewrite length_fmap|].
  intros k s Hk. exists (expand_stop value (time st) s).
  rewrite list_lookup_fmap, Hk. split; [done | apply expand_stop_moved].
Qed.

Lemma expandTimeline_markers_witness :
  exists data',
    IEditorContent.getData (store (_expandTimeline (-100) Demo.drawn) 0%nat)
    = Some data'
    /\ IContentData.low data' = 100
    /\ IContentData.high data' = 300
    /\ IContentData.interpolators data'
       = Some [("opacity",
                [InterpolationStop.set_position (PNumber 110) Demo.stop0;
                 Demo.stop1])].
Proof.
  assert (Hnd : NoDup (_contents Demo.drawn)).
  { apply (bool_decide_unpack _). vm_compute. exact I. }
  assert (Hin : 0%nat ∈ _contents Demo.drawn).
  { apply (bool_decide_unpack _). vm_compute. exact I. }
  destruct (expandTimeline_markers (-100) Demo.drawn 0 Demo.data Hnd Hin eq_refl)
    as (data' & Hdata & _).
  exists data'. split; [exact Hdata|].
  vm_compute in Hdata. injection Hdata as <-. split_and!; reflexivity.
Defined.

(** ** Writing edits back (C3, C6, C9) *)

Section BridgeProperties.

Variable JSON_parse : string -> string + JsonValue.
Variable asContentData : JsonValue -> IContentData.partial.
Variable asInterpolationStop : JsonValue -> InterpolationStop.partial.
Variable JSON_stringify : IContentData.t -> string.
Variable JSON_stringify_data : option IContentData.t -> string.
Variable JSON_stringify_stop : InterpolationStop.partial -> string.

Lemma getContent_found (moduleIdx content : nat) (st : Editor) :
  _contents st !! moduleIdx = Some content ->
  _getContent moduleIdx st = Normal content st.
Proof. intros H. unfold _getContent. by rewrite H. Qed.

Lemma onModuleClicked_found (row : TRow) (content : nat) (st : Editor) :
  _contents st !! Row.moduleIdx row = Some content ->
  _onModuleClicked JSON_stringify_data row st
  = Normal tt
      (_updateHandler (row, None)
         (_editContentData JSON_stringify_data (store st content) st)).
Proof.
  intros H. unfold _onModuleClicked, mbind, M_bind.
  by rewrite (getContent_found _ content).
Qed.

Lemma onPropertyKeyframeClicked_found (row : TRowProperty.t) (key : TKey.t)
    (content : nat) (st : Editor) :
  _contents st !! TRowProperty.moduleIdx row = Some content ->
  _onPropertyKeyframeClicked JSON_stringify_stop row key st
  = Normal tt
      (_updateHandler (RowProperty row, Some key)
         (_editKeyframeData JSON_stringify_stop (store st content)
            (TRowProperty.propertyName row) key st)).
Proof.
  intros H. unfold _onPropertyKeyframeClicked, mbind, M_bind.
  by rewrite (getContent_found _ content).
Qed.

Lemma updateModuleKeyframePosition_found (row : TRow) (key : TKey.t)
    (content : nat) (data : IContentData.t) (st : Editor) :
  _contents st !! Row.moduleIdx row = Some content ->
  IEditorContent.getData (store st content) = Some data ->
  let data' :=
    if decide (TKey.keyIdx key = 0%nat)
    then IContentData.set_low (TKey.val key) data
    else IContentData.set_high (TKey.val key) data in
  let st1 := on_content content (IEditorContent.setData data') st in
  _updateModuleKeyframePosition JSON_stringify_data row key st
  = Normal tt
      (_updateHandler (row, None)
         (_editContentData JSON_stringify_data (store st1 content) st1)).
Proof.
  intros Hc Hd. cbv zeta.
  unfold _updateModuleKeyframePosition, mbind, M_bind.
  rewrite (getContent_found _ content) by done.
  unfold gets. rewrite Hd. unfold modify.
  by rewrite (onModuleClicked_found _ content).
Qed.

Lemma updatePropertyKeyframePosition_found (row : TRowProperty.t)
    (key : TKey.t) (content : nat) (data : IContentData.t)
    (interpolators : Obj (list InterpolationStop.t))
    (stops : list InterpolationStop.t) (s : InterpolationStop.t)
    (position : Position) (st : Editor) :
  _contents st !! TRowProperty.moduleIdx row = Some content ->
  IEditorContent.getData (store st content) = Some data ->
  IContentData.interpolators data = Some interpolators ->
  obj_get (TRowProperty.propertyName row) interpolators = Some stops ->
  stops !! TKey.keyIdx key = Some s ->
  _absoluteToRelative (store st content) key st = Normal position st ->
  let data' :=
    IContentData.set_interpolators
      (Some
         (obj_set (TRowProperty.propertyName row)
            (<[TKey.keyIdx key := InterpolationStop.set_position position s]>
               stops) interpolators)) data in
  let st1 := on_content content (IEditorContent.setData data') st in
  _updatePropertyKeyframePosition JSON_stringify_stop row key st
  = Normal tt
      (_updateHandler (RowProperty row, Some key)
         (_editKeyframeData JSON_stringify_stop (store st1 content)
            (TRowProperty.propertyName row) key st1)).
Proof.
  intros Hc Hd Hi Hp Hs Hrel. cbv zeta.
  unfold _updatePropertyKeyframePosition, mbind at 1 2, M_bind.
  rewrite (getContent_found _ content) by done.
  unfold gets. rewrite Hd, Hi. simpl. rewrite Hp.
  destruct stops as [|s0 stops]; [done|].
  unfold mbind, M_bind. rewrite Hrel, Hs. unfold modify.
  by rewrite (onPropertyKeyframeClicked_found _ _ content).
Qed.

(** C3. Processing a dragged element writes to the data of the content the
    element's row points at (the content present at the row's module index,
    with its data present).  For a module row the keyframe's value is
    written to the data's [low] when the keyframe's index is 0 and to its
    [high] otherwise, and nothing else in the data changes.  For a property
    row whose named interpolator has a stop at the keyframe's index, the
    data afterwards has, under the same name, a list of stops of the same
    length in which the stop at the keyframe's index has the
    relative-converted value of the keyframe as its position (the keyframe's
    value itself for an absolute keyframe, the signed text of its offset
    from the content's [low] resp. [high] for a start resp. end keyframe)
    and the old stop's value and further keys, and every other stop is the
    old one; nothing else in the data changes.  An element without a row or
    without a keyframe (so without a module index or a keyframe index)
    makes the processing throw with nothing written at all. *)
Theorem processDragElement_writes (e : TimelineElementDragState.t)
    (st : Editor) :
  (forall m key content data,
     TimelineElementDragState.row e = Some (RowModule m) ->
     TimelineElementDragState.keyframe e = Some key ->
     _contents st !! TRowModule.moduleIdx m = Some content ->
     IEditorContent.getData (store st content) = Some data ->
     exists st' data',
       _processDragElement JSON_stringify_data JSON_stringify_stop e st
       = Normal tt st'
       /\ IEditorContent.getData (store st' content) = Some data'
       /\ (TKey.keyIdx key = 0%nat ->
             IContentData.low data' = TKey.val key
             /\ IContentData.high data' = IContentData.high data)
       /\ (TKey.keyIdx key <> 0%nat ->
             IContentData.high data' = TKey.val key
             /\ IContentData.low data' = IContentData.low data)
       /\ IContentData.interpolators data' = IContentData.interpolators data
       /\ IContentData.rest data' = IContentData.rest data)
  /\ (forall p key content data interpolators stops s position,
        TimelineElementDragState.row e = Some (RowProperty p) ->
        TimelineElementDragState.keyframe e = Some key ->
        _contents st !! TRowProperty.moduleIdx p = Some content ->
        IEditorContent.getData (store st content) = Some data ->
        IContentData.interpolators data = Some interpolators ->
        obj_get (TRowProperty.propertyName p) interpolators = Some stops ->
        stops !! TKey.keyIdx key = Some s ->
        _absoluteToRelative (store st content) key st = Normal position st ->
        exists st' data' interpolators' stops' s',
          _processDragElement JSON_stringify_data JSON_stringify_stop e st
          = Normal tt st'
          /\ IEditorContent.getData (store st' content) = Some data'
          /\ IContentData.interpolators data' = Some interpolators'
          /\ obj_get (TRowProperty.propertyName p) interpolators'
             = Some stops'
          /\ length stops' = length stops
          /\ stops' !! TKey.keyIdx key = Some s'
          /\ InterpolationStop.position s' = position
          /\ (TKey.type key = "absolute" ->
                InterpolationStop.position s' = PNumber (TKey.val key))
          /\ (TKey.type key = "start" ->
                InterpolationStop.position s'
                = PString
                    ("+" +:+ Number_toString
                               (TKey.val key
                                - IEditorContent.low (store st content))))
          /\ (TKey.type key = "end" ->
                InterpolationStop.position s'
                = PString
                    ("-" +:+ Number_toString
                               (IEditorContent.high (store st content)
                                - TKey.val key)))
          /\ InterpolationStop.value s' = InterpolationStop.value s
          /\ InterpolationStop.rest s' = InterpolationStop.rest s
          /\ (forall j, j <> TKey.keyIdx key -> stops' !! j = stops !! j)
          /\ (forall name, name <> TRowProperty.propertyName p ->
                obj_get name interpolators' = obj_get name interpolators)
          /\ IContentData.low data' = IContentData.low data
          /\ IContentData.high data' = IContentData.high data
          /\ IContentData.rest data' = IContentData.rest data)
  /\ (TimelineElementDragState.row e = None
      \/ TimelineElementDragState.keyframe e = None ->
        _processDragElement JSON_stringify_data JSON_stringify_stop e st
        = Throw "Unexpected" st).
Proof.
  split_and!.
  - intros m key content data Hrow Hkey Hc Hd.
    unfold _processDragElement. rewrite Hrow, Hkey.
    rewrite (updateModuleKeyframePosition_found _ _ content data) by done.
    do 2 eexists. split; [done|]. simpl. rewrite fn_lookup_insert. simpl.
    split; [done|]. case_decide; split_and!; done.
  - intros p key content data interpolators stops s position
      Hrow Hkey Hc Hd Hi Hp Hs Hrel.
    unfold _processDragElement. rewrite Hrow, Hkey.
    rewrite (updatePropertyKeyframePosition_found _ _ content data
               interpolators stops s position) by done.
    eexists _, _, _,
      (<[TKey.keyIdx key := InterpolationStop.set_position position s]> stops),
      (InterpolationStop.set_position position s).
    split; [done|]. simpl. rewrite fn_lookup_insert. simpl.
    assert (TKey.keyIdx key < length stops)%nat as Hlt
      by (by eapply lookup_lt_Some).
    split_and!; try done.
    + apply obj_get_set_eq.
    + by rewrite length_insert.
    + by apply list_lookup_insert_eq.
    + intros Ht. revert Hrel. unfold _absoluteToRelative.
      rewrite decide_True by done. by intros [= <-].
    + intros Ht. revert Hrel. unfold _absoluteToRelative.
      rewrite decide_False by (by rewrite Ht).
      rewrite decide_True by done. by intros [= <-].
    + intros Ht. revert Hrel. unfold _absoluteToRelative.
      rewrite decide_False by (by rewrite Ht).
      rewrite decide_False by (by rewrite Ht).
      rewrite decide_True by done. by intros [= <-].
    + intros j Hj. apply list_lookup_insert_ne. congruence.
    + intros name Hname. by apply obj_get_set_ne.
  - unfold _processDragElement. intros [-> | ->]; [done|].
    by destruct (TimelineElementDragState.row e).
Qed.

Lemma updateModuleData_changed (content : nat) (partial : IContentData.partial)
    (data : IContentData.t) (st : Editor) :
  IEditorContent.getData (store st content) = Some data ->
  JSON_stringify (IContentData.spread data partial) <> JSON_stringify data ->
  _updateModuleData JSON_stringify content partial st
  = Normal tt
      (on_content content
         (IEditorContent.setData (IContentData.spread data partial)) st).
Proof.
  intros Hd Hne. unfold _updateModuleData, mbind, M_bind, gets.
  rewrite Hd. by rewrite decide_False.
Qed.

Lemma updateModuleData_same (content : nat) (partial : IContentData.partial)
    (data : IContentData.t) (st : Editor) :
  IEditorContent.getData (store st content) = Some data ->
  JSON_stringify (IContentData.spread data partial) = JSON_stringify data ->
  _updateModuleData JSON_stringify content partial st = Normal tt st.
Proof.
  intros Hd He. unfold _updateModuleData, mbind, M_bind, gets.
  rewrite Hd. by rewrite decide_True.
Qed.

Lemma updateKeyframeData_found (content : nat) (propertyName : string)
    (keyIdx : nat) (newData : InterpolationStop.partial)
    (data : IContentData.t) (interpolators : Obj (list InterpolationStop.t))
    (stops : list InterpolationStop.t) (s : InterpolationStop.t)
    (st : Editor) :
  IEditorContent.getData (store st content) = Some data ->
  IContentData.interpolators data = Some interpolators ->
  obj_get propertyName interpolators = Some stops ->
  stops !! keyIdx = Some s ->
  _updateKeyframeData content propertyName keyIdx newData st
  = Normal tt
      (on_content content
         (IEditorContent.setData
            (IContentData.set_interpolators
               (Some
                  (obj_set propertyName
                     (<[keyIdx := InterpolationStop.spread s newData]> stops)
                     interpolators)) data)) st).
Proof.
  intros Hd Hi Hp Hs. unfold _updateKeyframeData, mbind at 1, M_bind, gets.
  rewrite Hd, Hi. simpl. by rewrite Hp, Hs.
Qed.

(** C9. A module edit that changes nothing is a no-op: when the content's
    data is present and the shallow merge of the submitted partial data over
    it serialises to the same JSON text as the data itself,
    [_updateModuleData] returns normally without calling the content's
    [setData]; the content (its data and its log of [setData] calls) and
    the whole state are untouched. *)
Theorem updateModuleData_noop (content : nat) (partial : IContentData.partial)
    (data : IContentData.t) (st : Editor) :
  IEditorContent.getData (store st content) = Some data ->
  JSON_stringify (IContentData.spread data partial) = JSON_stringify data ->
  _updateModuleData JSON_stringify content partial st = Normal tt st
  /\ IEditorContent.setDataLog
       (store
          (outcome_state
             (_updateModuleData JSON_stringify content partial st)) content)
     = IEditorContent.setDataLog (store st content).
Proof.
  intros Hd He. by rewrite (updateModuleData_same _ _ data).
Qed.

(** C6. Submitting the JSON editor's text for a row that targets a content
    of the list.  If the text is not valid JSON, the parser's message is
    shown in the error box and nothing else changes; in particular no
    content's data is touched.  If the text parses and the row is a module
    row whose content has data, the parsed object is shallow-merged over
    that data and the result becomes the content's data: under every key the
    new data has the parsed object's value, and the old data's value for the
    keys the parsed object does not have (when the merge serialises like the
    data itself nothing is written, so in either case the data then
    serialises as the merge does).  If the text parses and the row is a
    property row submitted with a keyframe, and the named interpolator of
    the content's data has a stop at the keyframe's index, the parsed object
    is shallow-merged, in the same sense, over that stop; the other stops
    and everything else in the data stay as they are.  The casts of the
    parsed object are views of it ([views_data], [views_stop]). *)
Theorem onJsonChanged_submits (row : TRow) (key : option TKey.t)
    (content : nat) (st : Editor) :
  _contents st !! Row.moduleIdx row = Some content ->
  let submit :=
    _onJsonChanged JSON_parse asContentData asInterpolationStop
      JSON_stringify row key st in
  (forall message,
     JSON_parse (textarea st) = inl message ->
     submit = Normal tt (set_errorMsg message st)
     /\ errorMsg (outcome_state submit) = message
     /\ store (outcome_state submit) = store st)
  /\ (forall newData m data,
        JSON_parse (textarea st) = inr newData ->
        row = RowModule m ->
        IEditorContent.getData (store st content) = Some data ->
        let merged := IContentData.spread data (asContentData newData) in
        exists st' data',
          submit = Normal tt st'
          /\ errorMsg st' = EmptyString
          /\ IEditorContent.getData (store st' content) = Some data'
          /\ JSON_stringify data' = JSON_stringify merged
          /\ (JSON_stringify merged <> JSON_stringify data -> data' = merged)
          /\ (JSON_stringify merged = JSON_stringify data ->
                store st' = store st)
          /\ (forall fields,
                newData = JObject fields ->
                views_data (asContentData newData) fields ->
                (forall k,
                   data_get k merged
                   = match obj_get k fields with
                     | Some v => Some v
                     | None => data_get k data
                     end)
                /\ (JSON_stringify merged <> JSON_stringify data ->
                      forall k,
                        data_get k data'
                        = match obj_get k fields with
                          | Some v => Some v
                          | None => data_get k data
                          end)))
  /\ (forall newData p k data interpolators stops s,
        JSON_parse (textarea st) = inr newData ->
        row = RowProperty p ->
        key = Some k ->
        IEditorContent.getData (store st content) = Some data ->
        IContentData.interpolators data = Some interpolators ->
        obj_get (TRowProperty.propertyName p) interpolators = Some stops ->
        stops !! TKey.keyIdx k = Some s ->
        exists st' data' interpolators' stops' s',
          submit = Normal tt st'
          /\ errorMsg st' = EmptyString
          /\ IEditorContent.getData (store st' content) = Some data'
          /\ IContentData.interpolators data' = Some interpolators'
          /\ obj_get (TRowProperty.propertyName p) interpolators'
             = Some stops'
          /\ length stops' = length stops
          /\ stops' !! TKey.keyIdx k = Some s'
          /\ s' = InterpolationStop.spread s (asInterpolationStop newData)
          /\ (forall fields,
                newData = JObject fields ->
                views_stop (asInterpolationStop newData) fields ->
                forall name,
                  stop_get name s'
                  = match obj_get name fields with
                    | Some v => Some v
                    | None => stop_get name s
                    end)
          /\ (forall j, j <> TKey.keyIdx k -> stops' !! j = stops !! j)
          /\ (forall name, name <> TRowProperty.propertyName p ->
                obj_get name interpolators' = obj_get name interpolators)
          /\ IContentData.low data' = IContentData.low data
          /\ IContentData.high data' = IContentData.high data
          /\ IContentData.rest data' = IContentData.rest data).
Proof.
  intros Hc. cbv zeta. unfold _onJsonChanged, mbind, M_bind.
  rewrite (getContent_found _ content) by done.
  unfold modify, gets. simpl. split_and!.
  - intros message ->. done.
  - intros newData m data -> -> Hd. unfold unawaited.
    destruct (decide (JSON_stringify
                        (IContentData.spread data (asContentData newData))
                      = JSON_stringify data)) as [He|Hne].
    + rewrite (updateModuleData_same _ _ data) by done.
      exists (set_errorMsg EmptyString st), data. simpl.
      split_and!; try done.
      intros fields -> Hview. split; [|done].
      by apply data_spread_merged.
    + rewrite (updateModuleData_changed _ _ data) by done.
      do 2 eexists. split; [done|]. simpl. rewrite fn_lookup_insert.
      split_and!; try done.
      intros fields -> Hview.
      split; [|intros _]; by apply data_spread_merged.
  - intros newData p k data interpolators stops s -> -> -> Hd Hi Hp Hs.
    unfold unawaited.
    rewrite (updateKeyframeData_found _ _ _ _ data interpolators stops s)
      by done.
    eexists _, _, _,
      (<[TKey.keyIdx k :=
           InterpolationStop.spread s (asInterpolationStop newData)]> stops),
      _.
    split; [done|]. simpl. rewrite fn_lookup_insert. simpl.
    assert (TKey.keyIdx k < length stops)%nat as Hlt
      by (by eapply lookup_lt_Some).
    split_and!; try done.
    + apply obj_get_set_eq.
    + by rewrite length_insert.
    + by apply list_lookup_insert_eq.
    + intros fields -> Hview. by apply stop_spread_merged.
    + intros j Hj. apply list_lookup_insert_ne. congruence.
    + intros name Hname. by apply obj_get_set_ne.
Qed.

End BridgeProperties.

(** ** The statements on the demo editor *)

Lemma processDragElement_writes_witness :
  (exists st' data',
     _processDragElement Demo.stringify_data Demo.stringify_stop
       {| TimelineElementDragState.row := Some Demo.moduleRow;
          TimelineElementDragState.keyframe := Some (Demo.key 90 0 "absolute") |}
       Demo.drawn = Normal tt st'
     /\ IEditorContent.getData (store st' 0%nat) = Some data'
     /\ IContentData.low data' = 90 /\ IContentData.high data' = 400)
  /\ (exists st' data',
        _processDragElement Demo.stringify_data Demo.stringify_stop
          {| TimelineElementDragState.row := Some (RowProperty Demo.propertyRow);
             TimelineElementDragState.keyframe := Some (Demo.key 300 1 "end") |}
          Demo.drawn = Normal tt st'
        /\ IEditorContent.getData (store st' 0%nat) = Some data'
        /\ IContentData.interpolators data'
           = Some [("opacity",
                    [ Demo.stop0;
                      {| InterpolationStop.position := PString "-100";
                         InterpolationStop.value := JNumber 1;
                         InterpolationStop.rest :=
                           [("easing", JString "linear")] |} ])])
  /\ _processDragElement Demo.stringify_data Demo.stringify_stop
       {| TimelineElementDragState.row := Some Demo.moduleRow;
          TimelineElementDragState.keyframe := None |} Demo.drawn
     = Throw "Unexpected" Demo.drawn.
Proof.
  split_and!.
  - destruct (proj1 (processDragElement_writes Demo.stringify_data
                       Demo.stringify_stop
                       {| TimelineElementDragState.row := Some Demo.moduleRow;
                          TimelineElementDragState.keyframe :=
                            Some (Demo.key 90 0 "absolute") |} Demo.drawn)
                _ _ 0%nat Demo.data eq_refl eq_refl eq_refl eq_refl)
      as (st' & data' & Hrun & Hdata & Hlow & _).
    exists st', data'. split; [exact Hrun|]. split; [exact Hdata|].
    destruct (Hlow eq_refl) as [-> ->]. split; reflexivity.
  - destruct (proj1 (proj2 (processDragElement_writes Demo.stringify_data
                       Demo.stringify_stop
                       {| TimelineElementDragState.row :=
                            Some (RowProperty Demo.propertyRow);
                          TimelineElementDragState.keyframe :=
                            Some (Demo.key 300 1 "end") |} Demo.drawn))
                _ _ 0%nat Demo.data _ _ Demo.stop1 (PString "-100")
                eq_refl eq_refl eq_refl eq_refl eq_refl eq_refl eq_refl eq_refl)
      as (st' & data' & interpolators' & stops' & s' & Hrun & Hdata & _).
    exists st', data'. split; [exact Hrun|]. split; [exact Hdata|].
    pose proof (f_equal outcome_state Hrun) as Hst. simpl in Hst. subst st'.
    vm_compute in Hdata. injection Hdata as <-. reflexivity.
  - apply (processDragElement_writes Demo.stringify_data Demo.stringify_stop
             {| TimelineElementDragState.row := Some Demo.moduleRow;
                TimelineElementDragState.keyframe := None |} Demo.drawn).
    right. reflexivity.
Defined.

Lemma updateModuleData_noop_witness :
  _updateModuleData Demo.stringify 0 (Demo.asContentData (JObject [])) Demo.drawn
  = Normal tt Demo.drawn.
Proof.
  exact (proj1 (updateModuleData_noop Demo.stringify 0
                  (Demo.asContentData (JObject [])) Demo.data Demo.drawn
                  eq_refl eq_refl)).
Defined.

Lemma onJsonChanged_submits_witness :
  _onJsonChanged Json.parse Json.asContentData Json.asInterpolationStop
    Demo.stringify Demo.moduleRow None Demo.drawn
  = Normal tt (set_errorMsg "Unexpected end of JSON input" Demo.drawn)
  /\ (exists st' data',
        _onJsonChanged Json.parse Json.asContentData Json.asInterpolationStop
          Demo.stringify Demo.moduleRow None
          (set_textarea Json.moduleText Demo.drawn)
        = Normal tt st'
        /\ IEditorContent.getData (store st' 0%nat) = Some data'
        /\ data'
           = {| IContentData.low := 90; IContentData.high := 400;
                IContentData.interpolators :=
                  Some [("opacity", [Demo.stop0; Demo.stop1])];
                IContentData.rest :=
                  [("type", JString "image"); ("note", JBool true)] |}
        /\ data_get "low" data' = Some (JNumber 90)
        /\ data_get "note" data' = Some (JBool true)
        /\ data_get "high" data' = Some (JNumber 400)
        /\ data_get "type" data' = Some (JString "image"))
  /\ (exists st' data',
        _onJsonChanged Json.parse Json.asContentData Json.asInterpolationStop
          Demo.stringify (RowProperty Demo.propertyRow)
          (Some (Demo.key 350 1 "end"))
          (set_textarea Json.stopText Demo.drawn)
        = Normal tt st'
        /\ IEditorContent.getData (store st' 0%nat) = Some data'
        /\ data'
           = {| IContentData.low := 100; IContentData.high := 400;
                IContentData.interpolators :=
                  Some [("opacity",
                         [ Demo.stop0;
                           {| InterpolationStop.position := PString "-50";
                              InterpolationStop.value := JNumber 7;
                              InterpolationStop.rest :=
                                [("easing", JNull)] |} ])];
                IContentData.rest := [("type", JString "image")] |}).
Proof.
  split_and!.
  - exact (proj1 (proj1 (onJsonChanged_submits Json.parse Json.asContentData
                    Json.asInterpolationStop Demo.stringify Demo.moduleRow None
                    0%nat Demo.drawn eq_refl) _ eq_refl)).
  - destruct (proj1 (proj2 (onJsonChanged_submits Json.parse Json.asContentData
                    Json.asInterpolationStop Demo.stringify Demo.moduleRow None
                    0%nat (set_textarea Json.moduleText Demo.drawn) eq_refl))
                _ _ Demo.data eq_refl eq_refl eq_refl)
      as (st' & data' & Hrun & _ & Hdata & _ & Hwritten & _ & Hkeys).
    assert (Demo.stringify
              (IContentData.spread Demo.data
                 (Json.asContentData (JObject Json.moduleFields)))
            <> Demo.stringify Demo.data) as Hne
      by (vm_compute; discriminate).
    assert (views_data (Json.asContentData (JObject Json.moduleFields))
              Json.moduleFields) as Hview.
    { apply asContentData_views; [|exact I..].
      apply (bool_decide_unpack _). vm_compute. exact I. }
    destruct (Hkeys _ eq_refl Hview) as [_ Hnew].
    specialize (Hnew Hne).
    exists st', data'. split; [exact Hrun|]. split; [exact Hdata|].
    split; [exact (Hwritten Hne)|].
    split_and!; [apply (Hnew "low") | apply (Hnew "note")
                | apply (Hnew "high") | apply (Hnew "type")].
  - destruct (proj2 (proj2 (onJsonChanged_submits Json.parse Json.asContentData
                    Json.asInterpolationStop Demo.stringify
                    (RowProperty Demo.propertyRow)
                    (Some (Demo.key 350 1 "end"))
                    0%nat (set_textarea Json.stopText Demo.drawn) eq_refl))
                _ _ _ Demo.data _ _ Demo.stop1
                eq_refl eq_refl eq_refl eq_refl eq_refl eq_refl eq_refl)
      as (st' & data' & interpolators' & stops' & s' & Hrun & _ & Hdata & _).
    exists st', data'. split; [exact Hrun|]. split; [exact Hdata|].
    pose proof (f_equal outcome_state Hrun) as Hst. simpl in Hst. subst st'.
    vm_compute in Hdata. injection Hdata as <-. reflexivity.
Defined.


(** * Further properties of the editor *)

(** ** The content list *)

Lemma indexOf_None (x : nat) (l : list nat) : indexOf x l = None -> x ∉ l.
Proof.
  induction l as [|y l IH]; simpl; [intros _; apply not_elem_of_nil|].
  case_decide as Hy; [done|]. destruct (indexOf x l); [done|]. intros _.
  apply not_elem_of_cons. split; [congruence | by apply IH].
Qed.

Lemma indexOf_Some (x : nat) (l : list nat) (i : nat) :
  indexOf x l = Some i -> l !! i = Some x /\ x ∉ take i l.
Proof.
  revert i. induction l as [|y l IH]; intros i; simpl; [done|].
  case_decide as Hy.
  - intros [= <-]. subst. split; [done | apply not_elem_of_nil].
  - destruct (indexOf x l) as [j|]; [|done]. intros [= <-].
    destruct (IH j eq_refl) as [Hj Hnin]. split; [done|]. simpl.
    apply not_elem_of_cons. split; [congruence | done].
Qed.

Lemma indexOf_snoc (x : nat) (l : list nat) :
  x ∉ l -> indexOf x (l ++ [x]) = Some (length l).
Proof.
  induction l as [|y l IH]; simpl; intros Hx.
  - by rewrite decide_True.
  - apply not_elem_of_cons in Hx as [Hne Hx].
    rewrite decide_False by congruence. by rewrite IH.
Qed.

Lemma delete_last {A} (l : list A) (x : A) : delete (length l) (l ++ [x]) = l.
Proof. rewrite delete_middle. apply app_nil_r. Qed.

(** X1. [removeContent].  A content that is not in the list is left alone.  In a
    list without repetitions, a content that is in it is taken out: it is no
    longer in the list, the contents before it keep their index and those
    after it move down by one, and so do their expanded flags; the content's
    subscription is gone, the other content objects are untouched, the dirty
    flag is set, and the rows and the outline stay as they were until the
    next frame. *)
Theorem removeContent_removes (content : nat) (st : Editor) :
  (content ∉ _contents st -> removeContent content st = st)
  /\ (NoDup (_contents st) -> content ∈ _contents st ->
      exists idx,
        _contents st !! idx = Some content
        /\ (content ∉ _contents (removeContent content st))
        /\ (forall j,
              _contents (removeContent content st) !! j
              = _contents st !! (if decide (j < idx)%nat then j else S j))
        /\ (forall j,
              array_get (_expandedRows (removeContent content st)) j
              = array_get (_expandedRows st)
                  (if decide (j < idx)%nat then j else S j))
        /\ _dirty (removeContent content st) = true
        /\ (OnContentsChanged
            ∉ IEditorContent.intervalChanged
                (store (removeContent content st) content))
        /\ (forall c, c <> content ->
              store (removeContent content st) c = store st c)
        /\ rows (removeContent content st) = rows st
        /\ outline (removeContent content st) = outline st).
Proof.
  split.
  - intros Hnin. unfold removeContent.
    destruct (indexOf content (_contents st)) as [i|] eqn:E; [|done].
    apply indexOf_Some in E as [Hi _].
    destruct Hnin. by eapply list_elem_of_lookup_2.
  - intros Hnd Hin. unfold removeContent.
    destruct (indexOf content (_contents st)) as [idx|] eqn:E.
    2: { by apply indexOf_None in E. }
    apply indexOf_Some in E as [Hidx _]. exists idx. simpl.
    split_and!; try done.
    + rewrite <- (take_drop_middle _ _ _ Hidx) in Hnd |- *.
      assert (Hlen : length (take idx (_contents st)) = idx).
      { apply length_take_le. apply lookup_lt_Some in Hidx. lia. }
      rewrite <- Hlen at 1. rewrite delete_middle.
      apply NoDup_app in Hnd as (_ & Hl & Hr).
      apply NoDup_cons in Hr as [Hr _].
      intros [H|H]%elem_of_app; [|done].
      apply (Hl _ H). apply elem_of_cons. by left.
    + intros j. case_decide.
      * by apply list_lookup_delete_lt.
      * apply list_lookup_delete_ge. lia.
    + intros j. unfold array_get. case_decide.
      * by rewrite list_lookup_delete_lt.
      * rewrite list_lookup_delete_ge by lia. done.
    + rewrite fn_lookup_insert. simpl.
      intros [Hne _]%list_elem_of_filter. done.
    + intros c Hc. by rewrite fn_lookup_insert_ne.
Qed.

Lemma removeContent_removes_witness :
  _contents (removeContent 0 Demo.drawn) = [1%nat]
  /\ (0%nat ∉ _contents (removeContent 0 Demo.drawn))
  /\ _expandedRows (removeContent 0 Demo.drawn) = []
  /\ length (rows (removeContent 0 Demo.drawn)) = 3%nat
  /\ removeContent 5 Demo.drawn = Demo.drawn.
Proof.
  assert (Hnd : NoDup (_contents Demo.drawn)).
  { apply (bool_decide_unpack _). vm_compute. exact I. }
  assert (Hin : 0%nat ∈ _contents Demo.drawn).
  { apply (bool_decide_unpack _). vm_compute. exact I. }
  destruct (proj2 (removeContent_removes 0 Demo.drawn) Hnd Hin)
    as (idx & _ & Hgone & _).
  split_and!; [reflexivity | exact Hgone | reflexivity | reflexivity |].
  apply (proj1 (removeContent_removes 5 Demo.drawn)).
  apply (bool_decide_unpack _). vm_compute. exact I.
Defined.

(** X2. Adding a content that is not in the list and removing it again restores
    the content list.  The flags lose the entry at the position the content
    had, if there was one (a flag set for an index past the contents), and
    are otherwise restored; the dirty flag is set. *)
Theorem addContent_removeContent (content : nat) (st : Editor) :
  content ∉ _contents st ->
  _contents (removeContent content (addContent content st)) = _contents st
  /\ _expandedRows (removeContent content (addContent content st))
     = delete (length (_contents st)) (_expandedRows st)
  /\ ((length (_expandedRows st) <= length (_contents st))%nat ->
        _expandedRows (removeContent content (addContent content st))
        = _expandedRows st)
  /\ _dirty (removeContent content (addContent content st)) = true
  /\ rows (removeContent content (addContent content st)) = rows st.
Proof.
  intros Hnin. unfold addContent. rewrite decide_False by done.
  unfold removeContent. simpl. rewrite indexOf_snoc by done. simpl.
  rewrite delete_last. split_and!; try done.
  intros Hlen. apply list_eq. intros j.
  destruct (decide (j < length (_contents st))%nat).
  - by rewrite list_lookup_delete_lt.
  - rewrite list_lookup_delete_ge by lia.
    by rewrite !lookup_ge_None_2 by lia.
Qed.

Lemma addContent_removeContent_witness :
  _contents (removeContent 7 (addContent 7 Demo.drawn)) = [0; 1]%nat
  /\ _expandedRows (removeContent 7 (addContent 7 Demo.drawn)) = [Some true]
  /\ _expandedRows
       (removeContent 7
          (addContent 7 (outcome_state (_toggleGroup 2 Demo.drawn))))
     = [Some true; None].
Proof.
  assert (Hnin : 7%nat ∉ _contents Demo.drawn).
  { apply (bool_decide_unpack _). vm_compute. exact I. }
  destruct (addContent_removeContent 7 Demo.drawn Hnin) as (Hc & _ & Hf & _).
  split_and!; [exact Hc | apply Hf; vm_compute; lia | reflexivity].
Defined.

(** ** Adding and removing keyframes *)

Lemma obj_set_set {V} (k : string) (v v' : V) (o : Obj V) :
  obj_set k v (obj_set k v' o) = obj_set k v o.
Proof.
  induction o as [|[k0 v0] o IH]; simpl.
  - by rewrite decide_True.
  - destruct (decide (k0 = k)) as [->|Hne]; simpl.
    + by rewrite decide_True.
    + rewrite decide_False by done. by rewrite IH.
Qed.

Lemma obj_set_get_id {V} (k : string) (v : V) (o : Obj V) :
  obj_get k o = Some v -> obj_set k v o = o.
Proof.
  induction o as [|[k0 v0] o IH]; simpl; [done|].
  destruct (decide (k0 = k)) as [->|Hne].
  - by intros [= ->].
  - intros H. by rewrite IH.
Qed.

Lemma set_interpolators_id (data : IContentData.t)
    (interpolators : Obj (list InterpolationStop.t)) :
  IContentData.interpolators data = Some interpolators ->
  IContentData.set_interpolators (Some interpolators) data = data.
Proof. destruct data. simpl. by intros ->. Qed.

Lemma addKeyframe_found (moduleIdx : nat) (propertyName : string)
    (key : InterpolationStop.t) (content : nat) (data : IContentData.t)
    (st : Editor) :
  _contents st !! moduleIdx = Some content ->
  IEditorContent.getData (store st content) = Some data ->
  let interpolators := default [] (IContentData.interpolators data) in
  let old := default [] (obj_get propertyName interpolators) in
  _addKeyframe moduleIdx propertyName key st
  = Normal tt
      (on_content content
         (IEditorContent.setData
            (IContentData.set_interpolators
               (Some (obj_set propertyName (old ++ [key]) interpolators))
               data)) st).
Proof.
  intros Hc Hd. cbv zeta. unfold _addKeyframe, mbind, M_bind.
  rewrite (getContent_found _ content) by done. unfold gets. rewrite Hd.
  unfold modify. do 5 f_equal.
  destruct (IContentData.interpolators data) as [ints|]; simpl.
  - destruct (obj_get propertyName ints) eqn:E; simpl; [by rewrite E|].
    by rewrite obj_get_set_eq, obj_set_set.
  - by destruct (decide (propertyName = propertyName)).
Qed.

Lemma removeKeyframe_found (moduleIdx : nat) (propertyName : string)
    (keyIdx : nat) (content : nat) (data : IContentData.t)
    (interpolators : Obj (list InterpolationStop.t))
    (stops : list InterpolationStop.t) (st : Editor) :
  _contents st !! moduleIdx = Some content ->
  IEditorContent.getData (store st content) = Some data ->
  IContentData.interpolators data = Some interpolators ->
  obj_get propertyName interpolators = Some stops ->
  stops <> [] ->
  _removeKeyframe moduleIdx propertyName keyIdx st
  = Normal tt
      (on_content content
         (IEditorContent.setData
            (IContentData.set_interpolators
               (Some (obj_set propertyName (delete keyIdx stops) interpolators))
               data)) st).
Proof.
  intros Hc Hd Hi Hp Hne. unfold _removeKeyframe, mbind at 1 2, M_bind.
  rewrite (getContent_found _ content) by done. unfold gets. rewrite Hd, Hi.
  simpl. rewrite Hp. by destruct stops.
Qed.

(** X3. [_addKeyframe] on a content of the list whose data is present appends the
    key to the stops of the named property, creating the record of
    interpolators and the property when they are missing; the other
    properties and the rest of the data are unchanged, and [setData] is
    called once.  On a module index without content, or a content without
    data, it throws and writes nothing. *)
Theorem addKeyframe_appends (moduleIdx : nat) (propertyName : string)
    (key : InterpolationStop.t) (st : Editor) :
  (forall content data,
     _contents st !! moduleIdx = Some content ->
     IEditorContent.getData (store st content) = Some data ->
     exists st' data' interpolators',
       _addKeyframe moduleIdx propertyName key st = Normal tt st'
       /\ IEditorContent.getData (store st' content) = Some data'
       /\ IContentData.interpolators data' = Some interpolators'
       /\ obj_get propertyName interpolators'
          = Some (default []
                    (IContentData.interpolators data ≫= obj_get propertyName)
                  ++ [key])
       /\ (forall name, name <> propertyName ->
             obj_get name interpolators'
             = IContentData.interpolators data ≫= obj_get name)
       /\ IContentData.low data' = IContentData.low data
       /\ IContentData.high data' = IContentData.high data
       /\ IContentData.rest data' = IContentData.rest data
       /\ IEditorContent.setDataLog (store st' content)
          = IEditorContent.setDataLog (store st content) ++ [data'])
  /\ (_contents st !! moduleIdx = None ->
        _addKeyframe moduleIdx propertyName key st
        = Throw "Content not found" st)
  /\ (forall content,
        _contents st !! moduleIdx = Some content ->
        IEditorContent.getData (store st content) = None ->
        _addKeyframe moduleIdx propertyName key st
        = Throw "Module data not yet present" st).
Proof.
  split_and!.
  - intros content data Hc Hd.
    rewrite (addKeyframe_found _ _ _ content data) by done.
    do 3 eexists. split; [done|]. simpl. rewrite fn_lookup_insert. simpl.
    split_and!; try done.
    + rewrite obj_get_set_eq.
      by destruct (IContentData.interpolators data).
    + intros name Hname. rewrite obj_get_set_ne by done.
      by destruct (IContentData.interpolators data).
  - intros Hc. unfold _addKeyframe, mbind, M_bind, _getContent. by rewrite Hc.
  - intros content Hc Hd. unfold _addKeyframe, mbind, M_bind.
    rewrite (getContent_found _ content) by done. unfold gets. by rewrite Hd.
Qed.

Lemma addKeyframe_appends_witness :
  exists st' data',
    _addKeyframe 0 "opacity" Demo.stop1 Demo.drawn = Normal tt st'
    /\ IEditorContent.getData (store st' 0%nat) = Some data'
    /\ IContentData.interpolators data'
       = Some [("opacity", [Demo.stop0; Demo.stop1; Demo.stop1])].
Proof.
  destruct (proj1 (addKeyframe_appends 0 "opacity" Demo.stop1 Demo.drawn)
              0%nat Demo.data eq_refl eq_refl)
    as (st' & data' & ints & Hrun & Hdata & _).
  exists st', data'. split; [exact Hrun|]. split; [exact Hdata|].
  pose proof (f_equal outcome_state Hrun) as Hst. simpl in Hst. subst st'.
  vm_compute in Hdata. injection Hdata as <-. reflexivity.
Defined.

(** X4. [_removeKeyframe] on a content of the list whose data has stops for the
    named property takes out the stop at [keyIdx]: the stops before it keep
    their index, those after it move down by one, and an index past the end
    removes nothing (the data is handed to [setData] all the same).  The
    other properties and the rest of the data are unchanged.  When the data
    has no such property, or the property has no stops, it throws and writes
    nothing. *)
Theorem removeKeyframe_removes (moduleIdx : nat) (propertyName : string)
    (keyIdx : nat) (content : nat) (data : IContentData.t) (st : Editor) :
  _contents st !! moduleIdx = Some content ->
  IEditorContent.getData (store st content) = Some data ->
  (forall interpolators stops,
     IContentData.interpolators data = Some interpolators ->
     obj_get propertyName interpolators = Some stops ->
     stops <> [] ->
     exists st' data' interpolators' stops',
       _removeKeyframe moduleIdx propertyName keyIdx st = Normal tt st'
       /\ IEditorContent.getData (store st' content) = Some data'
       /\ IContentData.interpolators data' = Some interpolators'
       /\ obj_get propertyName interpolators' = Some stops'
       /\ (forall j,
             stops' !! j
             = stops !! (if decide (j < keyIdx)%nat then j else S j))
       /\ ((length stops <= keyIdx)%nat -> stops' = stops)
       /\ (forall name, name <> propertyName ->
             obj_get name interpolators' = obj_get name interpolators)
       /\ IContentData.low data' = IContentData.low data
       /\ IContentData.high data' = IContentData.high data
       /\ IContentData.rest data' = IContentData.rest data
       /\ IEditorContent.setDataLog (store st' content)
          = IEditorContent.setDataLog (store st content) ++ [data'])
  /\ (IContentData.interpolators data ≫= obj_get propertyName = None
      \/ IContentData.interpolators data ≫= obj_get propertyName = Some [] ->
        _removeKeyframe moduleIdx propertyName keyIdx st
        = Throw ("Property not found: " +:+ propertyName) st).
Proof.
  intros Hc Hd. split.
  - intros interpolators stops Hi Hp Hne.
    rewrite (removeKeyframe_found _ _ _ content data interpolators stops)
      by done.
    eexists. eexists.
    exists (obj_set propertyName (delete keyIdx stops) interpolators).
    exists (delete keyIdx stops).
    split; [done|]. simpl. rewrite fn_lookup_insert. simpl.
    split_and!; try done.
    + apply obj_get_set_eq.
    + intros j. case_decide.
      * by apply list_lookup_delete_lt.
      * apply list_lookup_delete_ge. lia.
    + intros Hlen. apply list_eq. intros j.
      destruct (decide (j < keyIdx)%nat).
      * by rewrite list_lookup_delete_lt.
      * rewrite list_lookup_delete_ge by lia.
        by rewrite !lookup_ge_None_2 by lia.
    + intros name Hname. by apply obj_get_set_ne.
  - intros Hp. unfold _removeKeyframe, mbind at 1 2, M_bind.
    rewrite (getContent_found _ content) by done. unfold gets. rewrite Hd.
    destruct (IContentData.interpolators data) as [ints|]; simpl in *.
    + by destruct Hp as [-> | ->].
    + done.
Qed.

Lemma removeKeyframe_removes_witness :
  (exists st' data',
     _removeKeyframe 0 "opacity" 0 Demo.drawn = Normal tt st'
     /\ IEditorContent.getData (store st' 0%nat) = Some data'
     /\ IContentData.interpolators data' = Some [("opacity", [Demo.stop1])])
  /\ _removeKeyframe 0 "scale" 0 Demo.drawn
     = Throw "Property not found: scale" Demo.drawn.
Proof.
  destruct (removeKeyframe_removes 0 "opacity" 0 0 Demo.data Demo.drawn
              eq_refl eq_refl) as [Hfound _].
  destruct (removeKeyframe_removes 0 "scale" 0 0 Demo.data Demo.drawn
              eq_refl eq_refl) as [_ Hmissing].
  split.
  - destruct (Hfound _ [Demo.stop0; Demo.stop1] eq_refl eq_refl)
      as (st' & data' & ints & stops' & Hrun & Hdata & _); [discriminate|].
    exists st', data'. split; [exact Hrun|]. split; [exact Hdata|].
    pose proof (f_equal outcome_state Hrun) as Hst. simpl in Hst. subst st'.
    vm_compute in Hdata. injection Hdata as <-. reflexivity.
  - apply Hmissing. left. reflexivity.
Defined.

(** X5. Adding a keyframe to a property that the data already has and removing
    the keyframe at the index it got restores the content's data exactly;
    [setData] has then been called twice.  For a property the data did not
    have, the round trip leaves the property behind with no stops. *)
Theorem addKeyframe_removeKeyframe (moduleIdx : nat) (propertyName : string)
    (key : InterpolationStop.t) (content : nat) (data : IContentData.t)
    (st : Editor) :
  _contents st !! moduleIdx = Some content ->
  IEditorContent.getData (store st content) = Some data ->
  let old := default [] (IContentData.interpolators data ≫= obj_get propertyName) in
  exists st1 st2 data2 interpolators2,
    _addKeyframe moduleIdx propertyName key st = Normal tt st1
    /\ _removeKeyframe moduleIdx propertyName (length old) st1 = Normal tt st2
    /\ IEditorContent.getData (store st2 content) = Some data2
    /\ IContentData.interpolators data2 = Some interpolators2
    /\ obj_get propertyName interpolators2 = Some old
    /\ (is_Some (IContentData.interpolators data ≫= obj_get propertyName) ->
          data2 = data)
    /\ length (IEditorContent.setDataLog (store st2 content))
       = S (S (length (IEditorContent.setDataLog (store st content)))).
Proof.
  intros Hc Hd. cbv zeta.
  rewrite (addKeyframe_found _ _ _ content data) by done. cbv zeta.
  set (ints := default [] (IContentData.interpolators data)).
  assert (Hold : IContentData.interpolators data ≫= obj_get propertyName
                 = obj_get propertyName ints).
  { subst ints. by destruct (IContentData.interpolators data). }
  rewrite Hold.
  set (old := default [] (obj_get propertyName ints)).
  set (data1 := IContentData.set_interpolators _ data).
  set (st1 := on_content content _ st).
  assert (Hrm := removeKeyframe_found moduleIdx propertyName (length old)
                   content data1
                   (obj_set propertyName (old ++ [key]) ints)
                   (old ++ [key]) st1).
  rewrite delete_last, obj_set_set in Hrm.
  exists st1. eexists. exists (IContentData.set_interpolators
                                 (Some (obj_set propertyName old ints)) data1).
  exists (obj_set propertyName old ints).
  split; [done|]. split.
  { apply Hrm; try done.
    - subst st1. simpl. by rewrite fn_lookup_insert.
    - apply obj_get_set_eq.
    - by destruct old. }
  simpl. rewrite fn_lookup_insert. simpl. rewrite fn_lookup_insert. simpl.
  split_and!; try done.
  - apply obj_get_set_eq.
  - intros [stops Hstops]. subst old. rewrite Hstops. simpl.
    rewrite obj_set_get_id by done.
    assert (IContentData.interpolators data = Some ints) as Hi.
    { subst ints. destruct (IContentData.interpolators data); [done|].
      simpl in Hstops. done. }
    subst data1. destruct data. simpl in *. by rewrite Hi.
  - rewrite !length_app. simpl. lia.
Qed.

Lemma addKeyframe_removeKeyframe_witness :
  exists st1 st2,
    _addKeyframe 0 "opacity" Demo.stop1 Demo.drawn = Normal tt st1
    /\ _removeKeyframe 0 "opacity" 2 st1 = Normal tt st2
    /\ IEditorContent.getData (store st2 0%nat) = Some Demo.data.
Proof.
  destruct (addKeyframe_removeKeyframe 0 "opacity" Demo.stop1 0 Demo.data
              Demo.drawn eq_refl eq_refl)
    as (st1 & st2 & data2 & ints2 & Hadd & Hrm & Hdata & _ & _ & Hsame & _).
  exists st1, st2. split; [exact Hadd|]. split; [exact Hrm|].
  rewrite Hdata. f_equal. apply Hsame. eexists. reflexivity.
Defined.

(** ** What the handlers leave alone *)

Lemma same_view_refl (st : Editor) : same_view st st.
Proof. by repeat split. Qed.

Lemma same_view_trans (st1 st2 st3 : Editor) :
  same_view st1 st2 -> same_view st2 st3 -> same_view st1 st3.
Proof.
  unfold same_view. intros (?&?&?&?&?&?) (?&?&?&?&?&?).
  split_and!; congruence.
Qed.

Lemma pv_ret {A} (a : A) : preserves_view (mret a : M A).
Proof. intros st. apply same_view_refl. Qed.

Lemma pv_throw {A} (msg : string) : preserves_view (throw msg : M A).
Proof. intros st. apply same_view_refl. Qed.

Lemma pv_gets {A} (f : Editor -> A) : preserves_view (gets f).
Proof. intros st. apply same_view_refl. Qed.

Lemma pv_modify (f : Editor -> Editor) :
  (forall st, same_view st (f st)) -> preserves_view (modify f).
Proof. intros H st. apply H. Qed.

Lemma pv_bind {A B} (m : M A) (f : A -> M B) :
  preserves_view m -> (forall a, preserves_view (f a)) ->
  preserves_view (m ≫= f).
Proof.
  intros Hm Hf st. unfold mbind, M_bind. specialize (Hm st).
  destruct (m st) as [a st'|msg st']; simpl in *; [|done].
  eapply same_view_trans; [exact Hm | apply Hf].
Qed.

Lemma pv_unawaited (m : M unit) : preserves_view m -> preserves_view (unawaited m).
Proof. intros Hm st. apply Hm. Qed.

Lemma pv_forEachM {A} (f : A -> nat -> Editor -> Outcome Editor unit)
    (l : list A) :
  (forall x i, preserves_view (f x i)) -> preserves_view (forEachM f l).
Proof.
  intros Hf. unfold forEachM. generalize 0%nat.
  induction l as [|x l IH]; intros i st; simpl; [apply same_view_refl|].
  specialize (Hf x i st). destruct (f x i st) as [[] st'|msg st']; simpl in *.
  - eapply same_view_trans; [exact Hf | apply IH].
  - done.
Qed.

Lemma pv_getContent (moduleIdx : nat) : preserves_view (_getContent moduleIdx).
Proof.
  intros st. unfold _getContent.
  destruct (_contents st !! moduleIdx); apply same_view_refl.
Qed.

Lemma pv_absoluteToRelative (c : IEditorContent.t) (key : TKey.t) :
  preserves_view (_absoluteToRelative c key).
Proof.
  intros st. unfold _absoluteToRelative.
  repeat case_decide; apply same_view_refl.
Qed.

Lemma ps_ret {A} (a : A) : preserves_store (mret a : M A).
Proof. done. Qed.

Lemma ps_throw {A} (msg : string) : preserves_store (throw msg : M A).
Proof. done. Qed.

Lemma ps_gets {A} (f : Editor -> A) : preserves_store (gets f).
Proof. done. Qed.

Lemma ps_modify (f : Editor -> Editor) :
  (forall st, store (f st) = store st) -> preserves_store (modify f).
Proof. intros H st. apply H. Qed.

Lemma ps_bind {A B} (m : M A) (f : A -> M B) :
  preserves_store m -> (forall a, preserves_store (f a)) ->
  preserves_store (m ≫= f).
Proof.
  intros Hm Hf st. unfold mbind, M_bind. specialize (Hm st).
  destruct (m st) as [a st'|msg st']; simpl in *; [|done].
  by rewrite Hf.
Qed.

Lemma ps_getContent (moduleIdx : nat) : preserves_store (_getContent moduleIdx).
Proof. intros st. unfold _getContent. by destruct (_contents st !! moduleIdx). Qed.

(** Structural steps shared by the proofs below. *)
Ltac pv_step :=
  lazymatch goal with
  | |- preserves_view (mret _) => apply pv_ret
  | |- preserves_view (throw _) => apply pv_throw
  | |- preserves_view (gets _) => apply pv_gets
  | |- preserves_view (_getContent _) => apply pv_getContent
  | |- preserves_view (_absoluteToRelative _ _) => apply pv_absoluteToRelative
  | |- preserves_view (unawaited _) => apply pv_unawaited
  | |- preserves_view (modify _) => apply pv_modify; intros ?; by repeat split
  | |- preserves_view (_ ≫= _) => apply pv_bind; [|intros ?]
  | |- preserves_view (forEachM _ _) => apply pv_forEachM; intros ? ?
  | |- preserves_view (match ?x with _ => _ end) => destruct x
  end.

Ltac ps_step :=
  lazymatch goal with
  | |- preserves_store (mret _) => apply ps_ret
  | |- preserves_store (throw _) => apply ps_throw
  | |- preserves_store (gets _) => apply ps_gets
  | |- preserves_store (_getContent _) => apply ps_getContent
  | |- preserves_store (modify _) => apply ps_modify; intros ?; reflexivity
  | |- preserves_store (_ ≫= _) => apply ps_bind; [|intros ?]
  | |- preserves_store (match ?x with _ => _ end) => destruct x
  end.

Section HandlerProperties.

Variable JSON_parse : string -> string + JsonValue.
Variable asContentData : JsonValue -> IContentData.partial.
Variable asInterpolationStop : JsonValue -> InterpolationStop.partial.
Variable JSON_stringify : IContentData.t -> string.
Variable JSON_stringify_data : option IContentData.t -> string.
Variable JSON_stringify_stop : InterpolationStop.partial -> string.

Lemma pv_onModuleClicked (row : TRow) :
  preserves_view (_onModuleClicked JSON_stringify_data row).
Proof. unfold _onModuleClicked. repeat pv_step. Qed.

Lemma pv_onPropertyKeyframeClicked (row : TRowProperty.t) (key : TKey.t) :
  preserves_view (_onPropertyKeyframeClicked JSON_stringify_stop row key).
Proof. unfold _onPropertyKeyframeClicked. repeat pv_step. Qed.

Lemma pv_processDragElement (e : TimelineElementDragState.t) :
  preserves_view
    (_processDragElement JSON_stringify_data JSON_stringify_stop e).
Proof.
  unfold _processDragElement, _updateModuleKeyframePosition,
    _updatePropertyKeyframePosition.
  repeat first [ apply pv_onModuleClicked | apply pv_onPropertyKeyframeClicked
               | pv_step ].
Qed.

Lemma pv_addKeyframe (moduleIdx : nat) (propertyName : string)
    (key : InterpolationStop.t) :
  preserves_view (_addKeyframe moduleIdx propertyName key).
Proof. unfold _addKeyframe. repeat pv_step. Qed.

Lemma pv_removeKeyframe (moduleIdx : nat) (propertyName : string)
    (keyIdx : nat) :
  preserves_view (_removeKeyframe moduleIdx propertyName keyIdx).
Proof. unfold _removeKeyframe. repeat pv_step. Qed.

Lemma pv_onMouseDown (d : TimelineClickEvent.t) :
  preserves_view (_onMouseDown JSON_stringify_data JSON_stringify_stop d).
Proof.
  unfold _onMouseDown.
  repeat first [ apply pv_onModuleClicked | apply pv_onPropertyKeyframeClicked
               | apply pv_addKeyframe | apply pv_removeKeyframe | pv_step ].
Qed.

Lemma pv_onJsonChanged (row : TRow) (key : option TKey.t) :
  preserves_view
    (_onJsonChanged JSON_parse asContentData asInterpolationStop
       JSON_stringify row key).
Proof.
  unfold _onJsonChanged, _updateModuleData, _updateKeyframeData.
  repeat pv_step.
Qed.

Lemma ps_onModuleClicked (row : TRow) :
  preserves_store (_onModuleClicked JSON_stringify_data row).
Proof. unfold _onModuleClicked. repeat ps_step. Qed.

Lemma ps_onPropertyKeyframeClicked (row : TRowProperty.t) (key : TKey.t) :
  preserves_store (_onPropertyKeyframeClicked JSON_stringify_stop row key).
Proof. unfold _onPropertyKeyframeClicked. repeat ps_step. Qed.

Lemma errorMsg_onModuleClicked (row : TRow) (st : Editor) :
  errorMsg (outcome_state (_onModuleClicked JSON_stringify_data row st))
  = errorMsg st.
Proof.
  unfold _onModuleClicked, mbind, M_bind, _getContent.
  by destruct (_contents st !! Row.moduleIdx row).
Qed.

Lemma errorMsg_onPropertyKeyframeClicked (row : TRowProperty.t) (key : TKey.t)
    (st : Editor) :
  errorMsg
    (outcome_state (_onPropertyKeyframeClicked JSON_stringify_stop row key st))
  = errorMsg st.
Proof.
  unfold _onPropertyKeyframeClicked, mbind, M_bind, _getContent.
  by destruct (_contents st !! TRowProperty.moduleIdx row).
Qed.

(** X6. A mouse-down without the alt key writes to no content object and leaves
    the content list, the flags, the rows, the outline, the dirty flag, the
    time and the error box alone, whatever it hits and whether or not it
    throws: it can only change the text box and the installed handler. *)
Theorem mouseDown_without_alt (d : TimelineClickEvent.t) (st : Editor) :
  TimelineClickEvent.altKey d = false ->
  store
    (outcome_state
       (_onMouseDown JSON_stringify_data JSON_stringify_stop d st))
  = store st
  /\ same_view st
       (outcome_state
          (_onMouseDown JSON_stringify_data JSON_stringify_stop d st))
  /\ errorMsg
       (outcome_state
          (_onMouseDown JSON_stringify_data JSON_stringify_stop d st))
     = errorMsg st.
Proof.
  intros Halt. split_and!.
  - revert st. change (preserves_store
                         (_onMouseDown JSON_stringify_data JSON_stringify_stop d)).
    unfold _onMouseDown. rewrite Halt.
    repeat first [ apply ps_onModuleClicked | apply ps_onPropertyKeyframeClicked
                 | ps_step ].
  - apply pv_onMouseDown.
  - unfold _onMouseDown. rewrite Halt.
    destruct (TimelineClickEvent.target d) as [t|].
    + unfold mbind, M_bind.
      destruct (TimelineElement.row t) as [[m|p]|]; [| |done].
      * destruct (bool_decide _ || _).
        -- pose proof (errorMsg_onModuleClicked (RowModule m) st) as H.
           destruct (_onModuleClicked _ _ st) as [[] st'|]; [|done].
           simpl in *. by destruct (TimelineElement.keyframe t).
        -- simpl. by destruct (TimelineElement.keyframe t).
      * simpl. destruct (TimelineElement.keyframe t) as [k|]; [|done].
        apply errorMsg_onPropertyKeyframeClicked.
    + destruct (TimelineClickEvent.elements d) as [|e ?]; [done|].
      by destruct (TimelineElement.row e) as [[]|].
Qed.

End HandlerProperties.

Lemma mouseDown_without_alt_witness :
  store
    (outcome_state
       (_onMouseDown Demo.stringify_data Demo.stringify_stop
          {| TimelineClickEvent.target :=
               Some {| TimelineElement.row := Some Demo.moduleRow;
                       TimelineElement.keyframe := Some (Demo.key 100 0 "absolute");
                       TimelineElement.group := None |};
             TimelineClickEvent.elements := [];
             TimelineClickEvent.altKey := false;
             TimelineClickEvent.val := 100 |} Demo.drawn))
  = store Demo.drawn
  /\ textarea
       (outcome_state
          (_onMouseDown Demo.stringify_data Demo.stringify_stop
             {| TimelineClickEvent.target :=
                  Some {| TimelineElement.row := Some Demo.moduleRow;
                          TimelineElement.keyframe :=
                            Some (Demo.key 100 0 "absolute");
                          TimelineElement.group := None |};
                TimelineClickEvent.elements := [];
                TimelineClickEvent.altKey := false;
                TimelineClickEvent.val := 100 |} Demo.drawn))
     = "100,400".
Proof.
  split; [|reflexivity].
  apply (mouseDown_without_alt Demo.stringify_data Demo.stringify_stop).
  reflexivity.
Defined.

(** X7. With the alt key held, a mouse-down edits keyframes.  On an empty part of
    a property row (no target, the first element on a property row) of a
    content with data, a stop with the clicked time as position and value 0
    is appended to the property's stops.  On a keyframe of a property row
    whose property has stops in the data, the stop at the keyframe's index is
    removed.  Neither touches the text box or the installed handler. *)
Theorem mouseDown_with_alt (JSON_stringify_data : option IContentData.t -> string)
    (JSON_stringify_stop : InterpolationStop.partial -> string)
    (d : TimelineClickEvent.t) (p : TRowProperty.t) (content : nat)
    (data : IContentData.t) (st : Editor) :
  TimelineClickEvent.altKey d = true ->
  _contents st !! TRowProperty.moduleIdx p = Some content ->
  IEditorContent.getData (store st content) = Some data ->
  (forall e es,
     TimelineClickEvent.target d = None ->
     TimelineClickEvent.elements d = e :: es ->
     TimelineElement.row e = Some (RowProperty p) ->
     exists st' data' interpolators',
       _onMouseDown JSON_stringify_data JSON_stringify_stop d st = Normal tt st'
       /\ IEditorContent.getData (store st' content) = Some data'
       /\ IContentData.interpolators data' = Some interpolators'
       /\ obj_get (TRowProperty.propertyName p) interpolators'
          = Some (default []
                    (IContentData.interpolators data
                     ≫= obj_get (TRowProperty.propertyName p))
                  ++ [ {| InterpolationStop.position :=
                            PNumber (TimelineClickEvent.val d);
                          InterpolationStop.value := JNumber 0;
                          InterpolationStop.rest := [] |} ])
       /\ textarea st' = textarea st
       /\ _updateButtonHandler st' = _updateButtonHandler st)
  /\ (forall t k interpolators stops,
        TimelineClickEvent.target d = Some t ->
        TimelineElement.row t = Some (RowProperty p) ->
        TimelineElement.keyframe t = Some k ->
        IContentData.interpolators data = Some interpolators ->
        obj_get (TRowProperty.propertyName p) interpolators = Some stops ->
        stops <> [] ->
        exists st' data' interpolators',
          _onMouseDown JSON_stringify_data JSON_stringify_stop d st
          = Normal tt st'
          /\ IEditorContent.getData (store st' content) = Some data'
          /\ IContentData.interpolators data' = Some interpolators'
          /\ obj_get (TRowProperty.propertyName p) interpolators'
             = Some (delete (TKey.keyIdx k) stops)
          /\ textarea st' = textarea st
          /\ _updateButtonHandler st' = _updateButtonHandler st).
Proof.
  intros Halt Hc Hd. split.
  - intros e es Ht He Hrow. unfold _onMouseDown. rewrite Ht, He, Halt, Hrow.
    rewrite (addKeyframe_found _ _ _ content data) by done.
    do 3 eexists. split; [done|]. simpl. rewrite fn_lookup_insert. simpl.
    split_and!; try done.
    rewrite obj_get_set_eq. by destruct (IContentData.interpolators data).
  - intros t k interpolators stops Ht Hrow Hk Hi Hp Hne.
    unfold _onMouseDown. rewrite Ht. cbv zeta. rewrite Hrow, Hk, Halt.
    unfold mbind at 1, M_bind, mret, M_ret.
    rewrite (removeKeyframe_found _ _ _ content data interpolators stops)
      by done.
    do 3 eexists. split; [done|]. simpl. rewrite fn_lookup_insert. simpl.
    split_and!; try done. apply obj_get_set_eq.
Qed.

Lemma mouseDown_with_alt_witness :
  exists st' data',
    _onMouseDown Demo.stringify_data Demo.stringify_stop
      {| TimelineClickEvent.target := None;
         TimelineClickEvent.elements :=
           [ {| TimelineElement.row := Some (RowProperty Demo.propertyRow);
                TimelineElement.keyframe := None;
                TimelineElement.group := None |} ];
         TimelineClickEvent.altKey := true;
         TimelineClickEvent.val := 200 |} Demo.drawn
    = Normal tt st'
    /\ IEditorContent.getData (store st' 0%nat) = Some data'
    /\ IContentData.interpolators data'
       = Some [("opacity",
                [Demo.stop0; Demo.stop1;
                 {| InterpolationStop.position := PNumber 200;
                    InterpolationStop.value := JNumber 0;
                    InterpolationStop.rest := [] |}])].
Proof.
  destruct (proj1 (mouseDown_with_alt Demo.stringify_data Demo.stringify_stop
                     {| TimelineClickEvent.target := None;
                        TimelineClickEvent.elements :=
                          [ {| TimelineElement.row :=
                                 Some (RowProperty Demo.propertyRow);
                               TimelineElement.keyframe := None;
                               TimelineElement.group := None |} ];
                        TimelineClickEvent.altKey := true;
                        TimelineClickEvent.val := 200 |}
                     Demo.propertyRow 0 Demo.data Demo.drawn
                     eq_refl eq_refl eq_refl) _ _ eq_refl eq_refl eq_refl)
    as (st' & data' & ints & Hrun & Hdata & _).
  exists st', data'. split; [exact Hrun|]. split; [exact Hdata|].
  pose proof (f_equal outcome_state Hrun) as Hst. simpl in Hst. subst st'.
  vm_compute in Hdata. injection Hdata as <-. reflexivity.
Defined.

(** ** Reachable states *)

Lemma outline_mirrors_nodes (st : Editor) :
  outline_mirrors st
  <-> length (outline st) = length (rows st)
      /\ forall idx row node,
           rows st !! idx = Some row -> outline st !! idx = Some node ->
           node_mirrors idx row node.
Proof.
  unfold outline_mirrors, node_mirrors. split; intros [Hlen H]; (split; [done|]).
  - intros idx row node Hrow Hnode.
    destruct (H idx row Hrow) as (node' & Hnode' & Hrest).
    rewrite Hnode in Hnode'. by injection Hnode' as <-.
  - intros idx row Hrow.
    destruct (lookup_lt_is_Some_2 (outline st) idx) as [node Hnode].
    { rewrite Hlen. by eapply lookup_lt_Some. }
    exists node. split; [done|]. by apply (H idx row node).
Qed.

(** The loop of [_toggleGroup] keeps every outline node in step with its
    row. *)
Lemma toggle_loop_outline (l : list TRow) :
  forall (nl : list OutlineNode.t) (pre : list TRow)
         (npre : list OutlineNode.t) (expanded : bool) (st : Editor),
    rows st = pre ++ l ->
    outline st = npre ++ nl ->
    length npre = length pre ->
    length nl = length l ->
    (forall j row node,
       l !! j = Some row -> nl !! j = Some node ->
       node_mirrors (length pre + j) row node) ->
    exists expanded' st' l' nl',
      forEachM_from toggle_row (length pre) l (expanded, st)
      = Normal tt (expanded', st')
      /\ rows st' = pre ++ l'
      /\ outline st' = npre ++ nl'
      /\ length l' = length l
      /\ length nl' = length l
      /\ (forall j row node,
            l' !! j = Some row -> nl' !! j = Some node ->
            node_mirrors (length pre + j) row node).
Proof.
  induction l as [|r l IH]; intros nl pre npre expanded st Hrows Hout Hnpre Hnl Hok.
  - destruct nl; [|done]. exists expanded, st, [], []. simpl.
    split_and!; try done.
  - destruct nl as [|n nl]; [done|]. simpl in Hnl.
    assert (Htail : forall l' nl' (r' : TRow) (n' : OutlineNode.t),
              node_mirrors (length pre) r' n' ->
              (forall j row node,
                 l' !! j = Some row -> nl' !! j = Some node ->
                 node_mirrors (length (pre ++ [r']) + j) row node) ->
              forall j row node,
                (r' :: l') !! j = Some row -> (n' :: nl') !! j = Some node ->
                node_mirrors (length pre + j) row node).
    { intros l' nl' r' n' H0 HS [|j] row node; simpl.
      - intros [= <-] [= <-]. by rewrite Nat.add_0_r.
      - intros Hr Hn. specialize (HS j row node Hr Hn).
        rewrite length_app in HS. simpl in HS.
        by replace (length pre + S j)%nat with (length pre + 1 + j)%nat by lia. }
    assert (Hshift : forall j row node,
              l !! j = Some row -> nl !! j = Some node ->
              forall r' : TRow, node_mirrors (length (pre ++ [r']) + j) row node).
    { intros j row node Hr Hn r'. rewrite length_app. simpl.
      replace (length pre + 1 + j)%nat with (length pre + S j)%nat by lia.
      by apply Hok. }
    pose proof (Hok 0%nat r n eq_refl eq_refl) as H0.
    rewrite Nat.add_0_r in H0.
    destruct r as [m|p]; cbn [forEachM_from toggle_row].
    + destruct (IH nl (pre ++ [RowModule m]) (npre ++ [n])
                  (truthy (array_get (_expandedRows st) (TRowModule.moduleIdx m)))
                  st)
        as (e' & st' & l' & nl' & Hrun & Hrows' & Hout' & Hl' & Hnl' & Hok').
      { by rewrite Hrows, <- app_assoc. }
      { by rewrite Hout, <- app_assoc. }
      { rewrite !length_app. simpl. lia. }
      { lia. }
      { intros j row node Hr Hn. by apply Hshift. }
      rewrite length_app, Nat.add_1_r in Hrun.
      exists e', st', (RowModule m :: l'), (n :: nl'). rewrite Hrun.
      split_and!; try done.
      * by rewrite Hrows', <- app_assoc.
      * by rewrite Hout', <- app_assoc.
      * simpl. lia.
      * simpl. lia.
      * by apply Htail.
    + set (p' := TRowProperty.set_hidden (negb expanded) p).
      set (st1 := set_rows _ st).
      assert (Hrows1 : rows st1 = pre ++ RowProperty p' :: l).
      { subst st1. simpl. rewrite Hrows.
        rewrite alter_app_r_alt, Nat.sub_diag by lia. done. }
      assert (Hout1 : outline st1 = npre ++ n :: nl) by done.
      assert (Hnode : outline st1 !! length pre = Some n).
      { rewrite Hout1, <- Hnpre. by rewrite list_lookup_middle. }
      rewrite Hnode.
      set (n' := OutlineNode.set_display (if expanded then "block" else "none") n).
      set (st2 := set_outline _ st1).
      assert (Hout2 : outline st2 = npre ++ n' :: nl).
      { subst st2 st1. simpl. rewrite Hout, <- Hnpre.
        rewrite alter_app_r_alt, Nat.sub_diag by lia. done. }
      destruct (IH nl (pre ++ [RowProperty p']) (npre ++ [n']) expanded st2)
        as (e' & st' & l' & nl' & Hrun & Hrows' & Hout' & Hl' & Hnl' & Hok').
      { change (rows st2) with (rows st1). by rewrite Hrows1, <- app_assoc. }
      { by rewrite Hout2, <- app_assoc. }
      { rewrite !length_app. simpl. lia. }
      { lia. }
      { intros j row node Hr Hn. by apply Hshift. }
      rewrite length_app, Nat.add_1_r in Hrun.
      exists e', st', (RowProperty p' :: l'), (n' :: nl'). rewrite Hrun.
      split_and!; try done.
      * by rewrite Hrows', <- app_assoc.
      * by rewrite Hout', <- app_assoc.
      * simpl. lia.
      * simpl. lia.
      * apply Htail; [|done].
        destruct H0 as (Htext & Htitle & _ & _).
        unfold node_mirrors. subst p' n'. simpl. split_and!; try done.
        -- destruct expanded; auto.
        -- destruct expanded; simpl; split; intros; done.
Qed.

Lemma toggleGroup_outline_mirrors (moduleIdx : nat) (st st' : Editor) :
  outline_mirrors st ->
  _toggleGroup moduleIdx st = Normal tt st' ->
  outline_mirrors st'.
Proof.
  intros [Hlen Hok]%outline_mirrors_nodes. unfold _toggleGroup, forEachM.
  cbv zeta. set (st1 := set_expandedRows _ st).
  destruct (toggle_loop_outline (rows st1) (outline st1) [] [] false st1)
    as (e' & st2 & l' & nl' & Hrun & Hrows' & Hout' & Hl' & Hnl' & Hok');
    try done.
  cbn [length] in Hrun. rewrite Hrun. intros [= <-].
  apply outline_mirrors_nodes. rewrite Hrows', Hout'. simpl.
  split; [lia|]. intros idx row node. apply Hok'.
Qed.

Lemma consistent_rows (st st' : Editor) :
  _contents st' = _contents st -> rows st' = rows st ->
  outline st' = outline st ->
  consistent st -> consistent st'.
Proof.
  unfold consistent, mirrored, outline_mirrors.
  intros -> -> ->. done.
Qed.

Lemma consistent_same_view (st st' : Editor) :
  same_view st st' -> consistent st -> consistent st'.
Proof. intros (Hc & _ & Hr & Ho & _). by apply consistent_rows. Qed.

Lemma expandTimeline_same_view (value : Z) (st : Editor) :
  same_view st (_expandTimeline value st).
Proof.
  unfold _expandTimeline, forEach. cbv zeta.
  generalize (time st) at 1. generalize 0%nat. generalize st at 1 3.
  induction (_contents st) as [|c l IH]; intros st0 i t;
    cbn [forEach_from]; [apply same_view_refl|].
  eapply same_view_trans; [|apply IH].
  destruct (IEditorContent.getData (store st0 c)); by repeat split.
Qed.

Lemma redrawLoop_consistent (st : Editor) :
  consistent st -> consistent (_redrawLoop st).
Proof.
  intros (Hnd & Hm & Ho). unfold _redrawLoop.
  destruct (_dirty st) eqn:Hd; [|done].
  assert (Hst : _onContentsChanged st = st).
  { destruct st. simpl in Hd. by subst. }
  destruct (redraw_mirrored st) as (Hm' & _ & _).
  unfold _redrawLoop in Hm'. rewrite Hst, Hd in Hm'.
  split_and!; [| exact Hm' |].
  - by rewrite redrawOutline_eq, redrawTimeline_eq.
  - apply outline_node_mirrors. by rewrite redrawOutline_eq.
Qed.

Lemma new_Editor_consistent (contents : nat -> IEditorContent.t)
    (textarea0 errorMsg0 : string) (time0 : Z) :
  consistent (new_Editor contents textarea0 errorMsg0 time0).
Proof.
  apply redrawLoop_consistent. split_and!.
  - apply NoDup_nil_2.
  - by split.
  - split; [done|]. intros idx row Hrow. done.
Qed.

Section Reachable.

Variable JSON_parse : string -> string + JsonValue.
Variable asContentData : JsonValue -> IContentData.partial.
Variable asInterpolationStop : JsonValue -> InterpolationStop.partial.
Variable JSON_stringify : IContentData.t -> string.
Variable JSON_stringify_data : option IContentData.t -> string.
Variable JSON_stringify_stop : InterpolationStop.partial -> string.

Abbreviation handle' :=
  (handle JSON_parse asContentData asInterpolationStop JSON_stringify
     JSON_stringify_data JSON_stringify_stop).
Abbreviation dispatch' :=
  (dispatch JSON_parse asContentData asInterpolationStop JSON_stringify
     JSON_stringify_data JSON_stringify_stop).

Lemma handle_consistent (ev : Event) (st : Editor) :
  consistent st -> consistent (outcome_state (handle' ev st)).
Proof.
  intros Hst. destruct ev; cbn [handle].
  - (* AddContent *)
    unfold modify. cbn [outcome_state]. destruct Hst as (Hnd & Hm & Ho).
    split_and!; [by apply addContent_NoDup | |];
      unfold addContent; by case_decide.
  - (* RemoveContent *)
    unfold modify. cbn [outcome_state]. destruct Hst as (Hnd & Hm & Ho).
    split_and!; [by apply removeContent_NoDup | |];
      unfold removeContent; by destruct (indexOf _ _).
  - (* SetTime *) by eapply consistent_rows.
  - (* Reset *)
    destruct Hst as (Hnd & Hm & Ho). split_and!; [apply NoDup_nil_2 | done..].
  - (* IntervalChanged *) by eapply consistent_rows.
  - (* Frame *) by apply redrawLoop_consistent.
  - (* OutlineClick *)
    unfold mbind, M_bind, gets.
    destruct (outline st !! idx) as [node|]; [|done].
    destruct Hst as (Hnd & Hm & Ho).
    destruct (toggleGroup_mirrored (OutlineNode.onclick node) st Hm)
      as (st' & Hrun & Hm' & _ & _ & _ & Hc).
    rewrite Hrun. cbn [outcome_state]. split_and!; [by rewrite Hc | done |].
    by eapply toggleGroup_outline_mirrors.
  - (* KeyPress *)
    unfold modify, _onKeyPress. cbn [outcome_state].
    destruct targetIsTextarea; [done|].
    repeat case_decide; try done;
      (eapply consistent_same_view; [apply expandTimeline_same_view | done]).
  - (* Drag *)
    eapply consistent_same_view; [|done]. unfold _onDrag.
    apply pv_forEachM. intros e i. apply pv_processDragElement.
  - (* DragFinished *)
    eapply consistent_same_view; [|done]. unfold _onDragFinished.
    apply pv_forEachM. intros e i. apply pv_processDragElement.
  - (* MouseDown *)
    eapply consistent_same_view; [|done]. apply pv_onMouseDown.
  - (* KeyUp *)
    eapply consistent_same_view; [|done].
    apply pv_bind; [apply pv_modify; intros ?; by repeat split|]. intros _.
    apply pv_bind; [apply pv_gets|]. intros [[row key]|]; [|apply pv_ret].
    apply pv_onJsonChanged.
  - (* HostWrite *) by eapply consistent_rows.
Qed.

Lemma dispatch_consistent (evs : list Event) (st : Editor) :
  consistent st -> consistent (dispatch' evs st).
Proof.
  revert st. induction evs as [|ev evs IH]; intros st Hst; [done|].
  cbn [dispatch]. apply IH. by apply handle_consistent.
Qed.

(** X8. Whatever happens to a constructed editor (public calls, notifications,
    frames, clicks, key presses, drags, submitted texts, writes of the host
    to content objects, in any order and whether or not a handler threw),
    the state it is in is consistent: the
    content list holds no reference twice, the rows come in blocks of one
    shown module row followed by its property rows, and the outline has one
    node per row that shows the row's label or index and is displayed exactly
    when the row is not hidden.  Hence a toggle of any module, and a click on
    any outline node, completes without throwing. *)
Theorem reachable_consistent (contents : nat -> IEditorContent.t)
    (textarea0 errorMsg0 : string) (time0 : Z) (evs : list Event) :
  consistent (dispatch' evs (new_Editor contents textarea0 errorMsg0 time0))
  /\ (forall moduleIdx,
        is_normal
          (_toggleGroup moduleIdx
             (dispatch' evs (new_Editor contents textarea0 errorMsg0 time0)))
        = true)
  /\ (forall idx,
        is_normal
          (handle' (OutlineClick idx)
             (dispatch' evs (new_Editor contents textarea0 errorMsg0 time0)))
        = true).
Proof.
  pose proof (dispatch_consistent evs _
                (new_Editor_consistent contents textarea0 errorMsg0 time0))
    as Hst.
  split; [exact Hst|]. destruct Hst as (_ & Hm & _). split.
  - intros moduleIdx.
    destruct (toggleGroup_mirrored moduleIdx _ Hm) as (st' & -> & _). done.
  - intros idx. cbn [handle]. unfold mbind, M_bind, gets.
    destruct (outline _ !! idx) as [node|]; [|done].
    destruct (toggleGroup_mirrored (OutlineNode.onclick node) _ Hm)
      as (st' & -> & _). done.
Qed.






End Reachable.


(** ** More on shifting the timeline *)

Lemma expand_stop_back (value t : Z) (s : InterpolationStop.t) :
  0 <= value -> expand_stop (- value) t (expand_stop value t s) = s.
Proof.
  intros Hv. destruct s as [[p|x] v r]; unfold expand_stop; simpl; [|done].
  case_decide as Hp; simpl.
  - rewrite decide_True by lia.
    unfold InterpolationStop.set_position. simpl. do 2 f_equal. lia.
  - by rewrite decide_False.
Qed.

Lemma expand_data_shifted (value t : Z) (data : IContentData.t) :
  expand_data value t data
  = {| IContentData.low := shifted value t (IContentData.low data);
       IContentData.high := shifted value t (IContentData.high data);
       IContentData.interpolators :=
         (fun interpolators : Obj (list InterpolationStop.t) =>
            (fun entry : string * list InterpolationStop.t =>
               (entry.1, expand_stop value t <$> entry.2)) <$> interpolators)
         <$> IContentData.interpolators data;
       IContentData.rest := IContentData.rest data |}.
Proof.
  destruct data as [low high ints rest].
  unfold expand_data, shifted, IContentData.set_low, IContentData.set_high,
    IContentData.set_interpolators.
  simpl. destruct (decide (low > t)); simpl;
    destruct (decide (high > t)); simpl; by destruct ints.
Qed.

Lemma shifted_back (value t p : Z) :
  0 <= value -> shifted (- value) t (shifted value t p) = p.
Proof. intros Hv. unfold shifted. repeat case_decide; lia. Qed.

Lemma shifted_mono (value t p q : Z) :
  p <= q -> shifted value t p <= shifted value t q.
Proof. intros Hpq. unfold shifted. repeat case_decide; lia. Qed.

Lemma expand_data_back (value t : Z) (data : IContentData.t) :
  0 <= value -> expand_data (- value) t (expand_data value t data) = data.
Proof.
  intros Hv. rewrite !expand_data_shifted. destruct data as [low high ints rest].
  simpl. rewrite !shifted_back by done. f_equal.
  destruct ints as [o|]; [|done]. simpl. f_equal.
  rewrite <- list_fmap_compose. rewrite <- (list_fmap_id o) at 2.
  apply list_fmap_ext. intros i [k stops] _. simpl. f_equal.
  rewrite <- list_fmap_compose. rewrite <- (list_fmap_id stops) at 2.
  apply list_fmap_ext. intros j s _. simpl. by apply expand_stop_back.
Qed.

(** X10. The arrow keys as a round trip.  In an editor whose content list holds no
    reference twice, take a content of the list whose data has whole numbers
    of magnitude at most 2^53 - 100 as its time markers (its bounds and the
    numeric positions of its stops), so that adding and subtracting 100 is
    exact.  A press of ArrowRight followed by a press of ArrowLeft (outside
    the text box) gives that content its data back exactly, and leaves the
    rest of the editor as it was; the content has then seen two [setData]
    calls. *)
Theorem arrowRight_arrowLeft (st : Editor) (content : nat)
    (data : IContentData.t) :
  NoDup (_contents st) ->
  content ∈ _contents st ->
  IEditorContent.getData (store st content) = Some data ->
  Forall exact_marker (markers data) ->
  IEditorContent.getData
    (store (_onKeyPress false "ArrowLeft" (_onKeyPress false "ArrowRight" st))
       content)
  = Some data
  /\ length
       (IEditorContent.setDataLog
          (store
             (_onKeyPress false "ArrowLeft" (_onKeyPress false "ArrowRight" st))
             content))
     = S (S (length (IEditorContent.setDataLog (store st content))))
  /\ same_view st
       (_onKeyPress false "ArrowLeft" (_onKeyPress false "ArrowRight" st)).
Proof.
  intros Hnd Hin Hd _.
  change (_onKeyPress false "ArrowRight" st) with (_expandTimeline 100 st).
  change (_onKeyPress false "ArrowLeft" (_expandTimeline 100 st))
    with (_expandTimeline (-100) (_expandTimeline 100 st)).
  pose proof (expandTimeline_same_view 100 st) as Hv1.
  pose proof (expandTimeline_same_view (-100) (_expandTimeline 100 st)) as Hv2.
  destruct Hv1 as (Hc1 & _ & _ & _ & _ & Ht1).
  split_and!.
  3: { eapply same_view_trans; [|exact Hv2]. apply expandTimeline_same_view. }
  all: unfold _expandTimeline at 1; unfold forEach; cbv zeta;
    rewrite (expand_loop (-100) _ _ 0 _) by (by rewrite Hc1);
    rewrite Hc1, decide_True by done;
    unfold _expandTimeline, forEach; cbv zeta;
    rewrite (expand_loop 100 (time st) (_contents st) 0 st Hnd content);
    rewrite decide_True, Hd by done; simpl.
  - fold (forEach
            (fun (c _ : nat) (st0 : Editor) =>
               match IEditorContent.getData (store st0 c) with
               | Some data0 =>
                   on_content c
                     (IEditorContent.setData
                        (expand_data 100 (time st) data0)) st0
               | None => st0
               end) (_contents st) st).
    fold (_expandTimeline 100 st). rewrite Ht1.
    f_equal. by apply (expand_data_back 100).
  - rewrite !length_app. simpl. lia.
Qed.

Lemma arrowRight_arrowLeft_witness :
  markers Demo.data = [100; 400; 120]
  /\ IEditorContent.getData
       (store
          (_onKeyPress false "ArrowLeft"
             (_onKeyPress false "ArrowRight" Demo.drawn))
          0%nat)
     = Some Demo.data
  /\ IEditorContent.getData
       (store
          (_onKeyPress false "ArrowRight"
             (_onKeyPress false "ArrowLeft" Demo.drawn))
          0%nat)
     <> Some Demo.data.
Proof.
  split_and!.
  - reflexivity.
  - apply (arrowRight_arrowLeft Demo.drawn 0 Demo.data).
    + apply (bool_decide_unpack _). vm_compute. exact I.
    + apply (bool_decide_unpack _). vm_compute. exact I.
    + reflexivity.
    + apply (bool_decide_unpack _). vm_compute. exact I.
  - vm_compute. discriminate.
Defined.

Lemma expandTimeline_store (value : Z) (st : Editor) (c : nat) :
  NoDup (_contents st) ->
  store (_expandTimeline value st) c
  = if decide (c ∈ _contents st) then
      match IEditorContent.getData (store st c) with
      | None => store st c
      | Some data =>
          IEditorContent.setData (expand_data value (time st) data) (store st c)
      end
    else store st c.
Proof.
  intros Hnd. unfold _expandTimeline, forEach. cbv zeta.
  apply (expand_loop value (time st) (_contents st) 0 st Hnd c).
Qed.

Lemma expand_stop_position (value t : Z) (s : InterpolationStop.t) :
  InterpolationStop.position (expand_stop value t s)
  = match InterpolationStop.position s with
    | PNumber p => PNumber (shifted value t p)
    | PString x => PString x
    end.
Proof.
  unfold expand_stop, shifted. destruct s as [[p|x] v r]; simpl; [|done].
  by case_decide.
Qed.

(** X11. [_expandTimeline] keeps time markers in order.  For a content of the list
    (no reference twice) with data: if the low bound was not after the high
    bound it still is not, and two numeric stop positions of a property that
    were in order are still in order. *)
Theorem expandTimeline_keeps_order (value : Z) (st : Editor) (content : nat)
    (data : IContentData.t) :
  NoDup (_contents st) ->
  content ∈ _contents st ->
  IEditorContent.getData (store st content) = Some data ->
  exists data',
    IEditorContent.getData (store (_expandTimeline value st) content)
    = Some data'
    /\ (IContentData.low data <= IContentData.high data ->
          IContentData.low data' <= IContentData.high data')
    /\ (forall interpolators n name stops i j si sj p q,
          IContentData.interpolators data = Some interpolators ->
          interpolators !! n = Some (name, stops) ->
          stops !! i = Some si -> stops !! j = Some sj ->
          InterpolationStop.position si = PNumber p ->
          InterpolationStop.position sj = PNumber q ->
          p <= q ->
          exists interpolators' stops' si' sj' p' q',
            IContentData.interpolators data' = Some interpolators'
            /\ interpolators' !! n = Some (name, stops')
            /\ stops' !! i = Some si' /\ stops' !! j = Some sj'
            /\ InterpolationStop.position si' = PNumber p'
            /\ InterpolationStop.position sj' = PNumber q'
            /\ p' <= q').
Proof.
  intros Hnd Hin Hd. rewrite expandTimeline_store by done.
  rewrite decide_True, Hd by done. simpl.
  exists (expand_data value (time st) data). split; [done|].
  rewrite expand_data_shifted. simpl. split.
  - apply shifted_mono.
  - intros ints n name stops i j si sj p q Hi Hn Hsi Hsj Hp Hq Hpq.
    rewrite Hi. simpl.
    exists ((fun entry : string * list InterpolationStop.t =>
               (entry.1, expand_stop value (time st) <$> entry.2)) <$> ints),
      (expand_stop value (time st) <$> stops),
      (expand_stop value (time st) si), (expand_stop value (time st) sj),
      (shifted value (time st) p), (shifted value (time st) q).
    rewrite !list_lookup_fmap, Hn, Hsi, Hsj, !expand_stop_position, Hp, Hq.
    split_and!; try done. by apply shifted_mono.
Qed.

Lemma expandTimeline_keeps_order_witness :
  exists data',
    IEditorContent.getData (store (_expandTimeline (-500) Demo.drawn) 0%nat)
    = Some data'
    /\ IContentData.low data' <= IContentData.high data'
    /\ IContentData.high data' = 110.
Proof.
  assert (Hnd : NoDup (_contents Demo.drawn)).
  { apply (bool_decide_unpack _). vm_compute. exact I. }
  assert (Hin : 0%nat ∈ _contents Demo.drawn).
  { apply (bool_decide_unpack _). vm_compute. exact I. }
  destruct (expandTimeline_keeps_order (-500) Demo.drawn 0 Demo.data Hnd Hin
              eq_refl) as (data' & Hdata & Horder & _).
  exists data'. split; [exact Hdata|]. split.
  - apply Horder. vm_compute. discriminate.
  - vm_compute in Hdata. injection Hdata as <-. reflexivity.
Defined.

(** X12. [_expandTimeline] calls [setData] exactly once on every content of the
    list (no reference twice) that has data, with the shifted data, and does
    nothing to a content without data or outside the list. *)
Theorem expandTimeline_setData_once (value : Z) (st : Editor) (c : nat) :
  NoDup (_contents st) ->
  (forall data,
     c ∈ _contents st ->
     IEditorContent.getData (store st c) = Some data ->
     IEditorContent.setDataLog (store (_expandTimeline value st) c)
     = IEditorContent.setDataLog (store st c)
       ++ [expand_data value (time st) data])
  /\ (c ∉ _contents st \/ IEditorContent.getData (store st c) = None ->
        store (_expandTimeline value st) c = store st c).
Proof.
  intros Hnd. rewrite expandTimeline_store by done. split.
  - intros data Hin Hd. by rewrite decide_True, Hd.
  - intros [Hnin | Hnone].
    + by rewrite decide_False.
    + case_decide; by rewrite ?Hnone.
Qed.

Lemma expandTimeline_setData_once_witness :
  length
    (IEditorContent.setDataLog (store (_expandTimeline 100 Demo.drawn) 0%nat))
  = 1%nat
  /\ store (_expandTimeline 100 Demo.drawn) 1%nat = store Demo.drawn 1%nat
  /\ store (_expandTimeline 100 Demo.drawn) 9%nat = store Demo.drawn 9%nat.
Proof.
  assert (Hnd : NoDup (_contents Demo.drawn)).
  { apply (bool_decide_unpack _). vm_compute. exact I. }
  split_and!.
  - rewrite (proj1 (expandTimeline_setData_once 100 Demo.drawn 0 Hnd) Demo.data).
    + reflexivity.
    + apply (bool_decide_unpack _). vm_compute. exact I.
    + reflexivity.
  - apply (proj2 (expandTimeline_setData_once 100 Demo.drawn 1 Hnd)).
    right. reflexivity.
  - apply (proj2 (expandTimeline_setData_once 100 Demo.drawn 9 Hnd)).
    left. apply (bool_decide_unpack _). vm_compute. exact I.
Defined.

(** ** Errors while submitting and dragging *)

Section ErrorProperties.

Variable JSON_parse : string -> string + JsonValue.
Variable asContentData : JsonValue -> IContentData.partial.
Variable asInterpolationStop : JsonValue -> InterpolationStop.partial.
Variable JSON_stringify : IContentData.t -> string.
Variable JSON_stringify_data : option IContentData.t -> string.
Variable JSON_stringify_stop : InterpolationStop.partial -> string.

(** X13. Only a text that does not parse reaches the error box.  When the text
    parses but the update cannot be made (the content has no data; or, for a
    property row with a keyframe, the data has no such property or no stop at
    the keyframe's index; or a property row is submitted without keyframe),
    [_onJsonChanged] returns normally, the error box is empty and nothing
    else has changed.  When the row's module index has no content, it throws
    before the error box is touched. *)
Theorem onJsonChanged_silent (row : TRow) (key : option TKey.t) (st : Editor) :
  (forall content newData,
     _contents st !! Row.moduleIdx row = Some content ->
     JSON_parse (textarea st) = inr newData ->
     match row, key with
     | RowModule _, _ => IEditorContent.getData (store st content) = None
     | RowProperty p, Some k =>
         forall data stops s,
           IEditorContent.getData (store st content) = Some data ->
           IContentData.interpolators data
           ≫= obj_get (TRowProperty.propertyName p) = Some stops ->
           stops !! TKey.keyIdx k = Some s -> False
     | RowProperty _, None => True
     end ->
     _onJsonChanged JSON_parse asContentData asInterpolationStop
       JSON_stringify row key st
     = Normal tt (set_errorMsg EmptyString st))
  /\ (_contents st !! Row.moduleIdx row = None ->
        _onJsonChanged JSON_parse asContentData asInterpolationStop
          JSON_stringify row key st
        = Throw "Content not found" st).
Proof.
  split.
  - intros content newData Hc Hparse Hbad.
    unfold _onJsonChanged, mbind at 1 2 3, M_bind.
    rewrite (getContent_found _ content) by done.
    unfold modify at 1, gets at 1. cbn [textarea set_errorMsg]. rewrite Hparse.
    destruct row as [m|p].
    + unfold unawaited, _updateModuleData, mbind, M_bind, gets.
      cbn [store set_errorMsg]. by rewrite Hbad.
    + destruct key as [k|]; [|done].
      unfold unawaited, _updateKeyframeData, mbind at 1, M_bind, gets.
      cbn [store set_errorMsg].
      destruct (IEditorContent.getData (store st content)) as [data|] eqn:Hd;
        [|done].
      destruct (IContentData.interpolators data
                ≫= obj_get (TRowProperty.propertyName p)) as [stops|] eqn:Hp;
        [|done].
      destruct (stops !! TKey.keyIdx k) as [s|] eqn:Hs; [|done].
      destruct (Hbad data stops s eq_refl Hp Hs).
  - intros Hc. unfold _onJsonChanged, mbind, M_bind, _getContent.
    by rewrite Hc.
Qed.

Lemma forEachM_from_ext {A S} (f g : A -> nat -> S -> Outcome S unit)
    (i j : nat) (l : list A) (s : S) :
  (forall x i j s, f x i s = g x j s) ->
  forEachM_from f i l s = forEachM_from g j l s.
Proof.
  intros H. revert i j s. induction l as [|x l IH]; intros i j s; [done|].
  simpl. rewrite (H x i j s). destruct (g x j s); [apply IH | done].
Qed.

Lemma forEachM_from_app {A S} (f : A -> nat -> S -> Outcome S unit)
    (i j k : nat) (l1 l2 : list A) (s : S) :
  (forall x i j s, f x i s = f x j s) ->
  forEachM_from f i (l1 ++ l2) s
  = match forEachM_from f j l1 s with
    | Normal _ s1 => forEachM_from f k l2 s1
    | Throw msg s1 => Throw msg s1
    end.
Proof.
  intros H. revert i j s. induction l1 as [|x l1 IH]; intros i j s.
  - simpl. by apply forEachM_from_ext.
  - simpl. rewrite (H x i j s). destruct (f x j s); [apply IH | done].
Qed.

Lemma onDrag_app (l1 l2 : list TimelineElementDragState.t) (st : Editor) :
  _onDrag JSON_stringify_data JSON_stringify_stop (l1 ++ l2) st
  = match _onDrag JSON_stringify_data JSON_stringify_stop l1 st with
    | Normal _ st1 => _onDrag JSON_stringify_data JSON_stringify_stop l2 st1
    | Throw msg st1 => Throw msg st1
    end.
Proof. unfold _onDrag, forEachM. by apply forEachM_from_app. Qed.

(** X14. A drag is processed element by element, without rollback.  When the
    elements before one that lacks its row or its keyframe are processed
    normally, the whole drag throws at that element: the writes of the
    earlier elements stay, and the later elements are not processed.  The
    drag-finished callback does exactly what the drag callback does. *)
Theorem onDrag_stops_at_failure (l1 l2 : list TimelineElementDragState.t)
    (e : TimelineElementDragState.t) (st st1 : Editor) :
  _onDrag JSON_stringify_data JSON_stringify_stop l1 st = Normal tt st1 ->
  TimelineElementDragState.row e = None
  \/ TimelineElementDragState.keyframe e = None ->
  _onDrag JSON_stringify_data JSON_stringify_stop (l1 ++ e :: l2) st
  = Throw "Unexpected" st1
  /\ _onDragFinished JSON_stringify_data JSON_stringify_stop (l1 ++ e :: l2) st
     = Throw "Unexpected" st1.
Proof.
  intros H1 He.
  assert (_onDrag JSON_stringify_data JSON_stringify_stop (l1 ++ e :: l2) st
          = Throw "Unexpected" st1) as Hdrag.
  { rewrite onDrag_app, H1. unfold _onDrag, forEachM. simpl.
    unfold _processDragElement.
    destruct He as [-> | ->]; [done|].
    by destruct (TimelineElementDragState.row e). }
  split; [exact Hdrag|]. exact Hdrag.
Qed.

End ErrorProperties.

Lemma onJsonChanged_silent_witness :
  _onJsonChanged Demo.parse Demo.asContentData Demo.asInterpolationStop
    Demo.stringify (RowModule (_rowFromContent Demo.text 1)) None
    (set_textarea "{}" Demo.drawn)
  = Normal tt (set_errorMsg EmptyString (set_textarea "{}" Demo.drawn))
  /\ _onJsonChanged Demo.parse Demo.asContentData Demo.asInterpolationStop
       Demo.stringify (RowModule (_rowFromContent Demo.text 5)) None Demo.drawn
     = Throw "Content not found" Demo.drawn.
Proof.
  split.
  - apply (proj1 (onJsonChanged_silent Demo.parse Demo.asContentData
                    Demo.asInterpolationStop Demo.stringify
                    (RowModule (_rowFromContent Demo.text 1)) None
                    (set_textarea "{}" Demo.drawn)) 1%nat (JObject []));
      reflexivity.
  - apply (proj2 (onJsonChanged_silent Demo.parse Demo.asContentData
                    Demo.asInterpolationStop Demo.stringify
                    (RowModule (_rowFromContent Demo.text 5)) None Demo.drawn)).
    reflexivity.
Defined.

Lemma onDrag_stops_at_failure_witness :
  exists st1,
    _onDrag Demo.stringify_data Demo.stringify_stop
      [ {| TimelineElementDragState.row := Some Demo.moduleRow;
           TimelineElementDragState.keyframe := Some (Demo.key 90 0 "absolute") |};
        {| TimelineElementDragState.row := None;
           TimelineElementDragState.keyframe := Some (Demo.key 90 0 "absolute") |};
        {| TimelineElementDragState.row := Some Demo.moduleRow;
           TimelineElementDragState.keyframe := Some (Demo.key 500 1 "absolute") |} ]
      Demo.drawn
    = Throw "Unexpected" st1
    /\ IEditorContent.getData (store st1 0%nat)
       = Some (IContentData.set_low 90 Demo.data).
Proof.
  eexists. split.
  - apply (onDrag_stops_at_failure Demo.stringify_data Demo.stringify_stop
             [ {| TimelineElementDragState.row := Some Demo.moduleRow;
                  TimelineElementDragState.keyframe :=
                    Some (Demo.key 90 0 "absolute") |} ]
             [ {| TimelineElementDragState.row := Some Demo.moduleRow;
                  TimelineElementDragState.keyframe :=
                    Some (Demo.key 500 1 "absolute") |} ]
             {| TimelineElementDragState.row := None;
                TimelineElementDragState.keyframe :=
                  Some (Demo.key 90 0 "absolute") |} Demo.drawn).
    + reflexivity.
    + left. reflexivity.
  - reflexivity.
Defined.

(** ** The bridge *)

Lemma load_from_contents (cs : list nat) (i : nat) (e : Editor) :
  let e' := forEach_from (fun c (_ : nat) editor => addContent c editor) i cs e in
  (exists added, _contents e' = _contents e ++ added)
  /\ (forall c, c ∈ _contents e' <-> c ∈ _contents e \/ c ∈ cs)
  /\ (NoDup (_contents e) -> NoDup (_contents e'))
  /\ rows e' = rows e /\ outline e' = outline e
  /\ _expandedRows e' = _expandedRows e /\ time e' = time e.
Proof.
  revert i e. induction cs as [|c cs IH]; intros i e; cbn [forEach_from].
  - cbv zeta. split_and!; try done.
    + exists []. by rewrite app_nil_r.
    + intros c. split; [auto|]. intros [H|H]; [done|].
      by apply not_elem_of_nil in H.
  - destruct (IH (S i) (addContent c e))
      as ([added Ha] & Hmem & Hnd & Hr & Ho & Hf & Ht).
    assert (Hadd : _contents (addContent c e)
                   = if decide (c ∈ _contents e) then _contents e
                     else _contents e ++ [c]).
    { unfold addContent. by case_decide. }
    assert (Hrest : rows (addContent c e) = rows e
                    /\ outline (addContent c e) = outline e
                    /\ _expandedRows (addContent c e) = _expandedRows e
                    /\ time (addContent c e) = time e).
    { unfold addContent. by case_decide. }
    destruct Hrest as (Hr0 & Ho0 & Hf0 & Ht0).
    cbv zeta. split_and!.
    + rewrite Ha, Hadd. case_decide.
      * by exists added.
      * exists ([c] ++ added). by rewrite app_assoc.
    + intros x. rewrite Hmem, Hadd, elem_of_cons. case_decide as Hc.
      * split; [intros [?|?]; auto|]. intros [?|[->|?]]; auto.
      * rewrite elem_of_app, list_elem_of_singleton. tauto.
    + intros H. by apply Hnd, addContent_NoDup.
    + by rewrite Hr.
    + by rewrite Ho.
    + by rewrite Hf.
    + by rewrite Ht.
Qed.

Lemma load_from_present (cs : list nat) (i : nat) (e : Editor) :
  (forall c, c ∈ cs -> c ∈ _contents e) ->
  forEach_from (fun c (_ : nat) editor => addContent c editor) i cs e = e.
Proof.
  revert i. induction cs as [|c cs IH]; intros i H; [done|].
  cbn [forEach_from]. rewrite addContent_present.
  - apply IH. intros x Hx. apply H, elem_of_cons. by right.
  - apply H, elem_of_cons. by left.
Qed.

(** X15. [_setContents] while an editor is attached only ever adds.  The editor's
    content list afterwards is its old list followed by additions, a content
    is in it exactly when it was in it before or is in the new list, and it
    has no repetitions if it had none; contents that are no longer in the new
    list stay in the editor.  The rows, the outline, the flags and the
    time are untouched, and handing over the same list again changes
    nothing. *)
Theorem setContents_only_adds (contents : list nat) (b : EditorBridge.t)
    (editor : Editor) :
  EditorBridge._editor b = Some editor ->
  exists editor',
    EditorBridge._setContents contents b
    = Normal tt
        (EditorBridge.set_editor (Some editor')
           (EditorBridge.set_contents (Some contents) b))
    /\ (exists added, _contents editor' = _contents editor ++ added)
    /\ (forall c, c ∈ _contents editor'
                  <-> c ∈ _contents editor \/ c ∈ contents)
    /\ (NoDup (_contents editor) -> NoDup (_contents editor'))
    /\ rows editor' = rows editor /\ outline editor' = outline editor
    /\ _expandedRows editor' = _expandedRows editor
    /\ time editor' = time editor
    /\ EditorBridge._setContents contents
         (EditorBridge.set_editor (Some editor')
            (EditorBridge.set_contents (Some contents) b))
       = Normal tt
           (EditorBridge.set_editor (Some editor')
              (EditorBridge.set_contents (Some contents) b)).
Proof.
  intros He.
  exists (forEach (fun c (_ : nat) editor => addContent c editor) contents editor).
  destruct (load_from_contents contents 0 editor)
    as (Hpre & Hmem & Hnd & Hr & Ho & Hf & Ht).
  split_and!; try done.
  - unfold EditorBridge._setContents, EditorBridge._loadContents. simpl.
    by rewrite He.
  - unfold EditorBridge._setContents, EditorBridge._loadContents. simpl.
    unfold forEach at 1. rewrite load_from_present; [done|].
    intros c Hc. apply Hmem. by right.
Qed.

Lemma setContents_only_adds_witness :
  exists editor',
    EditorBridge._setContents [1; 4; 4]%nat
      {| EditorBridge.positionChanged := true;
         EditorBridge._editorWindow :=
           Some {| EditorWindow.closed := false;
                   EditorWindow.focusCalls := 0 |};
         EditorBridge._editor := Some Demo.drawn;
         EditorBridge._contents := None;
         EditorBridge.setPositionLog := [] |}
    = Normal tt
        {| EditorBridge.positionChanged := true;
           EditorBridge._editorWindow :=
             Some {| EditorWindow.closed := false;
                     EditorWindow.focusCalls := 0 |};
           EditorBridge._editor := Some editor';
           EditorBridge._contents := Some [1; 4; 4]%nat;
           EditorBridge.setPositionLog := [] |}
    /\ _contents editor' = [0; 1; 4]%nat.
Proof.
  destruct (setContents_only_adds [1; 4; 4]%nat
              {| EditorBridge.positionChanged := true;
                 EditorBridge._editorWindow :=
                   Some {| EditorWindow.closed := false;
                           EditorWindow.focusCalls := 0 |};
                 EditorBridge._editor := Some Demo.drawn;
                 EditorBridge._contents := None;
                 EditorBridge.setPositionLog := [] |} Demo.drawn eq_refl)
    as (editor' & Hrun & _).
  exists editor'. split; [exact Hrun|].
  vm_compute in Hrun. injection Hrun as <-. reflexivity.
Defined.

(** X16. Contents that arrive before the editor is open are kept and loaded when
    it opens.  With no window, or a closed one, and a content list stored,
    [openEditor] on a window that loads takes the window's editor, hands the
    scroll position to its [setTime] and adds every stored content to it, so
    that the editor's time is what [setTime] made it (the position itself
    when that is not negative); the new window is open.  If the window fails
    to load, [openEditor] throws and the bridge is unchanged.  With a window
    that is still open it only focuses that window. *)
Theorem openEditor_loads_pending (loaded : string + Editor) (position : Z)
    (b : EditorBridge.t) :
  (forall editor contents,
     EditorBridge._editorWindow b = None
     \/ EditorWindow.closed <$> EditorBridge._editorWindow b = Some true ->
     loaded = inr editor ->
     EditorBridge._contents b = Some contents ->
     exists b' editor',
       EditorBridge.openEditor loaded position b = Normal tt b'
       /\ EditorBridge._editor b' = Some editor'
       /\ time editor' = time (setTime position editor)
       /\ (0 <= position -> time editor' = position)
       /\ (forall c, c ∈ _contents editor'
                     <-> c ∈ _contents editor \/ c ∈ contents)
       /\ EditorWindow.closed <$> EditorBridge._editorWindow b' = Some false
       /\ EditorBridge._contents b' = Some contents
       /\ EditorBridge.positionChanged b' = EditorBridge.positionChanged b)
  /\ (forall msg,
        EditorBridge._editorWindow b = None
        \/ EditorWindow.closed <$> EditorBridge._editorWindow b = Some true ->
        loaded = inl msg ->
        EditorBridge.openEditor loaded position b = Throw msg b)
  /\ (forall w,
        EditorBridge._editorWindow b = Some w ->
        EditorWindow.closed w = false ->
        EditorBridge.openEditor loaded position b
        = Normal tt
            (EditorBridge.set_editorWindow
               (Some {| EditorWindow.closed := false;
                        EditorWindow.focusCalls :=
                          S (EditorWindow.focusCalls w) |}) b)).
Proof.
  split_and!.
  - intros editor contents Hw -> Hc.
    destruct (load_from_contents contents 0 (setTime position editor))
      as (_ & Hmem & _ & _ & _ & _ & Ht).
    eexists.
    exists (forEach (fun c (_ : nat) editor => addContent c editor) contents
              (setTime position editor)).
    split.
    + unfold EditorBridge.openEditor, EditorBridge._loadContents.
      destruct Hw as [-> | Hw].
      * simpl. rewrite Hc. reflexivity.
      * destruct (EditorBridge._editorWindow b) as [w|]; [|done].
        simpl in Hw. injection Hw as ->. simpl. rewrite Hc. reflexivity.
    + simpl. split_and!; try done.
      intros Hpos. unfold forEach. rewrite Ht. simpl. lia.
  - intros msg Hw ->. unfold EditorBridge.openEditor.
    destruct Hw as [-> | Hw]; [done|].
    destruct (EditorBridge._editorWindow b) as [w|]; [|done].
    simpl in Hw. injection Hw as ->. done.
  - intros w Hw Hclosed. unfold EditorBridge.openEditor.
    rewrite Hw, Hclosed. simpl. done.
Qed.

Lemma openEditor_loads_pending_witness :
  exists b' editor',
    EditorBridge.openEditor (inr Demo.drawn) 42
      (outcome_state
         (EditorBridge._setContents [3; 0]%nat EditorBridge.new))
    = Normal tt b'
    /\ EditorBridge._editor b' = Some editor'
    /\ time editor' = 42
    /\ _contents editor' = [0; 1; 3]%nat.
Proof.
  destruct (proj1 (openEditor_loads_pending (inr Demo.drawn) 42
                     (outcome_state
                        (EditorBridge._setContents [3; 0]%nat EditorBridge.new)))
              Demo.drawn [3; 0]%nat (or_introl eq_refl) eq_refl eq_refl)
    as (b' & editor' & Hrun & He & _ & Ht & _).
  exists b', editor'. split_and!; [exact Hrun | exact He | apply Ht; lia |].
  pose proof (f_equal outcome_state Hrun) as Hb. simpl in Hb. subst b'.
  vm_compute in He. injection He as <-. reflexivity.
Defined.

Lemma call_keeps_detached (c : EditorBridge.Call) (b : EditorBridge.t) :
  EditorBridge.positionChanged b = false ->
  EditorBridge.positionChanged (outcome_state (EditorBridge.call c b)) = false.
Proof.
  intros Hb. destruct c; cbn [EditorBridge.call outcome_state]; try done.
  - unfold EditorBridge.openEditor, EditorBridge._loadContents.
    destruct (EditorBridge._editorWindow b) as [[[] n]|]; simpl; try done;
      destruct loaded as [msg|editor]; simpl; try done;
      by destruct (EditorBridge._contents b).
  - unfold EditorBridge._setContents, EditorBridge._loadContents. simpl.
    by destruct (EditorBridge._editor b).
  - by rewrite Hb.
  - by destruct (EditorBridge._editor b), (_onTimeChanged source val).
Qed.

(** X17. Closing the editor stops the forwarding of the scroll position for good.
    After [closeEditor], whatever is called on the bridge next (including
    [openEditor] on a fresh window, which does take over the position once),
    the handler on [positionChanged] is not attached again: a position change
    of the host leaves the bridge and its editor exactly as they are. *)
Theorem closeEditor_stops_forwarding (b : EditorBridge.t)
    (cs : list EditorBridge.Call) (t : Z) :
  EditorBridge.positionChanged
    (EditorBridge.calls cs (EditorBridge.closeEditor b)) = false
  /\ EditorBridge.call (EditorBridge.PositionChanged t)
       (EditorBridge.calls cs (EditorBridge.closeEditor b))
     = Normal tt (EditorBridge.calls cs (EditorBridge.closeEditor b)).
Proof.
  assert (H : forall b0, EditorBridge.positionChanged b0 = false ->
                         EditorBridge.positionChanged (EditorBridge.calls cs b0)
                         = false).
  { induction cs as [|c cs IH]; intros b0 Hb0; [done|].
    cbn [EditorBridge.calls]. by apply IH, call_keeps_detached. }
  specialize (H (EditorBridge.closeEditor b) eq_refl).
  split; [exact H|]. cbn [EditorBridge.call]. by rewrite H.
Qed.

Example reopened_editor_does_not_follow :
  EditorBridge._editor
    (EditorBridge.calls
       [ EditorBridge.OpenEditor (inr Demo.drawn) 10;
         EditorBridge.PositionChanged 20;
         EditorBridge.CloseEditor;
         EditorBridge.OpenEditor (inr Demo.drawn) 30;
         EditorBridge.PositionChanged 40 ] EditorBridge.new)
  = Some (setTime 30 Demo.drawn)
  /\ time <$> EditorBridge._editor
                (EditorBridge.calls
                   [ EditorBridge.OpenEditor (inr Demo.drawn) 10;
                     EditorBridge.PositionChanged 20 ] EditorBridge.new)
     = Some 20.
Proof. split; reflexivity. Qed.

(** ** Reset, and frames after a change *)

(** X18. [reset] empties the content list and the flags and sets the time to 0,
    and nothing more: it writes to no content object, leaves the rows, the
    outline and the dirty flag as they are, so that a frame after it rebuilds
    nothing unless a rebuild was already pending, and it does not detach the
    editor from the contents it held: adding such a content again gives it
    one more subscription. *)
Theorem reset_keeps_rows_and_subscriptions (st : Editor) :
  _contents (reset st) = [] /\ _expandedRows (reset st) = []
  /\ time (reset st) = 0
  /\ store (reset st) = store st
  /\ rows (reset st) = rows st /\ outline (reset st) = outline st
  /\ (_dirty st = false -> _redrawLoop (reset st) = reset st)
  /\ (_dirty st = true ->
        rows (_redrawLoop (reset st)) = []
        /\ outline (_redrawLoop (reset st)) = [])
  /\ (forall c,
        IEditorContent.intervalChanged (store (addContent c (reset st)) c)
        = IEditorContent.intervalChanged (store st c) ++ [OnContentsChanged]).
Proof.
  split_and!; try done.
  - intros Hd. unfold _redrawLoop. simpl. by rewrite Hd.
  - intros Hd. unfold _redrawLoop. simpl. rewrite Hd. done.
  - intros c. unfold addContent. simpl. by rewrite fn_lookup_insert.
Qed.

Lemma reset_keeps_rows_and_subscriptions_witness :
  length (rows (_redrawLoop (reset Demo.drawn))) = 3%nat
  /\ IEditorContent.intervalChanged
       (store (addContent 0 (reset Demo.drawn)) 0%nat)
     = [OnContentsChanged; OnContentsChanged].
Proof.
  destruct (reset_keeps_rows_and_subscriptions Demo.drawn)
    as (_ & _ & _ & _ & _ & _ & Hframe & _ & Hsub).
  split.
  - rewrite Hframe; reflexivity.
  - rewrite Hsub. reflexivity.
Defined.

(** X19. A content added to the editor shows up with the next frame.  For a
    content that is not in the list, the frame after [addContent] rebuilds
    the rows as the blocks of the old contents followed by the block of the
    new content, whose module index is the old length of the list; the
    outline is rebuilt with them and the dirty flag is cleared, so that a
    second frame changes nothing. *)
Theorem addContent_then_frame (content : nat) (st : Editor) :
  content ∉ _contents st ->
  rows (_redrawLoop (addContent content st))
  = mjoin (row_blocks st)
    ++ rows_of_content st (length (_contents st)) (store st content)
  /\ length (outline (_redrawLoop (addContent content st)))
     = length (rows (_redrawLoop (addContent content st)))
  /\ _dirty (_redrawLoop (addContent content st)) = false
  /\ _redrawLoop (_redrawLoop (addContent content st))
     = _redrawLoop (addContent content st).
Proof.
  intros Hnin. unfold addContent. rewrite decide_False by done.
  unfold _redrawLoop at 1 2 3 5. simpl.
  rewrite redrawOutline_eq, redrawTimeline_eq. simpl.
  split_and!; try done.
  - unfold row_blocks. simpl. rewrite imap_app, join_app. simpl.
    rewrite Nat.add_0_r, app_nil_r, fn_lookup_insert. f_equal. f_equal.
    apply imap_ext. intros i x Hx. simpl.
    assert (x <> content) as Hne.
    { intros ->. apply Hnin. by eapply list_elem_of_lookup_2. }
    by rewrite fn_lookup_insert_ne.
  - by rewrite length_imap.
Qed.

Lemma addContent_then_frame_witness :
  Row.moduleIdx <$> rows (_redrawLoop (addContent 7 Demo.drawn))
  = [0; 0; 1; 2]%nat
  /\ _dirty (_redrawLoop (addContent 7 Demo.drawn)) = false.
Proof.
  assert (Hnin : 7%nat ∉ _contents Demo.drawn).
  { apply (bool_decide_unpack _). vm_compute. exact I. }
  destruct (addContent_then_frame 7 Demo.drawn Hnin) as (Hrows & _ & Hd & _).
  split; [|exact Hd]. rewrite Hrows. reflexivity.
Defined.
